(** * breba-docs: the command execution core

    A shallow embedding of [breba_docs/services/command_executor.py] and of
    the two executing stages of [breba_docs/agent/graph_agent.py].

    The Python code drives a pseudo-terminal (pexpect), a socket client and
    an LLM agent.  Those collaborators are kept abstract: a [Host] gives the
    text every read of every spawned shell and of every socket connection
    delivers, and an [Agent] gives the answers of the language model.  The
    code itself is embedded as functions in a state-and-exception monad over
    a [world] that records, in a trace, every interaction with the outside.
    Python's [while True] loops and the unbounded recursion of
    [collect_response] take a fuel argument.

    The exceptions of the embedding are the ones the code itself handles or
    lets through at a definite place: pexpect's [TIMEOUT] and [EOF] of a
    read, the [IndexError] of [goal_reports[-1]] and of [goals[0]], the
    [KeyError] of a goal without a name or a description, and the
    [GraphRecursionError] of a graph run that reaches LangGraph's limit of
    steps.  A call of the agent, a [sendline] and a message on the socket
    are taken to succeed. *)

From Stdlib Require Import String Ascii List Arith Bool Lia.
From stdpp Require Import base list.
Import ListNotations.

Local Open Scope string_scope.
Local Open Scope list_scope.

(** ** Python strings *)

Module Py.

(** [s + t] on [str]. *)
Definition cat (s t : string) : string := String.append s t.

(** Truthiness of a [str]: only the empty string is falsy. *)
Definition truthy (s : string) : bool :=
  match s with
  | EmptyString => false
  | String _ _ => true
  end.

(** [needle in hay] on [str]. *)
Fixpoint contains (needle hay : string) : bool :=
  String.prefix needle hay ||
  match hay with
  | EmptyString => false
  | String _ hay' => contains needle hay'
  end.

(** [''.join(l)]. *)
Definition join (l : list string) : string := fold_right cat "" l.

Definition chr (n : nat) : string := String (ascii_of_nat n) EmptyString.

(** The characters the embedded code writes as escapes. *)
Definition LF : string := chr 10.
Definition DQ : string := chr 34.
Definition BSL : string := chr 92.

(** [os.linesep] on the POSIX systems pexpect runs on. *)
Definition linesep : string := LF.

End Py.

Infix "+s+" := Py.cat (at level 60, right associativity).

(** ** [shlex.quote] and [json.dumps]

    Both are Python library functions the executors call on the command
    text; they are transcribed from CPython's [shlex] and [json.encoder]
    (with [ensure_ascii], every character is taken as one code point below
    256). *)

Module Shlex.

Definition between (lo n hi : nat) : bool := ((lo <=? n) && (n <=? hi))%nat.

(** The complement of [_find_unsafe]'s class [[^\w@%+=:,./-]] (ASCII). *)
Definition safe (c : ascii) : bool :=
  let n := nat_of_ascii c in
  between 48 n 57 || between 65 n 90 || between 97 n 122 ||
  existsb (Nat.eqb n) [95; 64; 37; 43; 61; 58; 44; 46; 47; 45].

Fixpoint all_safe (s : string) : bool :=
  match s with
  | EmptyString => true
  | String c s' => safe c && all_safe s'
  end.

(** [s.replace] of every single quote by: quote, double quote, quote,
    double quote, quote. *)
Fixpoint escape_quotes (s : string) : string :=
  match s with
  | EmptyString => EmptyString
  | String c s' =>
      if Ascii.eqb c "'"%char
      then "'" +s+ Py.DQ +s+ "'" +s+ Py.DQ +s+ "'" +s+ escape_quotes s'
      else String c (escape_quotes s')
  end.

Definition quote (s : string) : string :=
  if Py.truthy s then
    if all_safe s then s else "'" +s+ escape_quotes s +s+ "'"
  else "''".

End Shlex.

(** How a POSIX shell reads a word of its command line (Shell Command
    Language, 2.2 Quoting): between single quotes every character stands
    for itself; between double quotes so does every character but the
    dollar sign, the backquote and the backslash; outside of quotes the
    characters that [shlex] calls safe stand for themselves, and the reader
    gives up at any other, which the shell may take as the end of the word
    or as an operator.  The result is the text of the one word the line
    consists of. *)
Module Sh.





End Sh.

Module Json.

Definition hex_digit (n : nat) : string :=
  Py.chr (if (n <? 10)%nat then 48 + n else 87 + n).

(** [ESCAPE_ASCII] with its replacement table [ESCAPE_DCT]. *)
Definition escape_char (c : ascii) : string :=
  let n := nat_of_ascii c in
  if (n =? 34)%nat then Py.BSL +s+ Py.DQ
  else if (n =? 92)%nat then Py.BSL +s+ Py.BSL
  else if (n =? 10)%nat then Py.BSL +s+ "n"
  else if (n =? 13)%nat then Py.BSL +s+ "r"
  else if (n =? 9)%nat then Py.BSL +s+ "t"
  else if (n =? 8)%nat then Py.BSL +s+ "b"
  else if (n =? 12)%nat then Py.BSL +s+ "f"
  else if Shlex.between 32 n 126 then String c EmptyString
  else Py.BSL +s+ "u00" +s+ hex_digit (n / 16) +s+ hex_digit (n mod 16).

Fixpoint escape (s : string) : string :=
  match s with
  | EmptyString => EmptyString
  | String c s' => escape_char c +s+ escape s'
  end.

Definition dumps_str (s : string) : string := Py.DQ +s+ escape s +s+ Py.DQ.

(** [json.dumps({key: value})] for a one-entry dict of strings. *)
Definition dumps_entry (key value : string) : string :=
  "{" +s+ dumps_str key +s+ ": " +s+ dumps_str value +s+ "}".

End Json.

(** ** Reports *)

(** [CommandReport] of [breba_docs.services.reports]: the graph builds it as
    [CommandReport(command, None, None)] and reads [.command], [.success] and
    [.insights]; [None] is an outcome not judged yet. *)
Record CommandReport := mkCommandReport {
  command : string;
  success : option bool;
  insights : option string
}.

(** [not command_report.success]: [None] and [False] are both falsy. *)
Definition not_success (r : CommandReport) : bool :=
  match success r with
  | Some true => false
  | _ => true
  end.

(** ** The outside world *)

(** What one [read_nonblocking] on a pexpect process can do. *)
Inductive read_result :=
| Data (s : string)
| TIMEOUT
| EOF.

(** The exceptions of the embedded code. *)
Inductive exn :=
| ExcTIMEOUT      (* pexpect.exceptions.TIMEOUT *)
| ExcEOF          (* pexpect.exceptions.EOF *)
| ExcIndexError   (* list index out of range *)
| ExcKeyError (key : string)  (* a dict asked for a key it does not hold *)
| ExcGraphRecursionError.     (* LangGraph: the limit of steps is reached *)

(** The machine the code runs on: [shell k n] is what the [n]-th read of the
    [k]-th spawned shell delivers, [peer k n] the [n]-th response on the
    [k]-th socket connection, [uuid4 n] the [n]-th random token.  A shell or
    peer that reacts to what it is sent is one such family of sequences: the
    sequence it produced in the run at hand. *)
Class Host := {
  shell : nat -> nat -> read_result;
  peer : nat -> nat -> string;
  uuid4 : nat -> string
}.

(** The abstract base class [Agent]: the language model behind the
    executors and the repair loop. *)
Class Agent := {
  provide_input : string -> string;
  analyze_output : string -> CommandReport;
  fetch_modify_file_commands : string -> CommandReport -> list string
}.

(** Every interaction with the outside, in the order the code performs it. *)
Inductive event :=
| EvSpawn                                  (* pexpect.spawn('/bin/bash', ...) *)
| EvRead (r : read_result)                 (* process.read_nonblocking *)
| EvSendline (s : string)                  (* process.sendline(s) *)
| EvProvideInput (text answer : string)    (* agent.provide_input(text) *)
| EvAnalyze (text : string)                (* agent.analyze_output(text) *)
| EvFetchModify (r : CommandReport)        (* agent.fetch_modify_file_commands *)
| EvConnect                                (* Client().__enter__ *)
| EvSendMessage (msg response : string)    (* socket_client.send_message(msg) *)
| EvReadResponse (response : string)       (* socket_client.read_response() *)
| EvDisconnect.                            (* Client().__exit__ *)

(** The state the code threads: how many shells were spawned (the live one is
    the last), how many reads the live shell has served, the same for socket
    connections, how many tokens were drawn, the Python list objects of the
    goal reports, and the trace. *)
Record world := mkWorld {
  spawned : nat;
  pos : nat;
  connected : nat;
  peer_pos : nat;
  uuids : nat;
  store : list (list CommandReport);
  trace : list event
}.

Definition log (e : event) (w : world) : world :=
  mkWorld (spawned w) (pos w) (connected w) (peer_pos w) (uuids w) (store w)
          (trace w ++ [e]).

Definition world0 : world := mkWorld 0 0 0 0 0 [] [].

(** ** The monad *)

Inductive outcome (A : Type) :=
| Returned (a : A)
| Raised (e : exn)
| OutOfFuel.
Arguments Returned {A} a.
Arguments Raised {A} e.
Arguments OutOfFuel {A}.

Definition M (A : Type) : Type := world -> outcome A * world.

Definition ret {A} (a : A) : M A := fun w => (Returned a, w).

Definition bind {A B} (m : M A) (k : A -> M B) : M B :=
  fun w =>
    match m w with
    | (Returned a, w1) => k a w1
    | (Raised e, w1) => (Raised e, w1)
    | (OutOfFuel, w1) => (OutOfFuel, w1)
    end.

Definition raise {A} (e : exn) : M A := fun w => (Raised e, w).

Definition diverge {A} : M A := fun w => (OutOfFuel, w).

Notation "'do' x <- m ; k" := (bind m (fun x => k))
  (at level 10, x name, m at level 100, k at level 200,
   format "'[v' 'do'  x  <-  m ; '/' k ']'").
Notation "'do_' m ; k" := (bind m (fun _ => k))
  (at level 10, m at level 100, k at level 200,
   format "'[v' 'do_'  m ; '/' k ']'").

Definition finished {A} (r : outcome A) : Prop :=
  match r with
  | OutOfFuel => False
  | _ => True
  end.

(** ** Primitive operations *)

Section Executors.

Context {host : Host} {agent : Agent}.

(** [pexpect.spawn('/bin/bash', encoding='utf-8', env={PS1: empty},
    echo=False)]: a new shell, nothing read from it yet. *)
Definition spawn : M unit :=
  fun w =>
    (Returned tt,
     mkWorld (S (spawned w)) 0 (connected w) (peer_pos w) (uuids w) (store w)
             (trace w ++ [EvSpawn])).

(** The live shell: the one spawned last. *)
Definition live (w : world) : nat := pred (spawned w).

(** [process.read_nonblocking(1024, timeout=...)]: the next chunk, or one
    of pexpect's two exceptions. *)
Definition read_nonblocking : M string :=
  fun w =>
    let r := shell (live w) (pos w) in
    let w1 := mkWorld (spawned w) (S (pos w)) (connected w) (peer_pos w)
                      (uuids w) (store w) (trace w ++ [EvRead r]) in
    match r with
    | Data s => (Returned s, w1)
    | TIMEOUT => (Raised ExcTIMEOUT, w1)
    | EOF => (Raised ExcEOF, w1)
    end.

(** [process.sendline(s)]. *)
Definition sendline (s : string) : M unit :=
  fun w => (Returned tt, log (EvSendline s) w).

(** [str(uuid.uuid4())]. *)
Definition uuid4_str : M string :=
  fun w =>
    (Returned (uuid4 (uuids w)),
     mkWorld (spawned w) (pos w) (connected w) (peer_pos w) (S (uuids w))
             (store w) (trace w)).

(** [self.agent.provide_input(text)]. *)
Definition ask_input (text : string) : M string :=
  fun w =>
    let answer := provide_input text in
    (Returned answer, log (EvProvideInput text answer) w).

(** [self.agent.analyze_output(text)]. *)
Definition judge (text : string) : M CommandReport :=
  fun w => (Returned (analyze_output text), log (EvAnalyze text) w).

(** ** [collect_output]

    [fuel] bounds the iterations of [while True]; [command_output] is the
    accumulator, empty at the call.  [time.sleep(0.5)] has no effect on
    the state and leaves no event. *)
Fixpoint collect_output (fuel : nat) (command_end_marker : string)
         (command_output : string) : M string :=
  match fuel with
  | O => diverge
  | S fuel' =>
      fun w =>
        match read_nonblocking w with
        | (Returned output, w1) =>
            let command_output := command_output +s+ output in
            if Py.contains command_end_marker output
            then (Returned command_output, w1)
            else collect_output fuel' command_end_marker command_output w1
        | (Raised ExcTIMEOUT, w1) => (Returned command_output, w1)
        | (Raised ExcEOF, w1) => (Returned command_output, w1)
        | (Raised e, w1) => (Raised e, w1)
        | (OutOfFuel, w1) => (OutOfFuel, w1)
        end
  end.

(** ** [LocalCommandExecutor] *)

(** [get_input_text]: [None] for the sentinel, the instruction when it is
    truthy, and the implicit [None] of a function that falls off its end
    otherwise. *)
Definition get_input_text (text : string) : M (option string) :=
  do instruction <- ask_input text;
  if String.eqb instruction "breba-noop" then ret None
  else if Py.truthy instruction then ret (Some instruction)
  else ret None.

(** Truthiness of an optional string: [None] and the empty string are
    falsy. *)
Definition truthy_opt (o : option string) : bool :=
  match o with
  | Some s => Py.truthy s
  | None => false
  end.

Definition text_of (o : option string) : string :=
  match o with
  | Some s => s
  | None => EmptyString
  end.

(** The inner [while True] of [execute_commands_sync]. *)
Fixpoint collect_loop (fuel : nat) (command_end_marker : string)
         (command_output : string) : M string :=
  match fuel with
  | O => diverge
  | S fuel' =>
      do new_output <- collect_output fuel' command_end_marker EmptyString;
      let command_output := command_output +s+ new_output in
      if Py.truthy new_output then
        do input_text <- get_input_text new_output;
        if truthy_opt input_text then
          let command_output :=
            command_output +s+ (text_of input_text +s+ Py.linesep) in
          do_ sendline (text_of input_text);
          collect_loop fuel' command_end_marker command_output
        else collect_loop fuel' command_end_marker command_output
      else ret command_output
  end.

(** The body of [for command in commands]. *)
Definition run_command (fuel : nat) (command : string) : M CommandReport :=
  let escaped_command := Shlex.quote command in
  do_ sendline ("echo " +s+ escaped_command +s+ Py.LF);
  do command_id <- uuid4_str;
  let command_end_marker := "Completed " +s+ command_id in
  let command := command +s+ " && echo " +s+ command_end_marker in
  do_ sendline command;
  do command_output <- collect_loop fuel command_end_marker EmptyString;
  do agent_output <- judge command_output;
  ret agent_output.

(** [for command in commands: ...; report.append(agent_output)]. *)
Fixpoint for_commands (fuel : nat) (commands : list string)
         (report : list CommandReport) : M (list CommandReport) :=
  match commands with
  | [] => ret report
  | command :: commands' =>
      do agent_output <- run_command fuel command;
      for_commands fuel commands' (report ++ [agent_output])
  end.

(** [LocalCommandExecutor.execute_commands_sync].  The read that clears
    the start-up messages stands outside any [try]. *)
Definition local_execute_commands_sync (fuel : nat) (commands : list string)
  : M (list CommandReport) :=
  do_ spawn;
  do _banner <- read_nonblocking;
  for_commands fuel commands [].

(** ** [ContainerCommandExecutor] *)

(** Modelled from the spec: [Client] of [breba_docs.socket_server.client]
    is not among the sources.  It is a context manager around one socket
    connection; [send_message] sends one message and returns the peer's
    next response, [read_response] returns the peer's next response, and
    a response is an opaque text whose empty value means that there is no
    more output right now. *)
Definition connect : M unit :=
  fun w =>
    (Returned tt,
     mkWorld (spawned w) (pos w) (S (connected w)) 0 (uuids w) (store w)
             (trace w ++ [EvConnect])).

Definition disconnect : M unit :=
  fun w => (Returned tt, log EvDisconnect w).

Definition next_response (w : world) : string :=
  peer (pred (connected w)) (peer_pos w).

Definition received (e : event) (w : world) : world :=
  mkWorld (spawned w) (pos w) (connected w) (S (peer_pos w)) (uuids w)
          (store w) (trace w ++ [e]).

Definition send_message (msg : string) : M string :=
  fun w =>
    let response := next_response w in
    (Returned response, received (EvSendMessage msg response) w).

Definition read_response : M string :=
  fun w =>
    let response := next_response w in
    (Returned response, received (EvReadResponse response) w).

(** [with Client() as socket_client: body]: [__exit__] runs when the body
    returns and when it raises. *)
Definition with_client {A} (body : M A) : M A :=
  do_ connect;
  fun w =>
    match body w with
    | (Returned a, w1) => (do_ disconnect; ret a) w1
    | (Raised e, w1) => (do_ disconnect; raise e) w1
    | (OutOfFuel, w1) => (OutOfFuel, w1)
    end.

Definition get_input_message (text : string) : M (option string) :=
  do instruction <- ask_input text;
  if String.eqb instruction "breba-noop" then ret None
  else if Py.truthy instruction
       then ret (Some (Json.dumps_entry "input" instruction))
       else ret None.

(** [collect_response]; [fuel] bounds the depth of the recursion. *)
Fixpoint collect_response (fuel : nat) (response : string) {struct fuel}
  : M string :=
  if Py.truthy response then
    match fuel with
    | O => diverge
    | S fuel' =>
        do input_message <- get_input_message response;
        do input_response <-
           (if truthy_opt input_message
            then send_message (text_of input_message)
            else ret EmptyString);
        do trailing <- read_response;
        do additional_response <- collect_response fuel' trailing;
        ret ((response +s+ input_response) +s+ additional_response)
    end
  else ret EmptyString.

Fixpoint for_remote_commands (fuel : nat) (commands : list string)
         (report : list CommandReport) : M (list CommandReport) :=
  match commands with
  | [] => ret report
  | command :: commands' =>
      do response <- send_message (Json.dumps_entry "command" command);
      do response <- collect_response fuel response;
      do agent_output <- judge response;
      for_remote_commands fuel commands' (report ++ [agent_output])
  end.

(** [ContainerCommandExecutor.execute_commands_sync]. *)
Definition container_execute_commands_sync (fuel : nat)
           (commands : list string) : M (list CommandReport) :=
  with_client (for_remote_commands fuel commands []).

End Executors.

(** ** The executing stages of [GraphAgent] *)

(** Modelled from the spec: [GoalReport] of [breba_docs.services.reports] is
    not among the sources ([services/goal_report.py] is an older record
    without the repair reports).  It is a dataclass of a goal's name, its
    description, the ordered CommandReports of the goal's commands and the
    ordered CommandReports of the repair loop; the graph builds it from the
    first three, so the fourth starts as a fresh empty list.  The two lists
    are Python list objects: the record holds references into [store]. *)
Record GoalReport := mkGoalReport {
  goal_name : string;
  goal_description : string;
  command_reports : nat;
  modify_command_reports : nat
}.

(** [AgentState]: the messages, the goals not processed yet and the goal
    reports.  A goal is the dict that the model's JSON gave for it, kept as
    its items in their order; the keys are strings, and so are the values,
    as the instructions ask of the model. *)
Record AgentState := mkAgentState {
  messages : list string;
  goals : list (list (string * string));
  goal_reports : list GoalReport
}.

Section Graph.

Context {host : Host} {agent : Agent}.

(** [self.doc.filepath]. *)
Variable filepath : string.

(** A new list object. *)
Definition alloc (l : list CommandReport) : M nat :=
  fun w =>
    (Returned (length (store w)),
     mkWorld (spawned w) (pos w) (connected w) (peer_pos w) (uuids w)
             (store w ++ [l]) (trace w)).

(** The elements of a list object. *)
Definition elements_at (w : world) (ref : nat) : list CommandReport :=
  default [] (store w !! ref).

Definition deref (ref : nat) : M (list CommandReport) :=
  fun w => (Returned (elements_at w ref), w).

(** [list.__iadd__]: the object behind [ref] is extended in place. *)
Definition extend (ref : nat) (l : list CommandReport) : M unit :=
  fun w =>
    (Returned tt,
     mkWorld (spawned w) (pos w) (connected w) (peer_pos w) (uuids w)
             (<[ref := elements_at w ref ++ l]> (store w)) (trace w)).

(** [dataclasses.replace(report)] without changes: a new record with the
    field values, references included, of the old one. *)
Definition replace (report : GoalReport) : GoalReport :=
  mkGoalReport (goal_name report) (goal_description report)
               (command_reports report) (modify_command_reports report).

(** [state['goal_reports'][-1]]. *)
Definition last_goal_report (state : AgentState) : M GoalReport :=
  match last (goal_reports state) with
  | Some report => ret report
  | None => raise ExcIndexError
  end.

(** [self.agent.fetch_modify_file_commands(self.doc.filepath, report)]. *)
Definition fetch_modify (report : CommandReport) : M (list string) :=
  fun w =>
    (Returned (fetch_modify_file_commands filepath report),
     log (EvFetchModify report) w).

(** [for command_report in current_goal.command_reports: ...]: the list
    iterator reads the list object at its index [i] in every round, and
    [current_goal.modify_command_reports += modify_report] extends the
    object the attribute refers to and binds the attribute to it again. *)
Fixpoint repair_loop (fuel : nat) (current_goal : GoalReport) (i : nat)
  : M GoalReport :=
  match fuel with
  | O => diverge
  | S fuel' =>
      do reports <- deref (command_reports current_goal);
      match reports !! i with
      | None => ret current_goal
      | Some command_report =>
          if not_success command_report then
            do modify_commands <- fetch_modify command_report;
            do modify_report <-
               local_execute_commands_sync fuel' modify_commands;
            do_ extend (modify_command_reports current_goal) modify_report;
            repair_loop fuel' current_goal (S i)
          else repair_loop fuel' current_goal (S i)
      end
  end.

(** [GraphAgent.execute_mutator_commands]; the returned dict replaces the
    state's [goal_reports]. *)
Definition execute_mutator_commands (fuel : nat) (state : AgentState)
  : M AgentState :=
  do last_report <- last_goal_report state;
  let current_goal := replace last_report in
  do current_goal <- repair_loop fuel current_goal 0;
  let updated_goal_reports :=
    map replace (removelast (goal_reports state)) in
  ret (mkAgentState (messages state) (goals state)
                    (updated_goal_reports ++ [current_goal])).

(** [GraphAgent.execute_commands]. *)
Definition execute_commands (fuel : nat) (state : AgentState)
  : M AgentState :=
  do current_goal <- last_goal_report state;
  do reports <- deref (command_reports current_goal);
  let commands := map command reports in
  do command_reports <- container_execute_commands_sync fuel commands;
  do reports_ref <- alloc command_reports;
  do modify_ref <- alloc [];
  let updated_goal :=
    mkGoalReport (goal_name current_goal) (goal_description current_goal)
                 reports_ref modify_ref in
  ret (mkAgentState (messages state) (goals state)
                    (removelast (goal_reports state) ++ [updated_goal])).

End Graph.

(** ** [str.split] and [str.strip]

    The two string methods by which [identify_commands] and
    [fetch_commands] turn the model's reply into commands, transcribed from
    CPython (characters are code points below 256). *)

Module Str.

(** [c.isspace()] for one character. *)
Definition is_space (c : ascii) : bool :=
  let n := nat_of_ascii c in
  Shlex.between 9 n 13 || Shlex.between 28 n 32 ||
  (n =? 133)%nat || (n =? 160)%nat.

Definition is_comma (c : ascii) : bool := Ascii.eqb c ","%char.

(** [s.lstrip()]. *)
Fixpoint lstrip (s : string) : string :=
  match s with
  | EmptyString => EmptyString
  | String c s' => if is_space c then lstrip s' else s
  end.

(** [s.rstrip()]. *)
Fixpoint rstrip (s : string) : string :=
  match s with
  | EmptyString => EmptyString
  | String c s' =>
      match rstrip s' with
      | EmptyString => if is_space c then EmptyString else String c EmptyString
      | String c' rest => String c (String c' rest)
      end
  end.

(** [s.strip()]. *)
Definition strip (s : string) : string := rstrip (lstrip s).

(** [s.split(",")]: the pieces between the commas, empty ones included. *)
Fixpoint split (s : string) : list string :=
  match s with
  | EmptyString => [EmptyString]
  | String c s' =>
      if is_comma c then EmptyString :: split s'
      else match split s' with
           | piece :: pieces => String c piece :: pieces
           | [] => [String c EmptyString]
           end
  end.

(** [sep.join(l)]. *)
Fixpoint join (sep : string) (l : list string) : string :=
  match l with
  | [] => EmptyString
  | [piece] => piece
  | piece :: pieces => piece +s+ sep +s+ join sep pieces
  end.

(** How often a comma occurs in [s]. *)
Fixpoint commas (s : string) : nat :=
  match s with
  | EmptyString => 0
  | String c s' => (if is_comma c then 1 else 0) + commas s'
  end.

(** The first and the last character, when there is one. *)
Definition first (s : string) : option ascii :=
  match s with
  | EmptyString => None
  | String c _ => Some c
  end.

Fixpoint final (s : string) : option ascii :=
  match s with
  | EmptyString => None
  | String c EmptyString => Some c
  | String _ s' => final s'
  end.

(** A string that [strip] has nothing to take from. *)
Definition trimmed (s : string) : bool :=
  match first s, final s with
  | Some a, Some b => negb (is_space a) && negb (is_space b)
  | _, _ => true
  end.

End Str.

(** [[cmd.strip() for cmd in content.split(",")]]. *)
Definition parse_commands (content : string) : list string :=
  map Str.strip (Str.split content).

(** ** [GraphAgent.identify_commands] and the cycle of the graph *)

(** The chat model of [GraphAgent] ([ChatOpenAI.invoke], from the contents
    of the messages to the content of the response) and the text that
    [get_instructions("fetch_commands", document=self.doc.content)] gives;
    [breba_docs.agent.instruction_reader] is not among the sources. *)
Class Chat := {
  invoke : list string -> string;
  fetch_commands_instructions : string
}.

(** [d[key]] for a dict given by its items: the value, if the key is
    there. *)
Fixpoint item (key : string) (d : list (string * string)) : option string :=
  match d with
  | [] => None
  | (k, v) :: rest => if String.eqb k key then Some v else item key rest
  end.

(** [json.dumps(d)] for a dict of strings: the items in their order, with a
    comma and a space between them and a colon and a space within. *)
Fixpoint dumps_items (d : list (string * string)) : string :=
  match d with
  | [] => EmptyString
  | [(k, v)] => Json.dumps_str k +s+ ": " +s+ Json.dumps_str v
  | (k, v) :: rest =>
      Json.dumps_str k +s+ ": " +s+ Json.dumps_str v +s+ ", "
      +s+ dumps_items rest
  end.

Definition dumps_goal (goal : list (string * string)) : string :=
  "{" +s+ dumps_items goal +s+ "}".

(** The reply of the model to the request for the commands of a goal. *)
Definition commands_reply {chat : Chat} (goal : list (string * string))
  : string :=
  invoke [fetch_commands_instructions;
          "Give me commands for this goal: " +s+ dumps_goal goal].

(** [process_more_goals]: [len(state['goals']) > 0]. *)
Definition process_more_goals (state : AgentState) : bool :=
  (0 <? length (goals state))%nat.

(** [graph.invoke] is called without a config, so LangGraph's default
    [recursion_limit] holds: a run that has made its 25th step ends in a
    GraphRecursionError, whether or not there is a step left to make.
    LangGraph is not among the sources; every node of this graph is one
    step, and [identify_goals] is the first. *)
Definition recursion_limit : nat := 25.

(** A node run as step [S taken] of the graph. *)
Definition node {A} (taken : nat) (m : M A) : M A :=
  do a <- m;
  if (recursion_limit <=? S taken)%nat then raise ExcGraphRecursionError
  else ret a.

Section Cycle.

Context {host : Host} {agent : Agent} {chat : Chat}.

Variable filepath : string.

(** [current_goal[key]]. *)
Definition subscript (key : string) (d : list (string * string))
  : M string :=
  match item key d with
  | Some v => ret v
  | None => raise (ExcKeyError key)
  end.

(** [identify_commands].  [state['goals'][0]] raises on an empty list; the
    messages are kept by their contents; the list of unjudged reports is
    made before the goal is asked for its name and its description, and
    the record is built with the default empty list of repair reports. *)
Definition identify_commands (state : AgentState) : M AgentState :=
  match goals state with
  | [] => raise ExcIndexError
  | current_goal :: remaining =>
      let system_instructions := fetch_commands_instructions in
      let messages := [system_instructions] in
      let message :=
        "Give me commands for this goal: " +s+ dumps_goal current_goal in
      let messages := messages ++ [message] in
      let model_response := invoke messages in
      let messages := messages ++ [model_response] in
      let commands := parse_commands model_response in
      do reports_ref <-
         alloc (map (fun command => mkCommandReport command None None)
                    commands);
      do name <- subscript "name" current_goal;
      do description <- subscript "description" current_goal;
      do modify_ref <- alloc [];
      let goal_report :=
        mkGoalReport name description reports_ref modify_ref in
      ret (mkAgentState messages remaining
                        (goal_reports state ++ [goal_report]))
  end.

(** The compiled graph from the node [identify_commands] on, entered after
    [taken] steps of the run (one, when [identify_goals] was the first): the
    edges lead to [execute_commands], then to [execute_mutator_commands],
    and from there back to [identify_commands] while [process_more_goals]
    holds, to the end otherwise.  ([identify_goals], which fills the goals
    from the model's JSON, leads to [identify_commands] unconditionally.) *)
Definition turn (fuel : nat) (taken : nat) (state : AgentState)
  : M AgentState :=
  do state <- node taken (identify_commands state);
  do state <- node (1 + taken) (execute_commands fuel state);
  node (2 + taken) (execute_mutator_commands filepath fuel state).

Fixpoint goal_rounds (fuel : nat) (taken : nat) (state : AgentState)
  : M AgentState :=
  match fuel with
  | O => diverge
  | S fuel' =>
      do state <- turn fuel' taken state;
      if process_more_goals state then goal_rounds fuel' (3 + taken) state
      else ret state
  end.

End Cycle.

(** ** [OpenAIAgent]: [do_run], [provide_input], [fetch_commands] *)

Module OpenAI.

(** The Assistants API as [do_run] uses it: [create_and_poll id history
    instructions] is the reply of a run on thread [id], whose messages are
    [history], that ends with the status completed, and [None] for a run
    that ends otherwise. *)
Class Assistants := {
  create_and_poll : nat -> list string -> string -> option string
}.

(** The agent: the messages of the threads created so far, and
    [self.thread]. *)
Record assistant := mkAssistant {
  threads : list (list string);
  thread : option nat
}.

(** What a method does: it raises [AttributeError] (a [None] where an
    object is needed), or it returns a value and leaves a state. *)
Inductive result (A : Type) :=
| Ok (a : A) (st : assistant)
| AttributeError.
Arguments Ok {A} a st.
Arguments AttributeError {A}.

(** What a run adds to its thread after the user's message: the reply of a
    run that completed, nothing otherwise. *)
Definition said (reply : option string) : list string :=
  match reply with
  | Some r => [r]
  | None => []
  end.

Section Runs.

Context {api : Assistants}.

(** The prompt constants of the class, and
    [INSTRUCTIONS_GET_COMMANDS_FOR_TASK.format(doc)]. *)
Variables INPUT_FIRST_MESSAGE INPUT_FIRST_MESSAGE_VERIFY : string.
Variables INPUT_FIRST_COMMAND_SYSTEM_INSTRUCTION : string.
Variables INPUT_FOLLOW_UP_MESSAGE INPUT_FOLLOW_UP_COMMAND_INSTRUCTION : string.
Variable instructions_get_commands_for_task : string -> string.
Variable fetch_commands_request : string.

(** [do_run]: a new thread when asked for, the message on [self.thread],
    the run; the last message of the thread when the run completed, [None]
    (the function ends after a print) when it did not. *)
Definition do_run (message instructions : string) (new_thread : bool)
           (st : assistant) : result (option string) :=
  let st1 :=
    if new_thread
    then mkAssistant (threads st ++ [[]]) (Some (length (threads st)))
    else st in
  match thread st1 with
  | None => AttributeError
  | Some id =>
      let history := default [] (threads st1 !! id) ++ [message] in
      match create_and_poll id history instructions with
      | Some reply =>
          Ok (Some reply)
             (mkAssistant (<[id := history ++ [reply]]> (threads st1))
                          (Some id))
      | None =>
          Ok None (mkAssistant (<[id := history]> (threads st1)) (Some id))
      end
  end.

(** [value == "Yes"] for a value that may be [None]. *)
Definition is_yes (value : option string) : bool :=
  match value with
  | Some s => String.eqb s "Yes"
  | None => false
  end.

(** [provide_input]. *)
Definition provide_input (text : string) (st : assistant)
  : result (option string) :=
  let message := INPUT_FIRST_MESSAGE +s+ Py.LF +s+ text in
  match do_run message INPUT_FIRST_COMMAND_SYSTEM_INSTRUCTION true st with
  | AttributeError => AttributeError
  | Ok has_prompt st1 =>
      if is_yes has_prompt then
        match do_run INPUT_FIRST_MESSAGE_VERIFY
                     INPUT_FIRST_COMMAND_SYSTEM_INSTRUCTION false st1 with
        | AttributeError => AttributeError
        | Ok prompt_verified st2 =>
            if is_yes prompt_verified then
              do_run INPUT_FOLLOW_UP_MESSAGE
                     INPUT_FOLLOW_UP_COMMAND_INSTRUCTION false st2
            else Ok (Some "breba-noop") st2
        end
      else Ok (Some "breba-noop") st1
  end.

(** [fetch_commands]: the request is the goal, a newline and the fixed
    text; [assistant_output.split] needs a string. *)
Definition fetch_commands (doc goal : string) (st : assistant)
  : result (list string) :=
  let message := (goal +s+ Py.LF) +s+ fetch_commands_request in
  match do_run message (instructions_get_commands_for_task doc) true st with
  | AttributeError => AttributeError
  | Ok assistant_output st1 =>
      match assistant_output with
      | Some content => Ok (parse_commands content) st1
      | None => AttributeError
      end
  end.

End Runs.

End OpenAI.

(** ** What a run leaves behind *)

Section Observations.

Context {host : Host}.

(** The text a read adds to the output. *)
Definition chunk (r : read_result) : string :=
  match r with
  | Data s => s
  | _ => EmptyString
  end.

(** The reads that end [collect_output]: a timeout, an end of file, or a
    chunk that holds the whole marker. *)
Definition stops (marker : string) (r : read_result) : bool :=
  match r with
  | Data s => Py.contains marker s
  | _ => true
  end.

Definition silent (r : read_result) : bool :=
  match r with
  | Data _ => false
  | _ => true
  end.

(** The next [n] reads of shell [k] from position [p] on. *)
Fixpoint reads_from (k p n : nat) : list read_result :=
  match n with
  | O => []
  | S n' => shell k p :: reads_from k (S p) n'
  end.

Definition reads (w : world) (n : nat) : list read_result :=
  reads_from (live w) (pos w) n.

(** The world after [n] more reads of the live shell and nothing else. *)
Definition after_reads (w : world) (n : nat) : world :=
  mkWorld (spawned w) (n + pos w) (connected w) (peer_pos w) (uuids w)
          (store w) (trace w ++ map EvRead (reads w n)).

(** The output a stretch of the trace contributes to [command_output]:
    the chunks read and the input lines sent. *)
Definition capture (e : event) : string :=
  match e with
  | EvRead r => chunk r
  | EvSendline s => s +s+ Py.linesep
  | _ => EmptyString
  end.

Definition captured (evs : list event) : string := Py.join (map capture evs).

(** The text a stretch of the trace received from the peer. *)
Definition reply (e : event) : string :=
  match e with
  | EvSendMessage _ response => response
  | EvReadResponse response => response
  | _ => EmptyString
  end.

Definition replied (evs : list event) : string := Py.join (map reply evs).

(** The shell goes quiet again and again: beyond every position there are
    two reads in a row that deliver nothing. *)
Definition shell_pauses (k : nat) : Prop :=
  forall n, exists m, n <= m /\ silent (shell k m) = true /\
                      silent (shell k (S m)) = true.

(** The same for a peer: two empty responses in a row. *)
Definition peer_pauses (k : nat) : Prop :=
  forall n, exists m, n <= m /\ peer k m = EmptyString /\
                      peer k (S m) = EmptyString.

(** Every shell spawned from now on greets and pauses. *)
Definition shells_behave (from : nat) : Prop :=
  forall k, from <= k ->
    (exists banner, shell k 0 = Data banner) /\ shell_pauses k.

End Observations.

(** The decision both gateways take on the agent's instruction. *)
Definition wants_input (instruction : string) : bool :=
  negb (String.eqb instruction "breba-noop") && Py.truthy instruction.

(** The responses [collect_response] examines.  It examines the response it
    is called on; the reply to an input message is concatenated without a
    look at it; the next response it examines is the trailing one. *)
Section Trailing.

Context {host : Host} {agent : Agent}.

(** The next [n] responses on connection [k] from position [p] on. *)
Fixpoint responses_from (k p n : nat) : list string :=
  match n with
  | O => []
  | S n' => peer k p :: responses_from k (S p) n'
  end.

(** Where the trailing response is read when [response] is examined with
    [p] responses consumed: one further when input is sent first. *)
Definition trailing_at (response : string) (p : nat) : nat :=
  if wants_input (provide_input response) then S p else p.

(** The position of the [n]-th trailing response after [response]. *)
Fixpoint trailing (k n : nat) (response : string) (p : nat) : nat :=
  match n with
  | O => trailing_at response p
  | S n' =>
      trailing k n' (peer k (trailing_at response p))
               (S (trailing_at response p))
  end.

End Trailing.

(** Every peer connected to from now on pauses again and again. *)
Definition peers_pause {host : Host} (from : nat) : Prop :=
  forall k, from <= k -> peer_pauses k.

(** A goal that has a name and a description. *)
Definition named (goal : list (string * string)) : Prop :=
  (exists name, item "name" goal = Some name) /\
  (exists description, item "description" goal = Some description).

(** A goal report names a goal: it holds the name and the description that
    the dict of the goal gives. *)
Definition names (report : GoalReport) (goal : list (string * string))
  : Prop :=
  item "name" goal = Some (goal_name report) /\
  item "description" goal = Some (goal_description report).

(** The list objects that exist in [w] are the same in [w']. *)
Definition keeps_lists (w w' : world) : Prop :=
  forall ref, ref < length (store w) -> store w' !! ref = store w !! ref.

(** A computation only adds to the trace and never gives a token back. *)
Definition grows {A} (m : M A) : Prop :=
  forall w, exists evs,
    trace (snd (m w)) = trace w ++ evs /\ uuids w <= uuids (snd (m w)).

(** A computation lets no exception out. *)
Definition never_raises {A} (m : M A) : Prop :=
  forall w e, fst (m w) <> Raised e.

(** What a stretch of a run within one session leaves unchanged. *)
Definition same_session (w w' : world) : Prop :=
  spawned w' = spawned w /\ connected w' = connected w /\
  peer_pos w' = peer_pos w /\ store w' = store w /\ pos w <= pos w'.

(** What a stretch of a run on one connection leaves unchanged. *)
Definition same_connection (w w' : world) : Prop :=
  spawned w' = spawned w /\ pos w' = pos w /\ connected w' = connected w /\
  store w' = store w /\ uuids w' = uuids w /\ peer_pos w <= peer_pos w'.

(** What [collect_response] does with the result of its recursive call:
    the response and the reply to the input go in front of it. *)
Definition glue (response input_response : string)
           (rest : outcome string * world) : outcome string * world :=
  match rest with
  | (Returned additional, w) =>
      (Returned ((response +s+ input_response) +s+ additional), w)
  | other => other
  end.

(** Events of the collection phase of a command: reads, consultations of
    the agent and input lines. *)
Definition collecting (e : event) : Prop :=
  match e with
  | EvRead _ | EvSendline _ | EvProvideInput _ _ => True
  | _ => False
  end.

Definition draining (e : event) : Prop :=
  match e with
  | EvSendMessage _ _ | EvReadResponse _ | EvProvideInput _ _ => True
  | _ => False
  end.

(** The reports for which a stretch of the trace asked the agent for
    corrective commands, in order. *)
Definition request (e : event) : list CommandReport :=
  match e with
  | EvFetchModify r => [r]
  | _ => []
  end.

Definition requests (evs : list event) : list CommandReport :=
  concat (map request evs).

(** One command's round trip in the local executor: the echo, the wrapped
    command, the collection, the judgement of what the collection captured. *)
Definition local_round_trip {host : Host} {agent : Agent} (cmd : string) (seg : list event)
           (report : CommandReport) : Prop :=
  exists token body,
    seg = EvSendline ("echo " +s+ Shlex.quote cmd +s+ Py.LF)
          :: EvSendline (cmd +s+ " && echo " +s+ "Completed " +s+ token)
          :: body ++ [EvAnalyze (captured body)] /\
    Forall collecting body /\
    report = analyze_output (captured body).

(** One command's round trip in the container executor. *)
Definition remote_round_trip {host : Host} {agent : Agent} (cmd : string) (seg : list event)
           (report : CommandReport) : Prop :=
  exists response body,
    seg = EvSendMessage (Json.dumps_entry "command" cmd) response
          :: body ++ [EvAnalyze (response +s+ replied body)] /\
    Forall draining body /\
    report = analyze_output (response +s+ replied body).

(** A batch run that returns one report per command, made by one round trip
    after the other between [opening] and [closing]: for all fuel from some
    amount on, [run] returns the reports, and the trace it leaves is the
    round trips of the commands, in order and one after the other. *)
Definition runs_in_order (run : nat -> M (list CommandReport))
           (round_trip : string -> list event -> CommandReport -> Prop)
           (opening closing : list event) (commands : list string)
           (w : world) : Prop :=
  exists f0 segs reports w',
    (forall fuel, f0 <= fuel -> run fuel w = (Returned reports, w')) /\
    length reports = length commands /\
    Forall3 round_trip commands segs reports /\
    trace w' = trace w ++ opening ++ concat segs ++ closing.

(** The collection phase of one command in the local executor, round by
    round: a collection attempt that brought output is followed by the
    consultation of the agent on that output, and by the agent's answer as
    an input line when the answer asks for one; the phase ends with an
    attempt that brought nothing.  An attempt is at least one read. *)
Inductive local_dialogue {agent : Agent} : list event -> Prop :=
| local_dialogue_end (rs : list read_result) :
    rs <> [] ->
    Py.join (map chunk rs) = EmptyString ->
    local_dialogue (map EvRead rs)
| local_dialogue_round (rs : list read_result) (rest : list event) :
    Py.truthy (Py.join (map chunk rs)) = true ->
    local_dialogue rest ->
    local_dialogue
      (map EvRead rs
       ++ EvProvideInput (Py.join (map chunk rs))
                         (provide_input (Py.join (map chunk rs)))
       :: (if wants_input (provide_input (Py.join (map chunk rs)))
           then [EvSendline (provide_input (Py.join (map chunk rs)))]
           else [])
       ++ rest).

(** The same for the container executor, from the response that
    [collect_response] is called on: a response that is not empty is shown
    to the agent, the answer goes out as an input message when it asks for
    one, and the trailing response is read and examined next. *)
Inductive remote_dialogue {agent : Agent} : string -> list event -> Prop :=
| remote_dialogue_end : remote_dialogue EmptyString []
| remote_dialogue_round (response trailing : string)
                        (inputs rest : list event) :
    Py.truthy response = true ->
    (if wants_input (provide_input response)
     then exists input_response,
         inputs = [EvSendMessage
                     (Json.dumps_entry "input" (provide_input response))
                     input_response]
     else inputs = []) ->
    remote_dialogue trailing rest ->
    remote_dialogue response
      (EvProvideInput response (provide_input response)
       :: inputs ++ EvReadResponse trailing :: rest).

(** The lines a batch of the local executor may put into its shell: the
    echo of a command of the batch, such a command with its end marker, or
    the answer the agent gave to output that was not empty, when the answer
    asks for input. *)
Definition typed {agent : Agent} (commands : list string) (line : string)
  : Prop :=
  (exists cmd, In cmd commands /\
               line = "echo " +s+ Shlex.quote cmd +s+ Py.LF) \/
  (exists cmd token, In cmd commands /\
                     line = cmd +s+ " && echo " +s+ "Completed " +s+ token) \/
  (exists text, Py.truthy text = true /\ line = provide_input text /\
                wants_input line = true).

(** The messages a batch of the container executor may send: a command of
    the batch, or such an answer of the agent, as JSON objects with the one
    key command or input. *)
Definition posted {agent : Agent} (commands : list string) (msg : string)
  : Prop :=
  (exists cmd, In cmd commands /\ msg = Json.dumps_entry "command" cmd) \/
  (exists text, Py.truthy text = true /\
                msg = Json.dumps_entry "input" (provide_input text) /\
                wants_input (provide_input text) = true).

(** One command's round trip in the local executor, in full: the echo, the
    command with its marker, the collection round by round, and the
    judgement of what the collection captured, which is the report. *)
Definition local_exchange {agent : Agent} (cmd : string) (seg : list event)
           (report : CommandReport) : Prop :=
  exists token body,
    seg = EvSendline ("echo " +s+ Shlex.quote cmd +s+ Py.LF)
          :: EvSendline (cmd +s+ " && echo " +s+ "Completed " +s+ token)
          :: body ++ [EvAnalyze (captured body)] /\
    local_dialogue body /\
    report = analyze_output (captured body).

(** One command's round trip in the container executor, in full: the
    message with the command, the peer's response to it, the collection from
    this response on, and the judgement of all that was received. *)
Definition remote_exchange {agent : Agent} (cmd : string) (seg : list event)
           (report : CommandReport) : Prop :=
  exists response body,
    seg = EvSendMessage (Json.dumps_entry "command" cmd) response
          :: body ++ [EvAnalyze (response +s+ replied body)] /\
    remote_dialogue response body /\
    report = analyze_output (response +s+ replied body).

(** The repair of one report: the request for the corrective commands, a
    shell spawned for them that greets, and their round trips in this
    shell, which give the reports of the batch. *)
Definition repair_batch {agent : Agent} (filepath : string)
           (r : CommandReport) (evs : list event)
           (batch : list CommandReport) : Prop :=
  exists banner segs,
    evs = EvFetchModify r :: EvSpawn :: EvRead (Data banner) :: concat segs /\
    Forall3 local_exchange (fetch_modify_file_commands filepath r) segs batch.

(** One goal's round in the trace of the graph and the record it leaves in
    the world [w']: the commands that the model's reply holds make their
    round trips on one connection; then every report of these that is not a
    success is repaired, in order; and the record names the goal and holds
    the reports of the round trips and, batch after batch, the reports of
    the repairs. *)
Definition goal_round {agent : Agent} {chat : Chat}
           (filepath : string) (w' : world) (goal : list (string * string))
           (evs : list event) (g : GoalReport) : Prop :=
  exists segs reports stretches mods,
    Forall3 remote_exchange (parse_commands (commands_reply goal))
            segs reports /\
    Forall3 (repair_batch filepath) (List.filter not_success reports)
            stretches mods /\
    evs = EvConnect :: concat segs ++ EvDisconnect :: concat stretches /\
    names g goal /\
    elements_at w' (command_reports g) = reports /\
    elements_at w' (modify_command_reports g) = concat mods.

(** ** Test doubles *)

Module Fixtures.

(** A shell that delivers the listed reads and is silent afterwards. *)
Definition script (l : list read_result) (n : nat) : read_result :=
  nth n l TIMEOUT.

(** A peer that sends the listed responses and nothing afterwards. *)
Definition replies (l : list string) (n : nat) : string :=
  nth n l EmptyString.

Definition token (n : nat) : string := "id" +s+ Py.chr (48 + n).

(** An agent that never sees a prompt, judges by the word error and
    proposes one fix. *)
Definition verdict (text : string) : CommandReport :=
  mkCommandReport text (Some (negb (Py.contains "error" text))) (Some text).

Definition calm : Agent :=
  {| provide_input := fun _ => "breba-noop";
     analyze_output := verdict;
     fetch_modify_file_commands := fun _ _ => ["sed -i s/a/b/ README.md"] |}.

(** An agent that answers every output with the input line y. *)
Definition eager : Agent :=
  {| provide_input := fun _ => "y";
     analyze_output := verdict;
     fetch_modify_file_commands := fun _ _ => [] |}.

(** An agent whose answer is the empty string. *)
Definition mute : Agent :=
  {| provide_input := fun _ => EmptyString;
     analyze_output := verdict;
     fetch_modify_file_commands := fun _ _ => [] |}.

(** Every shell prints a banner, then hello, then is silent. *)
Definition hello_host : Host :=
  {| shell := fun _ => script [Data "banner"; Data "hello"];
     peer := fun _ => replies ["partial"];
     uuid4 := token |}.

(** The marker arrives split over two reads. *)
Definition split_host : Host :=
  {| shell := fun _ => script [Data "Comple"; Data "ted id0"];
     peer := fun _ => replies [];
     uuid4 := token |}.

(** One command whose peer answers partial, then twice nothing. *)
Definition partial_host : Host :=
  {| shell := fun _ => script [];
     peer := fun _ => replies ["partial"; EmptyString; EmptyString];
     uuid4 := token |}.

(** A peer that reports an error for the command, and shells as in
    [hello_host]. *)
Definition failing_host : Host :=
  {| shell := fun _ => script [Data "banner"; Data "hello"];
     peer := fun _ => replies ["error: not found"];
     uuid4 := token |}.

(** A peer that replies to two inputs, with one trailing response in
    between. *)
Definition talking_host : Host :=
  {| shell := fun _ => script [];
     peer := fun _ => replies ["ok"; "more"; "fine"];
     uuid4 := token |}.

(** A peer whose reply to the first input is empty, with more to come. *)
Definition injected_host : Host :=
  {| shell := fun _ => script [];
     peer := fun _ => replies ["partial"; EmptyString; "more"; "fine"];
     uuid4 := token |}.

(** A peer that sends nothing and x in turn, for ever. *)
Definition echoing_host : Host :=
  {| shell := fun _ => script [];
     peer := fun _ n => if Nat.even n then "x" else EmptyString;
     uuid4 := token |}.

(** A shell that prints nothing at all. *)
Definition silent_host : Host :=
  {| shell := fun _ => script [];
     peer := fun _ => replies [];
     uuid4 := token |}.

(** The world with one shell spawned and nothing read from it. *)
Definition spawned_once : world := mkWorld 1 0 0 0 0 [] [].

(** The world after the shell's banner was read. *)
Definition greeted : world :=
  mkWorld 1 1 0 0 0 [] [EvSpawn; EvRead (Data "banner")].

(** The world with one connection open and one command sent on it. *)
Definition asked : world := mkWorld 0 0 1 1 0 [] [].

(** A goal with three commands the second of which failed, and its two
    list objects. *)
Definition three_reports : list CommandReport :=
  [mkCommandReport "pip install x" (Some true) None;
   mkCommandReport "x --version" (Some false) (Some "x: not found");
   mkCommandReport "echo done" (Some true) None].

Definition judged_goal : GoalReport := mkGoalReport "install" "install x" 0 1.



Definition judged_state : AgentState := mkAgentState [] [] [judged_goal].

Definition judged_world : world :=
  mkWorld 0 0 0 0 0 [three_reports; []] [].

(** A goal whose one command was identified and not run yet. *)
Definition new_state : AgentState :=
  mkAgentState [] [] [mkGoalReport "install" "install x" 0 1].

Definition new_world : world :=
  mkWorld 0 0 0 0 0 [[mkCommandReport "x --version" None None]; []] [].

(** A chat model that lists the same two commands for every goal. *)
Definition scribe : Chat :=
  {| invoke := fun _ => "pip install x, x --version";
     fetch_commands_instructions := "List the commands of the goal." |}.

(** Two goals as the model gives them, the second with a further key. *)
Definition install_goal : list (string * string) :=
  [("name", "install"); ("description", "install x")].

Definition check_goal : list (string * string) :=
  [("description", "check x"); ("name", "check"); ("priority", "low")].

(** A goal without a description. *)
Definition nameless_goal : list (string * string) := [("title", "install")].

(** A state with two goals and nothing done yet. *)
Definition two_goals : AgentState :=
  mkAgentState [] [install_goal; check_goal] [].

(** A state with eight goals. *)
Definition eight_goals : AgentState :=
  mkAgentState [] (repeat install_goal 8) [].

(** The records of the two goals after the cycle. *)
Definition two_records : list GoalReport :=
  [mkGoalReport "install" "install x" 2 3;
   mkGoalReport "check" "check x" 6 7].

(** An assistant that sees a prompt, confirms it and answers y. *)
Definition prompted : OpenAI.Assistants :=
  {| OpenAI.create_and_poll :=
       fun _ history _ =>
         Some (if (length history <? 5)%nat then "Yes" else "y") |}.

(** An assistant none of whose runs completes. *)
Definition stalled : OpenAI.Assistants :=
  {| OpenAI.create_and_poll := fun _ _ _ => None |}.

(** An agent that is new: no thread yet. *)
Definition fresh_assistant : OpenAI.assistant := OpenAI.mkAssistant [] None.

End Fixtures.

(** * Properties *)

Ltac frame :=
  unfold same_session in *; simpl in *;
  intuition (try congruence; try lia).

(** ** Strings *)

Lemma cat_empty_r (s : string) : s +s+ EmptyString = s.
Proof. induction s as [|c s IH]; simpl; [reflexivity | now f_equal]. Qed.

Lemma cat_assoc (s t u : string) : (s +s+ t) +s+ u = s +s+ (t +s+ u).
Proof. induction s as [|c s IH]; simpl; [reflexivity | now f_equal]. Qed.

Lemma join_app (l1 l2 : list string) :
  Py.join (l1 ++ l2) = Py.join l1 +s+ Py.join l2.
Proof.
  induction l1 as [|s l1 IH]; simpl; [reflexivity |].
  unfold Py.join in *. simpl. rewrite IH. now rewrite cat_assoc.
Qed.

Lemma captured_app (a b : list event) :
  captured (a ++ b) = captured a +s+ captured b.
Proof. unfold captured. now rewrite map_app, join_app. Qed.

Lemma replied_app (a b : list event) :
  replied (a ++ b) = replied a +s+ replied b.
Proof. unfold replied. now rewrite map_app, join_app. Qed.

Lemma truthy_empty (s : string) : Py.truthy s = false -> s = EmptyString.
Proof. destruct s; [reflexivity | discriminate]. Qed.

(** ** [collect_output] *)

Section CollectOutput.

Context {host : Host}.

Lemma after_reads_step (w : world) (n : nat) :
  after_reads
    (mkWorld (spawned w) (S (pos w)) (connected w) (peer_pos w) (uuids w)
             (store w) (trace w ++ [EvRead (shell (live w) (pos w))])) n
  = after_reads w (S n).
Proof.
  unfold after_reads, reads, live. simpl.
  rewrite Nat.add_succ_r, <- app_assoc. reflexivity.
Qed.

(** The loop runs until the first read that stops it, and returns what
    the reads up to there delivered. *)
Lemma collect_output_first_stop (marker : string) (k : nat) :
  forall (acc : string) (w : world) (fuel : nat),
    (forall i, i < k -> stops marker (shell (live w) (pos w + i)) = false) ->
    stops marker (shell (live w) (pos w + k)) = true ->
    k < fuel ->
    collect_output fuel marker acc w
    = (Returned (acc +s+ Py.join (map chunk (reads w (S k)))),
       after_reads w (S k)).
Proof.
  induction k as [|k IH]; intros acc w fuel Hbefore Hstop Hfuel;
    (destruct fuel as [|fuel]; [lia |]).
  - rewrite Nat.add_0_r in Hstop.
    cbn [collect_output]. unfold read_nonblocking, after_reads.
    change (reads w 1) with [shell (live w) (pos w)].
    destruct (shell (live w) (pos w)) as [s| |]; cbn in *.
    + rewrite Hstop, cat_empty_r. reflexivity.
    + rewrite cat_empty_r. reflexivity.
    + rewrite cat_empty_r. reflexivity.
  - pose proof (Hbefore 0 ltac:(lia)) as H0. rewrite Nat.add_0_r in H0.
    cbn [collect_output]. unfold read_nonblocking.
    destruct (shell (live w) (pos w)) as [s| |] eqn:Hr; simpl in H0;
      try discriminate.
    rewrite H0.
    set (w1 := mkWorld _ _ _ _ _ _ _).
    rewrite (IH (acc +s+ s) w1 fuel).
    + subst w1. rewrite <- Hr, after_reads_step. f_equal.
      rewrite cat_assoc. f_equal.
      unfold reads. cbn [reads_from map Py.join fold_right].
      rewrite Hr. reflexivity.
    + intros i Hi. subst w1. unfold live; simpl.
      rewrite <- Nat.add_succ_r. apply Hbefore. lia.
    + subst w1. unfold live; simpl. rewrite <- Nat.add_succ_r. exact Hstop.
    + lia.
Qed.

(** While no read stops it, the loop goes on reading: the code has no
    bound on the number of attempts. *)
Lemma collect_output_no_stop (marker : string) (n : nat) :
  forall (acc : string) (w : world),
    (forall i, i < n -> stops marker (shell (live w) (pos w + i)) = false) ->
    collect_output n marker acc w = (OutOfFuel, after_reads w n).
Proof.
  induction n as [|n IH]; intros acc w Hbefore.
  - simpl. unfold diverge, after_reads, reads. simpl.
    rewrite app_nil_r. destruct w; reflexivity.
  - pose proof (Hbefore 0 ltac:(lia)) as H0. rewrite Nat.add_0_r in H0.
    cbn [collect_output]. unfold read_nonblocking.
    destruct (shell (live w) (pos w)) as [s| |] eqn:Hr; simpl in H0;
      try discriminate.
    rewrite H0. set (w1 := mkWorld _ _ _ _ _ _ _).
    rewrite (IH (acc +s+ s) w1).
    + subst w1. rewrite <- Hr, after_reads_step. reflexivity.
    + intros i Hi. subst w1. unfold live; simpl.
      rewrite <- Nat.add_succ_r. apply Hbefore. lia.
Qed.

(** Among [d + 1] reads the last of which stops the loop there is a first
    one that does. *)
Lemma first_stop_exists (marker : string) (k p d : nat) :
  stops marker (shell k (p + d)) = true ->
  exists j, j <= d /\ stops marker (shell k (p + j)) = true /\
            forall i, i < j -> stops marker (shell k (p + i)) = false.
Proof.
  revert p. induction d as [|d IH]; intros p Hd.
  - exists 0. split; [lia |]. split; [exact Hd |]. intros i Hi; lia.
  - destruct (stops marker (shell k (p + 0))) eqn:H0.
    + exists 0. split; [lia |]. split; [exact H0 |]. intros i Hi; lia.
    + destruct (IH (S p)) as (j & Hj & Hstop & Hbefore).
      { rewrite Nat.add_succ_l, <- Nat.add_succ_r. exact Hd. }
      exists (S j). split; [lia |]. split.
      * rewrite Nat.add_succ_r, <- Nat.add_succ_l. exact Hstop.
      * intros [|i] Hi; [exact H0 |].
        rewrite Nat.add_succ_r, <- Nat.add_succ_l. apply Hbefore. lia.
Qed.

Lemma chunks_captured (l : list read_result) :
  Py.join (map chunk l) = captured (map EvRead l).
Proof. unfold captured. rewrite map_map. reflexivity. Qed.

Lemma reads_collecting (l : list read_result) :
  Forall collecting (map EvRead l).
Proof. induction l; simpl; constructor; simpl; auto. Qed.

End CollectOutput.

(** ** The collection loop of the local executor *)

Section LocalLoop.

Context {host : Host} {agent : Agent}.

Lemma get_input_text_run (text : string) (w : world) :
  get_input_text text w
  = (Returned (if wants_input (provide_input text)
               then Some (provide_input text) else None),
     log (EvProvideInput text (provide_input text)) w).
Proof.
  unfold get_input_text, bind, ask_input, wants_input.
  destruct (String.eqb (provide_input text) "breba-noop"); simpl;
    [reflexivity |].
  destruct (Py.truthy (provide_input text)); reflexivity.
Qed.

Lemma wants_input_truthy (a : string) :
  wants_input a = true -> Py.truthy a = true.
Proof. unfold wants_input. intros H. apply andb_true_iff in H. tauto. Qed.

(** One round of the loop, read off the code. *)
Lemma collect_loop_round (fuel : nat) (marker acc new : string)
      (w w1 : world) :
  collect_output fuel marker EmptyString w = (Returned new, w1) ->
  collect_loop (S fuel) marker acc w
  = if Py.truthy new then
      let answer := provide_input new in
      let w2 := log (EvProvideInput new answer) w1 in
      if wants_input answer
      then collect_loop fuel marker
                        ((acc +s+ new) +s+ (answer +s+ Py.linesep))
                        (log (EvSendline answer) w2)
      else collect_loop fuel marker (acc +s+ new) w2
    else (Returned (acc +s+ new), w1).
Proof.
  intros Hco. cbn [collect_loop]. unfold bind at 1. rewrite Hco.
  destruct (Py.truthy new); [| reflexivity].
  unfold bind at 1. rewrite get_input_text_run.
  destruct (wants_input (provide_input new)) eqn:Hwant; cbn [truthy_opt].
  - rewrite (wants_input_truthy _ Hwant). reflexivity.
  - reflexivity.
Qed.

(** When the shell pauses at [m] and [m + 1], the loop of a command that
    has read up to before [m + 2] ends, and its result is what the reads
    and the input lines of its stretch of the trace amount to. *)
Lemma collect_loop_converges (marker : string) (m : nat) :
  forall (d : nat) (acc : string) (w : world),
    silent (shell (live w) m) = true ->
    silent (shell (live w) (S m)) = true ->
    pos w + d = S m ->
    exists f0 evs w',
      (forall fuel, f0 <= fuel ->
         collect_loop fuel marker acc w
         = (Returned (acc +s+ captured evs), w')) /\
      trace w' = trace w ++ evs /\ Forall collecting evs /\
      same_session w w' /\ uuids w' = uuids w.
Proof.
  induction d as [d IH] using lt_wf_ind. intros acc w Hm HSm Hd.
  assert (Hsilent_stops : forall r, silent r = true -> stops marker r = true)
    by (intros [| |]; simpl; congruence).
  destruct d as [|d].
  - (* the next read is silent: the collector returns nothing *)
    rewrite Nat.add_0_r in Hd.
    assert (Hco : forall fuel, 0 < fuel ->
              collect_output fuel marker EmptyString w
              = (Returned EmptyString, after_reads w 1)).
    { intros fuel Hfuel.
      rewrite (collect_output_first_stop marker 0 EmptyString w fuel);
        [| intros i Hi; lia | rewrite Nat.add_0_r, Hd; auto | lia].
      unfold reads. cbn [reads_from map Py.join fold_right].
      rewrite Hd. destruct (shell (live w) (S m)); [discriminate | |];
        reflexivity. }
    exists 2, (map EvRead (reads w 1)), (after_reads w 1).
    split; [| split; [reflexivity | split; [apply reads_collecting |]]].
    + intros [|fuel] Hfuel; [lia |].
      rewrite (collect_loop_round _ _ _ _ _ _ (Hco fuel ltac:(lia))).
      cbn [Py.truthy]. f_equal. f_equal.
      unfold reads. cbn [reads_from map captured Py.join fold_right capture].
      rewrite Hd. destruct (shell (live w) (S m)); [discriminate | |];
        reflexivity.
    + frame.
  - (* a stop at or before [m] *)
    destruct (first_stop_exists marker (live w) (pos w) d)
      as (j & Hj & Hstop & Hbefore).
    { replace (pos w + d) with m by lia. auto. }
    set (new := Py.join (map chunk (reads w (S j)))).
    set (w1 := after_reads w (S j)).
    assert (Hco : forall fuel, j < fuel ->
              collect_output fuel marker EmptyString w = (Returned new, w1)).
    { intros fuel Hfuel.
      now rewrite (collect_output_first_stop marker j EmptyString w fuel). }
    destruct (Py.truthy new) eqn:Hnew.
    + set (answer := provide_input new).
      set (w2 := log (EvProvideInput new answer) w1).
      destruct (wants_input answer) eqn:Hwant.
      * destruct (IH (d - j) ltac:(lia)
                     ((acc +s+ new) +s+ (answer +s+ Py.linesep))
                     (log (EvSendline answer) w2))
          as (f0 & evs & w' & Hrun & Htrace & Hcoll & Hframe & Huuids);
          [exact Hm | exact HSm | subst w2 w1; simpl; lia |].
        exists (S (Nat.max (S j) f0)),
               (map EvRead (reads w (S j))
                ++ EvProvideInput new answer :: EvSendline answer :: evs), w'.
        split; [| split; [| split; [| split]]].
        -- intros [|fuel] Hfuel; [lia |].
           rewrite (collect_loop_round _ _ _ _ _ _ (Hco fuel ltac:(lia))).
           rewrite Hnew. cbn zeta. fold answer. rewrite Hwant.
           fold w2. rewrite Hrun by lia. f_equal. f_equal.
           rewrite captured_app, <- chunks_captured. fold new.
           change (captured (EvProvideInput new answer
                             :: EvSendline answer :: evs))
             with ((answer +s+ Py.linesep) +s+ captured evs).
           now rewrite !cat_assoc.
        -- rewrite Htrace. subst w2 w1. simpl.
           now rewrite <- !app_assoc.
        -- apply Forall_app. split; [apply reads_collecting |].
           constructor; [exact I |]. constructor; [exact I | exact Hcoll].
        -- subst w2 w1. frame.
        -- rewrite Huuids. reflexivity.
      * destruct (IH (d - j) ltac:(lia) (acc +s+ new) w2)
          as (f0 & evs & w' & Hrun & Htrace & Hcoll & Hframe & Huuids);
          [exact Hm | exact HSm | subst w2 w1; simpl; lia |].
        exists (S (Nat.max (S j) f0)),
               (map EvRead (reads w (S j))
                ++ EvProvideInput new answer :: evs), w'.
        split; [| split; [| split; [| split]]].
        -- intros [|fuel] Hfuel; [lia |].
           rewrite (collect_loop_round _ _ _ _ _ _ (Hco fuel ltac:(lia))).
           rewrite Hnew. cbn zeta. fold answer. rewrite Hwant.
           fold w2. rewrite Hrun by lia. f_equal. f_equal.
           rewrite captured_app, <- chunks_captured. fold new.
           change (captured (EvProvideInput new answer :: evs))
             with (captured evs).
           now rewrite !cat_assoc.
        -- rewrite Htrace. subst w2 w1. simpl.
           now rewrite <- !app_assoc.
        -- apply Forall_app. split; [apply reads_collecting |].
           constructor; [exact I | exact Hcoll].
        -- subst w2 w1. frame.
        -- rewrite Huuids. reflexivity.
    + exists (S (S j)), (map EvRead (reads w (S j))), w1.
      split; [| split; [reflexivity | split; [apply reads_collecting |]]].
      * intros [|fuel] Hfuel; [lia |].
        rewrite (collect_loop_round _ _ _ _ _ _ (Hco fuel ltac:(lia))).
        rewrite Hnew. now rewrite <- chunks_captured.
      * subst w1. frame.
Qed.

End LocalLoop.

(** ** The local executor *)

Section LocalExecutor.

Context {host : Host} {agent : Agent}.

(** One command: the two submissions, the collection, the judgement. *)
Lemma run_command_converges (cmd : string) (w : world) :
  shell_pauses (live w) ->
  exists f0 seg report w',
    (forall fuel, f0 <= fuel ->
       run_command fuel cmd w = (Returned report, w')) /\
    trace w' = trace w ++ seg /\
    local_round_trip cmd seg report /\
    same_session w w' /\ uuids w' = S (uuids w).
Proof.
  intros Hpauses.
  destruct (Hpauses (pos w)) as (m & Hle & Hm & HSm).
  set (marker := "Completed " +s+ uuid4 (uuids w)).
  set (w3 := log (EvSendline (cmd +s+ " && echo " +s+ marker))
               (mkWorld (spawned w) (pos w) (connected w) (peer_pos w)
                  (S (uuids w)) (store w)
                  (trace w ++ [EvSendline ("echo " +s+ Shlex.quote cmd
                                           +s+ Py.LF)]))).
  destruct (collect_loop_converges marker m (S m - pos w) EmptyString w3)
    as (f0 & body & w4 & Hrun & Htrace & Hcoll & Hframe & Huuids);
    [exact Hm | exact HSm | subst w3; simpl; lia |].
  exists f0, (EvSendline ("echo " +s+ Shlex.quote cmd +s+ Py.LF)
              :: EvSendline (cmd +s+ " && echo " +s+ marker)
              :: body ++ [EvAnalyze (captured body)]),
         (analyze_output (captured body)),
         (log (EvAnalyze (captured body)) w4).
  split; [| split; [| split; [| split]]].
  - intros fuel Hfuel. unfold run_command, bind, sendline, uuid4_str, judge.
    cbn beta iota zeta. fold marker. fold w3. rewrite Hrun by exact Hfuel.
    reflexivity.
  - cbn [log trace]. rewrite Htrace. subst w3. simpl.
    now rewrite <- !app_assoc.
  - exists (uuid4 (uuids w)), body. auto.
  - subst w3. frame.
  - subst w3. frame.
Qed.

Lemma same_session_live (w w' : world) :
  same_session w w' -> live w' = live w.
Proof. unfold live. intros (H & _). now rewrite H. Qed.

(** The batch loop: one round trip after the other. *)
Lemma for_commands_converges (commands : list string) :
  forall (report : list CommandReport) (w : world),
    shell_pauses (live w) ->
    exists f0 segs reports w',
      (forall fuel, f0 <= fuel ->
         for_commands fuel commands report w
         = (Returned (report ++ reports), w')) /\
      Forall3 local_round_trip commands segs reports /\
      trace w' = trace w ++ concat segs /\
      same_session w w' /\ uuids w' = length commands + uuids w.
Proof.
  induction commands as [|cmd commands IH]; intros report w Hpauses.
  - exists 0, [], [], w. rewrite app_nil_r.
    split; [reflexivity |]. split; [constructor |].
    split; [now rewrite app_nil_r |]. frame.
  - destruct (run_command_converges cmd w Hpauses)
      as (f1 & seg & r & w1 & Hrun1 & Htrace1 & Htrip & Hframe1 & Huuids1).
    destruct (IH (report ++ [r]) w1)
      as (f2 & segs & reports & w2 & Hrun2 & Htrips & Htrace2 & Hframe2
          & Huuids2).
    { now rewrite (same_session_live _ _ Hframe1). }
    exists (Nat.max f1 f2), (seg :: segs), (r :: reports), w2.
    split; [| split; [| split; [| split]]].
    + intros fuel Hfuel. cbn [for_commands]. unfold bind at 1.
      rewrite Hrun1 by lia. rewrite Hrun2 by lia.
      now rewrite <- app_assoc.
    + now constructor.
    + rewrite Htrace2, Htrace1. simpl. now rewrite <- app_assoc.
    + frame.
    + rewrite Huuids2, Huuids1. simpl. lia.
Qed.

(** The whole batch, when the shell greets and pauses. *)
Lemma local_execute_converges (commands : list string) (banner : string)
      (w : world) :
  shell (spawned w) 0 = Data banner ->
  shell_pauses (spawned w) ->
  exists f0 segs reports w',
    (forall fuel, f0 <= fuel ->
       local_execute_commands_sync fuel commands w = (Returned reports, w'))
    /\ Forall3 local_round_trip commands segs reports
    /\ trace w' = trace w ++ EvSpawn :: EvRead (Data banner) :: concat segs
    /\ spawned w' = S (spawned w) /\ connected w' = connected w
    /\ peer_pos w' = peer_pos w /\ store w' = store w.
Proof.
  intros Hbanner Hpauses.
  set (w1 := mkWorld (S (spawned w)) 1 (connected w) (peer_pos w) (uuids w)
               (store w) ((trace w ++ [EvSpawn]) ++ [EvRead (Data banner)])).
  destruct (for_commands_converges commands [] w1 Hpauses)
    as (f0 & segs & reports & w' & Hrun & Htrips & Htrace & Hframe & _).
  exists f0, segs, reports, w'.
  split; [| split; [exact Htrips | split]].
  - intros fuel Hfuel.
    unfold local_execute_commands_sync, bind, spawn, read_nonblocking.
    cbn [live spawned pos pred connected peer_pos uuids store trace].
    rewrite Hbanner. fold w1. now rewrite Hrun.
  - rewrite Htrace. subst w1. simpl. now rewrite <- !app_assoc.
  - subst w1. frame.
Qed.

End LocalExecutor.

(** ** The container executor *)

Ltac conn :=
  unfold same_connection, received, log in *; simpl in *;
  intuition (try congruence; try lia).

Section ContainerExecutor.

Context {host : Host} {agent : Agent}.

Lemma get_input_message_run (text : string) (w : world) :
  get_input_message text w
  = (Returned (if wants_input (provide_input text)
               then Some (Json.dumps_entry "input" (provide_input text))
               else None),
     log (EvProvideInput text (provide_input text)) w).
Proof.
  unfold get_input_message, bind, ask_input, wants_input.
  destruct (String.eqb (provide_input text) "breba-noop"); simpl;
    [reflexivity |].
  destruct (Py.truthy (provide_input text)); reflexivity.
Qed.

(** One level of the recursion, read off the code. *)
Lemma collect_response_step (fuel : nat) (response : string) (w : world) :
  Py.truthy response = true ->
  collect_response (S fuel) response w
  = let answer := provide_input response in
    let w1 := log (EvProvideInput response answer) w in
    if wants_input answer then
      let w2 := received (EvSendMessage (Json.dumps_entry "input" answer)
                                        (next_response w1)) w1 in
      glue response (next_response w1)
           (collect_response fuel (next_response w2)
              (received (EvReadResponse (next_response w2)) w2))
    else
      glue response EmptyString
           (collect_response fuel (next_response w1)
              (received (EvReadResponse (next_response w1)) w1)).
Proof.
  intros Htruthy. cbn [collect_response]. rewrite Htruthy.
  unfold bind at 1. rewrite get_input_message_run. cbn zeta.
  destruct (wants_input (provide_input response)); cbn [truthy_opt text_of].
  - unfold bind, send_message, read_response, glue, ret. cbn [Py.truthy Json.dumps_entry Py.cat append].
    destruct (collect_response fuel _ _) as [[a|e|] w4]; reflexivity.
  - unfold bind, send_message, read_response, glue, ret.
    destruct (collect_response fuel _ _) as [[a|e|] w4]; reflexivity.
Qed.

Lemma collect_response_empty (fuel : nat) (w : world) :
  collect_response fuel EmptyString w = (Returned EmptyString, w).
Proof. destruct fuel; reflexivity. Qed.

(** When the peer pauses at [m] and [m + 1], the recursion that has
    consumed the responses before [m] ends, and it returns the response
    it started from followed by every response it consumed. *)
Lemma collect_response_converges (m : nat) :
  forall (d : nat) (response : string) (w : world),
    peer (pred (connected w)) m = EmptyString ->
    peer (pred (connected w)) (S m) = EmptyString ->
    peer_pos w + d = m ->
    exists f0 evs w',
      (forall fuel, f0 <= fuel ->
         collect_response fuel response w
         = (Returned (response +s+ replied evs), w')) /\
      trace w' = trace w ++ evs /\ Forall draining evs /\
      same_connection w w'.
Proof.
  induction d as [d IH] using lt_wf_ind. intros response w Hm HSm Hd.
  destruct (Py.truthy response) eqn:Htruthy.
  2:{ apply truthy_empty in Htruthy. subst response.
      exists 0, [], w. split; [intros; apply collect_response_empty |].
      split; [now rewrite app_nil_r |]. split; [constructor | conn]. }
  set (answer := provide_input response).
  set (w1 := log (EvProvideInput response answer) w).
  (* the recursive call on the trailing response read at [w2] *)
  assert (Hrec : forall (w2 : world),
             connected w2 = connected w ->
             peer_pos w <= peer_pos w2 <= S (peer_pos w) ->
             exists f0 evs w',
               (forall fuel, f0 <= fuel ->
                  collect_response fuel (next_response w2)
                    (received (EvReadResponse (next_response w2)) w2)
                  = (Returned (next_response w2 +s+ replied evs), w')) /\
               trace w' = trace (received
                                   (EvReadResponse (next_response w2)) w2)
                          ++ evs /\
               Forall draining evs /\
               same_connection
                 (received (EvReadResponse (next_response w2)) w2) w').
  { intros w2 Hconn Hpos.
    destruct (Py.truthy (next_response w2)) eqn:Ht.
    - assert (peer_pos w2 < m).
      { unfold next_response in Ht. rewrite Hconn in Ht.
        destruct (Nat.eq_dec (peer_pos w2) m) as [E|E];
          [rewrite E, Hm in Ht; discriminate |].
        destruct (Nat.eq_dec (peer_pos w2) (S m)) as [E'|E'];
          [rewrite E', HSm in Ht; discriminate |].
        lia. }
      apply (IH (m - S (peer_pos w2)) ltac:(lia)).
      + simpl. now rewrite Hconn.
      + simpl. now rewrite Hconn.
      + simpl. lia.
    - apply truthy_empty in Ht. rewrite Ht.
      exists 0, [], (received (EvReadResponse EmptyString) w2).
      split; [intros; apply collect_response_empty |].
      split; [now rewrite app_nil_r |]. split; [constructor | conn]. }
  destruct (wants_input answer) eqn:Hwant.
  - set (w2 := received (EvSendMessage (Json.dumps_entry "input" answer)
                                       (next_response w1)) w1).
    destruct (Hrec w2) as (f0 & evs & w' & Hrun & Htrace & Hdrain & Hframe);
      [reflexivity | subst w2 w1; simpl; lia |].
    exists (S f0),
      (EvProvideInput response answer
       :: EvSendMessage (Json.dumps_entry "input" answer) (next_response w1)
       :: EvReadResponse (next_response w2) :: evs), w'.
    split; [| split; [| split]].
    + intros [|fuel] Hfuel; [lia |].
      rewrite collect_response_step by exact Htruthy. cbn zeta.
      fold answer. fold w1. rewrite Hwant. fold w2.
      rewrite Hrun by lia. unfold glue. f_equal. f_equal.
      change (replied (EvProvideInput response answer
                :: EvSendMessage (Json.dumps_entry "input" answer)
                     (next_response w1)
                :: EvReadResponse (next_response w2) :: evs))
        with (next_response w1 +s+ next_response w2 +s+ replied evs).
      now rewrite !cat_assoc.
    + rewrite Htrace. subst w2 w1. simpl. now rewrite <- !app_assoc.
    + repeat (constructor; [exact I |]). exact Hdrain.
    + subst w2 w1. conn.
  - destruct (Hrec w1) as (f0 & evs & w' & Hrun & Htrace & Hdrain & Hframe);
      [reflexivity | subst w1; simpl; lia |].
    exists (S f0),
      (EvProvideInput response answer
       :: EvReadResponse (next_response w1) :: evs), w'.
    split; [| split; [| split]].
    + intros [|fuel] Hfuel; [lia |].
      rewrite collect_response_step by exact Htruthy. cbn zeta.
      fold answer. fold w1. rewrite Hwant.
      rewrite Hrun by lia. unfold glue. f_equal. f_equal.
      change (replied (EvProvideInput response answer
                :: EvReadResponse (next_response w1) :: evs))
        with (next_response w1 +s+ replied evs).
      now rewrite cat_empty_r.
    + rewrite Htrace. subst w1. simpl. now rewrite <- !app_assoc.
    + repeat (constructor; [exact I |]). exact Hdrain.
    + subst w1. conn.
Qed.

(** The batch loop over one connection. *)
Lemma for_remote_commands_converges (commands : list string) :
  forall (report : list CommandReport) (w : world),
    peer_pauses (pred (connected w)) ->
    exists f0 segs reports w',
      (forall fuel, f0 <= fuel ->
         for_remote_commands fuel commands report w
         = (Returned (report ++ reports), w')) /\
      Forall3 remote_round_trip commands segs reports /\
      trace w' = trace w ++ concat segs /\
      same_connection w w'.
Proof.
  induction commands as [|cmd commands IH]; intros report w Hpauses.
  - exists 0, [], [], w. rewrite app_nil_r.
    split; [reflexivity |]. split; [constructor |].
    split; [now rewrite app_nil_r | conn].
  - set (msg := Json.dumps_entry "command" cmd).
    set (w1 := received (EvSendMessage msg (next_response w)) w).
    destruct (Hpauses (peer_pos w1)) as (m & Hle & Hm & HSm).
    destruct (collect_response_converges m (m - peer_pos w1)
                (next_response w) w1)
      as (f1 & body & w2 & Hrun1 & Htrace1 & Hdrain & Hframe1);
      [exact Hm | exact HSm | lia |].
    set (out := next_response w +s+ replied body) in *.
    destruct (IH (report ++ [analyze_output out]) (log (EvAnalyze out) w2))
      as (f2 & segs & reports & w3 & Hrun2 & Htrips & Htrace2 & Hframe2).
    { simpl. destruct Hframe1 as (_ & _ & Hc & _). rewrite Hc. exact Hpauses. }
    exists (Nat.max f1 f2),
      ((EvSendMessage msg (next_response w) :: body ++ [EvAnalyze out])
       :: segs),
      (analyze_output out :: reports), w3.
    split; [| split; [| split]].
    + intros fuel Hfuel. cbn [for_remote_commands].
      unfold bind at 1. unfold send_message at 1. fold msg. fold w1.
      unfold bind at 1. rewrite Hrun1 by lia. fold out.
      unfold bind at 1. unfold judge at 1.
      rewrite Hrun2 by lia. now rewrite <- app_assoc.
    + constructor; [| exact Htrips].
      exists (next_response w), body. auto.
    + rewrite Htrace2. cbn [log trace]. rewrite Htrace1. subst w1. simpl.
      now rewrite <- !app_assoc.
    + subst w1. conn.
Qed.

(** The whole batch on a fresh connection whose peer pauses. *)
Lemma container_execute_converges (commands : list string) (w : world) :
  peer_pauses (connected w) ->
  exists f0 segs reports w',
    (forall fuel, f0 <= fuel ->
       container_execute_commands_sync fuel commands w
       = (Returned reports, w')) /\
    Forall3 remote_round_trip commands segs reports /\
    trace w' = trace w ++ EvConnect :: concat segs ++ [EvDisconnect] /\
    spawned w' = spawned w /\ pos w' = pos w /\ store w' = store w /\
    connected w' = S (connected w).
Proof.
  intros Hpauses.
  set (w1 := mkWorld (spawned w) (pos w) (S (connected w)) 0 (uuids w)
               (store w) (trace w ++ [EvConnect])).
  destruct (for_remote_commands_converges commands [] w1 Hpauses)
    as (f0 & segs & reports & w2 & Hrun & Htrips & Htrace & Hframe).
  exists f0, segs, reports, (log EvDisconnect w2).
  split; [| split; [exact Htrips | split]].
  - intros fuel Hfuel.
    unfold container_execute_commands_sync, with_client, bind, connect.
    fold w1. rewrite Hrun by exact Hfuel. reflexivity.
  - cbn [log trace]. rewrite Htrace. subst w1. simpl.
    now rewrite <- !app_assoc.
  - subst w1. conn.
Qed.

End ContainerExecutor.

(** ** The recursion of [collect_response] *)

Section Recursion.

Context {host : Host} {agent : Agent}.

Lemma trailing_at_le (response : string) (p : nat) :
  p <= trailing_at response p <= S p.
Proof. unfold trailing_at. destruct (wants_input _); lia. Qed.

Lemma trailing_ge (k n : nat) :
  forall response p, p <= trailing k n response p.
Proof.
  induction n as [|n IH]; intros response p; cbn [trailing].
  - apply trailing_at_le.
  - pose proof (trailing_at_le response p).
    pose proof (IH (peer k (trailing_at response p))
                   (S (trailing_at response p))). lia.
Qed.

Lemma responses_from_app (k a b : nat) :
  forall p,
    responses_from k p (a + b)
    = responses_from k p a ++ responses_from k (a + p) b.
Proof.
  induction a as [|a IH]; intros p; simpl; [reflexivity |].
  now rewrite IH, Nat.add_succ_r.
Qed.

Lemma not_empty_truthy (s : string) : s <> EmptyString -> Py.truthy s = true.
Proof. destruct s; [congruence | reflexivity]. Qed.

(** The recursion ends at the first trailing response that is empty, with
    the response it started from followed by all responses before that
    one. *)
Lemma collect_response_first_empty (n : nat) :
  forall (response : string) (w : world),
    let k := pred (connected w) in
    let p := peer_pos w in
    let q := trailing k n response p in
    Py.truthy response = true ->
    (forall i, i < n -> peer k (trailing k i response p) <> EmptyString) ->
    peer k q = EmptyString ->
    exists w',
      (forall fuel, n < fuel ->
         collect_response fuel response w
         = (Returned (response +s+ Py.join (responses_from k p (q - p))),
            w')) /\
      peer_pos w' = S q /\ same_connection w w'.
Proof.
  induction n as [|n IH]; intros response w k p q Htruthy Hbefore Hq.
  - (* the first trailing response is empty *)
    subst q. cbn [trailing] in *. unfold trailing_at in *.
    set (answer := provide_input response) in *.
    set (w1 := log (EvProvideInput response answer) w).
    destruct (wants_input answer) eqn:Hwant.
    + set (w2 := received (EvSendMessage (Json.dumps_entry "input" answer)
                                         (next_response w1)) w1).
      exists (received (EvReadResponse (next_response w2)) w2).
      split; [| subst w2 w1; conn].
      intros [|fuel] Hfuel; [lia |].
      rewrite collect_response_step by exact Htruthy. cbn zeta.
      fold answer. fold w1. rewrite Hwant. fold w2.
      assert (E : next_response w2 = EmptyString) by exact Hq.
      rewrite E, collect_response_empty. unfold glue.
      replace (S p - p) with 1 by lia.
      cbn [responses_from Py.join fold_right].
      change (next_response w1) with (peer k p).
      now rewrite !cat_empty_r.
    + exists (received (EvReadResponse (next_response w1)) w1).
      split; [| subst w1; conn].
      intros [|fuel] Hfuel; [lia |].
      rewrite collect_response_step by exact Htruthy. cbn zeta.
      fold answer. fold w1. rewrite Hwant.
      assert (E : next_response w1 = EmptyString) by exact Hq.
      rewrite E, collect_response_empty. unfold glue.
      replace (p - p) with 0 by lia.
      cbn [responses_from Py.join fold_right].
      now rewrite !cat_empty_r.
  - (* the first trailing response is not empty: one level down *)
    pose proof (Hbefore 0 ltac:(lia)) as Hfirst. cbn [trailing] in Hfirst.
    assert (Hbefore' : forall i, i < n ->
              peer k (trailing k i (peer k (trailing_at response p))
                               (S (trailing_at response p)))
              <> EmptyString).
    { intros i Hi. apply (Hbefore (S i)). lia. }
    subst q. cbn [trailing] in *.
    pose proof (trailing_ge k n (peer k (trailing_at response p))
                            (S (trailing_at response p))) as Hge.
    unfold trailing_at in *.
    set (answer := provide_input response) in *.
    set (w1 := log (EvProvideInput response answer) w).
    destruct (wants_input answer) eqn:Hwant.
    + set (w2 := received (EvSendMessage (Json.dumps_entry "input" answer)
                                         (next_response w1)) w1).
      set (w3 := received (EvReadResponse (next_response w2)) w2).
      destruct (IH (peer k (S p)) w3 (not_empty_truthy _ Hfirst) Hbefore' Hq)
        as (w' & Hrun & Hpos & Hframe).
      exists w'. split; [| split; [exact Hpos | subst w3 w2 w1; conn]].
      intros [|fuel] Hfuel; [lia |].
      rewrite collect_response_step by exact Htruthy. cbn zeta.
      fold answer. fold w1. rewrite Hwant. fold w2. fold w3.
      change (next_response w2) with (peer k (S p)).
      rewrite Hrun by lia. unfold glue. f_equal. f_equal.
      change (next_response w1) with (peer k p).
      change (pred (connected w3)) with k.
      change (peer_pos w3) with (S (S p)).
      set (q := trailing k n (peer k (S p)) (S (S p))) in *.
      replace (q - p) with (2 + (q - S (S p))) by lia.
      rewrite responses_from_app. cbn [responses_from Nat.add app].
      cbn [Py.join fold_right]. now rewrite !cat_assoc.
    + set (w3 := received (EvReadResponse (next_response w1)) w1).
      destruct (IH (peer k p) w3 (not_empty_truthy _ Hfirst) Hbefore' Hq)
        as (w' & Hrun & Hpos & Hframe).
      exists w'. split; [| split; [exact Hpos | subst w3 w1; conn]].
      intros [|fuel] Hfuel; [lia |].
      rewrite collect_response_step by exact Htruthy. cbn zeta.
      fold answer. fold w1. rewrite Hwant. fold w3.
      change (next_response w1) with (peer k p).
      rewrite Hrun by lia. unfold glue. f_equal. f_equal.
      change (pred (connected w3)) with k.
      change (peer_pos w3) with (S p).
      set (q := trailing k n (peer k p) (S p)) in *.
      replace (q - p) with (1 + (q - S p)) by lia.
      rewrite responses_from_app. cbn [responses_from Nat.add app].
      cbn [Py.join fold_right]. rewrite cat_empty_r. reflexivity.
Qed.

End Recursion.

(** ** The repair loop *)

Section RepairLoop.

Context {host : Host} {agent : Agent}.

Variable filepath : string.

Lemma requests_app (a b : list event) :
  requests (a ++ b) = requests a ++ requests b.
Proof. unfold requests. now rewrite map_app, concat_app. Qed.

Lemma collecting_no_request (evs : list event) :
  Forall collecting evs -> requests evs = [].
Proof.
  induction 1 as [|e evs He _ IH]; [reflexivity |].
  change (requests (e :: evs)) with (request e ++ requests evs).
  rewrite IH. destruct e; simpl in *; tauto.
Qed.

Lemma round_trips_no_request (commands : list string)
      (segs : list (list event)) (reports : list CommandReport) :
  Forall3 local_round_trip commands segs reports ->
  requests (concat segs) = [] /\ length reports = length commands.
Proof.
  induction 1 as [|cmd seg r commands segs reports Htrip _ IH];
    [split; reflexivity |].
  destruct IH as [IHreq IHlen].
  destruct Htrip as (token & body & -> & Hcoll & _).
  split; [| simpl; now rewrite IHlen].
  cbn [concat]. rewrite requests_app, IHreq, app_nil_r.
  change (requests (?a :: ?b :: ?l)) with (requests l).
  rewrite requests_app, (collecting_no_request _ Hcoll). reflexivity.
Qed.

Lemma replace_same (g : GoalReport) : replace g = g.
Proof. destruct g; reflexivity. Qed.

Lemma map_replace_same (l : list GoalReport) : map replace l = l.
Proof.
  induction l as [|g l IH]; simpl; [reflexivity |].
  now rewrite replace_same, IH.
Qed.

(** The loop over the reports that are left, [rest], from index [i]. *)
Lemma repair_loop_converges (g : GoalReport) (rest : list CommandReport) :
  forall (i : nat) (w : world),
    command_reports g <> modify_command_reports g ->
    modify_command_reports g < length (store w) ->
    drop i (elements_at w (command_reports g)) = rest ->
    shells_behave (spawned w) ->
    exists f0 mods w',
      (forall fuel, f0 <= fuel ->
         repair_loop filepath fuel g i w = (Returned g, w')) /\
      requests (trace w')
      = requests (trace w) ++ List.filter not_success rest /\
      Forall2 (fun r reports =>
                 length reports
                 = length (fetch_modify_file_commands filepath r))
              (List.filter not_success rest) mods /\
      elements_at w' (modify_command_reports g)
      = elements_at w (modify_command_reports g) ++ concat mods /\
      spawned w' = length mods + spawned w /\
      connected w' = connected w.
Proof.
  induction rest as [|r rest IH]; intros i w Hne Hvalid Hdrop Hshells.
  - exists 1, [], w. split; [| split; [| split; [| split]]].
    + intros [|fuel] Hfuel; [lia |]. cbn [repair_loop].
      unfold bind, deref. apply drop_nil_inv in Hdrop.
      now rewrite (lookup_ge_None_2 _ _ Hdrop).
    + simpl. now rewrite app_nil_r.
    + constructor.
    + simpl. now rewrite app_nil_r.
    + split; reflexivity.
  - assert (Hi : elements_at w (command_reports g) !! i = Some r).
    { pose proof (lookup_drop (elements_at w (command_reports g)) i 0) as E.
      rewrite Hdrop, Nat.add_0_r in E. now rewrite <- E. }
    assert (Hrest : drop (S i) (elements_at w (command_reports g)) = rest).
    { rewrite (drop_S _ _ _ Hi) in Hdrop. congruence. }
    destruct (not_success r) eqn:Hfail.
    + (* a failed command: fetch, execute, extend *)
      set (cmds := fetch_modify_file_commands filepath r).
      set (w1 := log (EvFetchModify r) w).
      destruct (Hshells (spawned w) ltac:(lia)) as ((banner & Hbanner) & Hp).
      destruct (local_execute_converges cmds banner w1 Hbanner Hp)
        as (f1 & segs & reports & w2 & Hrun1 & Htrips & Htrace1 & Hsp
            & Hco & _ & Hstore).
      destruct (round_trips_no_request _ _ _ Htrips) as [Hreq Hlen].
      set (w3 := mkWorld (spawned w2) (pos w2) (connected w2) (peer_pos w2)
                   (uuids w2)
                   (<[modify_command_reports g :=
                        elements_at w2 (modify_command_reports g)
                        ++ reports]> (store w2)) (trace w2)).
      destruct (IH (S i) w3) as (f2 & mods & w' & Hrun2 & Hreqs & Hlens
                                 & Hmods & Hsp' & Hco').
      * exact Hne.
      * subst w3. simpl. rewrite length_insert, Hstore. exact Hvalid.
      * subst w3. unfold elements_at in *. simpl.
        rewrite list_lookup_insert_ne by congruence.
        rewrite Hstore. exact Hrest.
      * intros k Hk. apply Hshells. subst w3. simpl in Hk.
        rewrite Hsp in Hk. simpl in Hk. lia.
      * exists (S (Nat.max f1 f2)), (reports :: mods), w'.
        split; [| split; [| split; [| split]]].
        -- intros [|fuel] Hfuel; [lia |]. cbn [repair_loop].
           unfold bind at 1. unfold deref at 1. rewrite Hi, Hfail.
           unfold bind at 1. unfold fetch_modify at 1. fold cmds. fold w1.
           unfold bind at 1. rewrite Hrun1 by lia.
           unfold bind at 1. unfold extend at 1. fold w3.
           apply Hrun2. lia.
        -- rewrite Hreqs. subst w3. cbn [trace]. rewrite Htrace1.
           subst w1. cbn [log trace].
           rewrite <- app_assoc, !requests_app.
           change (requests ([EvFetchModify r] ++ ?l)) with (r :: requests l).
           change (requests (EvSpawn :: EvRead (Data banner) :: ?l))
             with (requests l).
           rewrite Hreq. cbn [List.filter]. rewrite Hfail.
           now rewrite <- app_assoc.
        -- cbn [List.filter]. rewrite Hfail. constructor; [| exact Hlens].
           exact Hlen.
        -- rewrite Hmods. subst w3. unfold elements_at. simpl.
           rewrite list_lookup_insert_eq
             by (rewrite Hstore; exact Hvalid).
           simpl. rewrite Hstore. subst w1. simpl.
           now rewrite <- app_assoc.
        -- rewrite Hsp', Hco'. subst w3 w1. simpl in *. rewrite Hsp, Hco.
           simpl. split; [lia | reflexivity].
    + (* a successful command: next *)
      destruct (IH (S i) w Hne Hvalid Hrest Hshells)
        as (f2 & mods & w' & Hrun2 & Hreqs & Hlens & Hmods & Hsp' & Hco').
      exists (S f2), mods, w'.
      split; [| split; [| split; [| split]]]; cbn [List.filter];
        rewrite ?Hfail; try assumption.
      * intros [|fuel] Hfuel; [lia |]. cbn [repair_loop].
        unfold bind at 1. unfold deref at 1. rewrite Hi, Hfail.
        apply Hrun2. lia.
      * split; assumption.
Qed.

End RepairLoop.

(** ** Traces only grow, and the loops let no exception out *)

Ltac grown evs :=
  exists evs; split;
  [simpl; rewrite ?app_nil_r, <- ?app_assoc; reflexivity | simpl; lia].

Section Growth.

Context {host : Host} {agent : Agent}.

Lemma grows_bind {A B} (m : M A) (k : A -> M B) :
  grows m -> (forall a, grows (k a)) -> grows (bind m k).
Proof.
  intros Hm Hk w. unfold bind.
  destruct (Hm w) as (evs1 & H1 & U1).
  destruct (m w) as [[a|e|] w1]; simpl in H1, U1;
    try (exists evs1; split; [exact H1 | exact U1]).
  destruct (Hk a w1) as (evs2 & H2 & U2).
  exists (evs1 ++ evs2). split; [now rewrite H2, H1, app_assoc | lia].
Qed.

Lemma grows_ret {A} (a : A) : grows (ret a).
Proof. intros w. grown (@nil event). Qed.

Lemma grows_log {A} (f : world -> A) (e : world -> event) :
  grows (fun w => (Returned (f w), log (e w) w)).
Proof. intros w. grown [e w]. Qed.

Lemma collect_output_grows (fuel : nat) :
  forall marker acc, grows (collect_output fuel marker acc).
Proof.
  induction fuel as [|fuel IH]; intros marker acc w.
  - grown (@nil event).
  - cbn [collect_output]. unfold read_nonblocking.
    destruct (shell (live w) (pos w)) as [s| |];
      try (grown [EvRead TIMEOUT]); try (grown [EvRead EOF]).
    destruct (Py.contains marker s); [grown [EvRead (Data s)] |].
    destruct (IH marker (acc +s+ s)
                 (mkWorld (spawned w) (S (pos w)) (connected w) (peer_pos w)
                    (uuids w) (store w) (trace w ++ [EvRead (Data s)])))
      as (evs & Hevs & Hu).
    exists (EvRead (Data s) :: evs). rewrite Hevs. simpl in *.
    split; [now rewrite <- app_assoc | exact Hu].
Qed.

Lemma get_input_text_grows (text : string) : grows (get_input_text text).
Proof.
  intros w. rewrite get_input_text_run.
  grown [EvProvideInput text (provide_input text)].
Qed.

Lemma get_input_message_grows (text : string) :
  grows (get_input_message text).
Proof.
  intros w. rewrite get_input_message_run.
  grown [EvProvideInput text (provide_input text)].
Qed.

Lemma sendline_grows (s : string) : grows (sendline s).
Proof. intros w. grown [EvSendline s]. Qed.


Lemma send_message_grows (msg : string) : grows (send_message msg).
Proof. intros w. grown [EvSendMessage msg (next_response w)]. Qed.

Lemma read_response_grows : grows read_response.
Proof. intros w. grown [EvReadResponse (next_response w)]. Qed.

Lemma uuid4_str_grows : grows uuid4_str.
Proof. intros w. grown (@nil event). Qed.

Lemma collect_loop_grows (fuel : nat) :
  forall marker acc, grows (collect_loop fuel marker acc).
Proof.
  induction fuel as [|fuel IH]; intros marker acc.
  - intros w. grown (@nil event).
  - cbn [collect_loop]. apply grows_bind; [apply collect_output_grows |].
    intros new. destruct (Py.truthy new); [| apply grows_ret].
    apply grows_bind; [apply get_input_text_grows |].
    intros input. destruct (truthy_opt input); [| apply IH].
    apply grows_bind; [apply sendline_grows | intros _; apply IH].
Qed.

Lemma collect_response_grows (fuel : nat) :
  forall response, grows (collect_response fuel response).
Proof.
  induction fuel as [|fuel IH]; intros response;
    cbn [collect_response]; destruct (Py.truthy response);
    try apply grows_ret.
  - intros w. grown (@nil event).
  - apply grows_bind; [apply get_input_message_grows |]. intros input.
    apply grows_bind.
    { destruct (truthy_opt input);
        [apply send_message_grows | apply grows_ret]. }
    intros input_response. apply grows_bind; [apply read_response_grows |].
    intros trailing_response. apply grows_bind; [apply IH |].
    intros additional. apply grows_ret.
Qed.

Lemma bind_extends {A B} (m : M A) (k : A -> M B) (w : world) :
  (forall a, grows (k a)) ->
  exists evs, trace (snd (bind m k w)) = trace (snd (m w)) ++ evs /\
              uuids (snd (m w)) <= uuids (snd (bind m k w)).
Proof.
  intros Hk. unfold bind.
  destruct (m w) as [[a|e|] w1]; simpl;
    try (exists []; split; [now rewrite app_nil_r | lia]).
  apply Hk.
Qed.

Lemma collect_output_reads_first (fuel : nat) (marker acc : string)
      (w : world) :
  exists rest,
    trace (snd (collect_output (S fuel) marker acc w))
    = trace w ++ EvRead (shell (live w) (pos w)) :: rest.
Proof.
  cbn [collect_output]. unfold read_nonblocking.
  destruct (shell (live w) (pos w)) as [s| |]; try (now exists []).
  destruct (Py.contains marker s); [now exists [] |].
  destruct (collect_output_grows fuel marker (acc +s+ s)
              (mkWorld (spawned w) (S (pos w)) (connected w) (peer_pos w)
                 (uuids w) (store w) (trace w ++ [EvRead (Data s)])))
    as (evs & Hevs & _).
  exists evs. rewrite Hevs. simpl. now rewrite <- app_assoc.
Qed.

(** A run of the loop that is not cut short starts with a read. *)
Lemma collect_loop_reads_first (fuel : nat) (marker acc : string)
      (w : world) :
  finished (fst (collect_loop fuel marker acc w)) ->
  exists rest,
    trace (snd (collect_loop fuel marker acc w))
    = trace w ++ EvRead (shell (live w) (pos w)) :: rest.
Proof.
  destruct fuel as [|fuel]; [simpl; tauto |].
  cbn [collect_loop]. intros Hfinished.
  destruct fuel as [|fuel]; [exact (False_ind _ Hfinished) |].
  clear Hfinished.
  match goal with
  | |- context [bind ?m ?k w] =>
      destruct (bind_extends m k w) as (evs & Hevs & _)
  end.
  - intros new. destruct (Py.truthy new); [| apply grows_ret].
    apply grows_bind; [apply get_input_text_grows |].
    intros input. destruct (truthy_opt input); [| apply collect_loop_grows].
    apply grows_bind; [apply sendline_grows |].
    intros _; apply collect_loop_grows.
  - destruct (collect_output_reads_first fuel marker EmptyString w)
      as [rest Hrest].
    exists (rest ++ evs). rewrite Hevs, Hrest.
    now rewrite <- app_assoc.
Qed.

(** The same for the recursion of the container executor when no input is
    sent: after the consultation comes the trailing read. *)
Lemma collect_response_reads_next (fuel : nat) (response : string)
      (w : world) :
  Py.truthy response = true ->
  wants_input (provide_input response) = false ->
  exists rest,
    trace (snd (collect_response (S fuel) response w))
    = trace w ++ EvProvideInput response (provide_input response)
              :: EvReadResponse (next_response w) :: rest.
Proof.
  intros Htruthy Hwant. rewrite collect_response_step by exact Htruthy.
  cbn zeta. rewrite Hwant.
  set (w1 := log (EvProvideInput response (provide_input response)) w).
  set (w2 := received (EvReadResponse (next_response w1)) w1).
  destruct (collect_response_grows fuel (next_response w1) w2)
    as (evs & Hevs & _).
  exists evs.
  assert (Hglue : forall X : outcome string * world,
             snd (glue response EmptyString X) = snd X)
    by (intros [[a|e|] w']; reflexivity).
  rewrite Hglue, Hevs. subst w2 w1. simpl. now rewrite <- !app_assoc.
Qed.

(** Exceptions: a read raises, [collect_output] catches both kinds. *)
Lemma never_raises_bind {A B} (m : M A) (k : A -> M B) :
  never_raises m -> (forall a, never_raises (k a)) -> never_raises (bind m k).
Proof.
  intros Hm Hk w e. unfold bind. specialize (Hm w).
  destruct (m w) as [[a|e'|] w1]; simpl in *;
    [apply Hk | exact (False_ind _ (Hm e' eq_refl)) | discriminate].
Qed.

Lemma never_raises_total {A} (f : world -> A * world) :
  never_raises (fun w => (Returned (fst (f w)), snd (f w))).
Proof. intros w e. discriminate. Qed.

Lemma collect_output_never_raises (fuel : nat) :
  forall marker acc, never_raises (collect_output fuel marker acc).
Proof.
  induction fuel as [|fuel IH]; intros marker acc w e; [discriminate |].
  cbn [collect_output]. unfold read_nonblocking.
  destruct (shell (live w) (pos w)) as [s| |]; try discriminate.
  destruct (Py.contains marker s); [discriminate | apply IH].
Qed.

Lemma collect_loop_never_raises (fuel : nat) :
  forall marker acc, never_raises (collect_loop fuel marker acc).
Proof.
  induction fuel as [|fuel IH]; intros marker acc; [discriminate |].
  cbn [collect_loop].
  apply never_raises_bind; [apply collect_output_never_raises |].
  intros new. destruct (Py.truthy new); [| discriminate].
  apply never_raises_bind.
  { intros w e. rewrite get_input_text_run. discriminate. }
  intros input. destruct (truthy_opt input); [| apply IH].
  apply never_raises_bind; [discriminate | intros _; apply IH].
Qed.

Lemma run_command_never_raises (fuel : nat) (cmd : string) :
  never_raises (run_command fuel cmd).
Proof.
  unfold run_command.
  apply never_raises_bind; [discriminate | intros _].
  apply never_raises_bind; [discriminate | intros token].
  apply never_raises_bind; [discriminate | intros _].
  apply never_raises_bind; [apply collect_loop_never_raises | intros out].
  apply never_raises_bind; [discriminate | intros r; discriminate].
Qed.

Lemma for_commands_never_raises (fuel : nat) (commands : list string) :
  forall report, never_raises (for_commands fuel commands report).
Proof.
  induction commands as [|cmd commands IH]; intros report; [discriminate |].
  cbn [for_commands].
  apply never_raises_bind; [apply run_command_never_raises |].
  intros r. apply IH.
Qed.


End Growth.

(** ** Runs that return

    What a run that returned has done, whatever the shell and the peer are
    like. *)

Section Returning.

Context {host : Host} {agent : Agent}.

Lemma bind_returned {A B} (m : M A) (k : A -> M B) (w w' : world) (b : B) :
  bind m k w = (Returned b, w') ->
  exists a w1, m w = (Returned a, w1) /\ k a w1 = (Returned b, w').
Proof.
  unfold bind. destruct (m w) as [[a|e|] w1]; intros E; try discriminate.
  now exists a, w1.
Qed.

Lemma collect_output_returned (fuel : nat) :
  forall marker acc w out w',
    collect_output fuel marker acc w = (Returned out, w') ->
    exists n,
      0 < n /\
      out = acc +s+ Py.join (map chunk (reads w n)) /\ w' = after_reads w n.
Proof.
  induction fuel as [|fuel IH]; intros marker acc w out w' Hrun;
    [discriminate |].
  cbn [collect_output] in Hrun. unfold read_nonblocking in Hrun.
  assert (Hone : reads w 1 = [shell (live w) (pos w)]) by reflexivity.
  destruct (shell (live w) (pos w)) as [s| |] eqn:Hr.
  - destruct (Py.contains marker s).
    + exists 1. injection Hrun as <- <-. unfold after_reads. rewrite Hone.
      cbn. rewrite cat_empty_r. split; [lia | split; reflexivity].
    + apply IH in Hrun. destruct Hrun as (n & _ & -> & ->). exists (S n).
      rewrite <- Hr, after_reads_step. split; [lia |]. split; [| reflexivity].
      rewrite cat_assoc. f_equal.
      unfold reads. cbn [reads_from map Py.join fold_right].
      rewrite Hr. reflexivity.
  - exists 1. injection Hrun as <- <-. unfold after_reads. rewrite Hone.
    cbn. rewrite cat_empty_r. split; [lia | split; reflexivity].
  - exists 1. injection Hrun as <- <-. unfold after_reads. rewrite Hone.
    cbn. rewrite cat_empty_r. split; [lia | split; reflexivity].
Qed.

Lemma collect_loop_returned (fuel : nat) :
  forall marker acc w out w',
    collect_loop fuel marker acc w = (Returned out, w') ->
    exists evs,
      out = acc +s+ captured evs /\ trace w' = trace w ++ evs /\
      Forall collecting evs /\ same_session w w' /\ uuids w' = uuids w.
Proof.
  induction fuel as [|fuel IH]; intros marker acc w out w' Hrun;
    [discriminate |].
  assert (Hround := Hrun). cbn [collect_loop] in Hrun.
  apply bind_returned in Hrun as (new & w1 & Hco & _).
  rewrite (collect_loop_round _ _ acc _ _ _ Hco) in Hround.
  destruct (collect_output_returned _ _ _ _ _ _ Hco) as (n & _ & Hnew & Hw1).
  cbn [Py.cat append] in Hnew. rewrite chunks_captured in Hnew.
  destruct (Py.truthy new).
  - cbn zeta in Hround.
    destruct (wants_input (provide_input new)).
    + apply IH in Hround as (evs & -> & Htrace & Hcoll & Hframe & Hu).
      exists (map EvRead (reads w n)
              ++ EvProvideInput new (provide_input new)
              :: EvSendline (provide_input new) :: evs).
      split; [| split; [| split]].
      * rewrite captured_app, <- Hnew.
        change (captured (EvProvideInput new (provide_input new)
                          :: EvSendline (provide_input new) :: evs))
          with ((provide_input new +s+ Py.linesep) +s+ captured evs).
        now rewrite !cat_assoc.
      * rewrite Htrace, Hw1. simpl. now rewrite <- !app_assoc.
      * apply Forall_app. split; [apply reads_collecting |].
        constructor; [exact I |]. constructor; [exact I | exact Hcoll].
      * subst w1. frame.
    + apply IH in Hround as (evs & -> & Htrace & Hcoll & Hframe & Hu).
      exists (map EvRead (reads w n)
              ++ EvProvideInput new (provide_input new) :: evs).
      split; [| split; [| split]].
      * rewrite captured_app, <- Hnew.
        change (captured (EvProvideInput new (provide_input new) :: evs))
          with (captured evs).
        now rewrite !cat_assoc.
      * rewrite Htrace, Hw1. simpl. now rewrite <- !app_assoc.
      * apply Forall_app. split; [apply reads_collecting |].
        constructor; [exact I | exact Hcoll].
      * subst w1. frame.
  - injection Hround as <- <-. exists (map EvRead (reads w n)).
    split; [now rewrite Hnew |]. subst w1.
    split; [reflexivity |]. split; [apply reads_collecting | frame].
Qed.

(** The loop returns only after a collection attempt that brought nothing:
    its trace ends with the reads of that attempt. *)
Lemma collect_loop_ends_on_nothing (fuel : nat) :
  forall marker acc w out w',
    collect_loop fuel marker acc w = (Returned out, w') ->
    exists before w0 n,
      trace w0 = trace w ++ before /\ live w0 = live w /\ 0 < n /\
      Py.join (map chunk (reads w0 n)) = EmptyString /\
      trace w' = trace w0 ++ map EvRead (reads w0 n).
Proof.
  induction fuel as [|fuel IH]; intros marker acc w out w' Hrun;
    [discriminate |].
  assert (Hround := Hrun). cbn [collect_loop] in Hrun.
  apply bind_returned in Hrun as (new & w1 & Hco & _).
  rewrite (collect_loop_round _ _ acc _ _ _ Hco) in Hround.
  destruct (collect_output_returned _ _ _ _ _ _ Hco) as (n & Hn & Hnew & Hw1).
  cbn [Py.cat append] in Hnew.
  destruct (Py.truthy new) eqn:Htruthy.
  - cbn zeta in Hround.
    destruct (wants_input (provide_input new));
      apply IH in Hround as (before & w0 & m & Htrace & Hlive & Hm & Hempty
                             & Hend);
      eexists _, w0, m;
      (split; [rewrite Htrace, Hw1; simpl; rewrite <- !app_assoc;
               reflexivity |]);
      (split; [rewrite Hlive, Hw1; reflexivity |]);
      (split; [exact Hm |]); split; assumption.
  - injection Hround as _ <-. apply truthy_empty in Htruthy.
    exists [], w, n. rewrite app_nil_r, <- Hnew, Hw1.
    repeat split; try assumption.
Qed.

(** [run_command] is the two submissions followed by the collection and
    the judgement. *)
Lemma run_command_unfold (fuel : nat) (cmd : string) (w : world) :
  run_command fuel cmd w
  = (do command_output <-
        collect_loop fuel ("Completed " +s+ uuid4 (uuids w)) EmptyString;
     do agent_output <- judge command_output;
     ret agent_output)
      (mkWorld (spawned w) (pos w) (connected w) (peer_pos w) (S (uuids w))
         (store w)
         ((trace w ++ [EvSendline ("echo " +s+ Shlex.quote cmd +s+ Py.LF)])
          ++ [EvSendline (cmd +s+ " && echo " +s+ "Completed "
                          +s+ uuid4 (uuids w))])).
Proof. reflexivity. Qed.

Lemma run_command_returned (fuel : nat) (cmd : string) (w w' : world)
      (report : CommandReport) :
  run_command fuel cmd w = (Returned report, w') ->
  exists seg,
    trace w' = trace w ++ seg /\ local_round_trip cmd seg report /\
    same_session w w' /\ uuids w' = S (uuids w).
Proof.
  rewrite run_command_unfold. intros Hrun.
  apply bind_returned in Hrun as (out & w4 & Hloop & Hk).
  apply collect_loop_returned in Hloop
    as (body & Hout & Htrace & Hcoll & Hframe & Hu).
  cbn [Py.cat append] in Hout. subst out.
  unfold bind, judge, ret in Hk. injection Hk as <- <-.
  exists (EvSendline ("echo " +s+ Shlex.quote cmd +s+ Py.LF)
          :: EvSendline (cmd +s+ " && echo " +s+ "Completed "
                         +s+ uuid4 (uuids w))
          :: body ++ [EvAnalyze (captured body)]).
  split; [| split; [| frame]].
  - cbn [log trace]. rewrite Htrace. simpl. now rewrite <- !app_assoc.
  - exists (uuid4 (uuids w)), body. auto.
Qed.

Lemma for_commands_returned (fuel : nat) (commands : list string) :
  forall report w all w',
    for_commands fuel commands report w = (Returned all, w') ->
    exists segs reports,
      all = report ++ reports /\
      Forall3 local_round_trip commands segs reports /\
      trace w' = trace w ++ concat segs /\ same_session w w'.
Proof.
  induction commands as [|cmd commands IH]; intros report w all w' Hrun.
  - injection Hrun as <- <-. exists [], []. rewrite !app_nil_r.
    split; [reflexivity |]. split; [constructor |]. split; [reflexivity |].
    frame.
  - cbn [for_commands] in Hrun.
    apply bind_returned in Hrun as (r & w1 & Hone & Hrest).
    apply run_command_returned in Hone as (seg & Htrace1 & Htrip & Hframe1 & _).
    apply IH in Hrest as (segs & reports & -> & Htrips & Htrace2 & Hframe2).
    exists (seg :: segs), (r :: reports).
    split; [now rewrite <- app_assoc |]. split; [now constructor |].
    split; [| frame].
    rewrite Htrace2, Htrace1. simpl. now rewrite <- app_assoc.
Qed.

Lemma local_execute_returned (fuel : nat) (commands : list string)
      (w w' : world) (reports : list CommandReport) :
  local_execute_commands_sync fuel commands w = (Returned reports, w') ->
  exists banner segs,
    shell (spawned w) 0 = Data banner /\
    Forall3 local_round_trip commands segs reports /\
    trace w' = trace w ++ EvSpawn :: EvRead (Data banner) :: concat segs /\
    spawned w' = S (spawned w) /\ connected w' = connected w /\
    store w' = store w.
Proof.
  unfold local_execute_commands_sync, bind at 1, spawn. intros Hrun.
  apply bind_returned in Hrun as (banner & w1 & Hread & Hrest).
  unfold read_nonblocking in Hread.
  cbn [live spawned pos pred connected peer_pos uuids store trace] in Hread.
  destruct (shell (spawned w) 0) as [s| |]; try discriminate.
  injection Hread as <- <-.
  apply for_commands_returned in Hrest
    as (segs & reports' & -> & Htrips & Htrace & Hframe).
  exists s, segs. split; [reflexivity |]. split; [exact Htrips |].
  split; [| frame].
  rewrite Htrace. simpl. now rewrite <- !app_assoc.
Qed.

Lemma collect_response_returned (fuel : nat) :
  forall response w out w',
    collect_response fuel response w = (Returned out, w') ->
    exists evs,
      out = response +s+ replied evs /\ trace w' = trace w ++ evs /\
      Forall draining evs /\ same_connection w w'.
Proof.
  induction fuel as [|fuel IH]; intros response w out w' Hrun.
  - cbn [collect_response] in Hrun.
    destruct (Py.truthy response) eqn:Ht; [discriminate |].
    injection Hrun as <- <-. apply truthy_empty in Ht. subst response.
    exists []. split; [reflexivity |]. split; [now rewrite app_nil_r |].
    split; [constructor | conn].
  - destruct (Py.truthy response) eqn:Ht.
    2:{ apply truthy_empty in Ht. subst response.
        rewrite collect_response_empty in Hrun. injection Hrun as <- <-.
        exists []. split; [reflexivity |]. split; [now rewrite app_nil_r |].
        split; [constructor | conn]. }
    rewrite collect_response_step in Hrun by exact Ht. cbn zeta in Hrun.
    set (answer := provide_input response) in *.
    set (w1 := log (EvProvideInput response answer) w) in *.
    destruct (wants_input answer).
    + set (w2 := received (EvSendMessage (Json.dumps_entry "input" answer)
                                         (next_response w1)) w1) in *.
      destruct (collect_response fuel (next_response w2)
                  (received (EvReadResponse (next_response w2)) w2))
        as [[a|e|] w4] eqn:Hrec; try discriminate.
      unfold glue in Hrun. injection Hrun as <- <-.
      apply IH in Hrec as (evs & -> & Htrace & Hdrain & Hframe).
      exists (EvProvideInput response answer
              :: EvSendMessage (Json.dumps_entry "input" answer)
                   (next_response w1)
              :: EvReadResponse (next_response w2) :: evs).
      split; [| split; [| split]].
      * change (replied (EvProvideInput response answer
                  :: EvSendMessage (Json.dumps_entry "input" answer)
                       (next_response w1)
                  :: EvReadResponse (next_response w2) :: evs))
          with (next_response w1 +s+ next_response w2 +s+ replied evs).
        now rewrite !cat_assoc.
      * rewrite Htrace. subst w2 w1. simpl. now rewrite <- !app_assoc.
      * repeat (constructor; [exact I |]). exact Hdrain.
      * subst w2 w1. conn.
    + destruct (collect_response fuel (next_response w1)
                  (received (EvReadResponse (next_response w1)) w1))
        as [[a|e|] w4] eqn:Hrec; try discriminate.
      unfold glue in Hrun. injection Hrun as <- <-.
      apply IH in Hrec as (evs & -> & Htrace & Hdrain & Hframe).
      exists (EvProvideInput response answer
              :: EvReadResponse (next_response w1) :: evs).
      split; [| split; [| split]].
      * change (replied (EvProvideInput response answer
                  :: EvReadResponse (next_response w1) :: evs))
          with (next_response w1 +s+ replied evs).
        now rewrite cat_empty_r.
      * rewrite Htrace. subst w1. simpl. now rewrite <- !app_assoc.
      * repeat (constructor; [exact I |]). exact Hdrain.
      * subst w1. conn.
Qed.

Lemma for_remote_commands_returned (fuel : nat) (commands : list string) :
  forall report w all w',
    for_remote_commands fuel commands report w = (Returned all, w') ->
    exists segs reports,
      all = report ++ reports /\
      Forall3 remote_round_trip commands segs reports /\
      trace w' = trace w ++ concat segs /\ same_connection w w'.
Proof.
  induction commands as [|cmd commands IH]; intros report w all w' Hrun.
  - injection Hrun as <- <-. exists [], []. rewrite !app_nil_r.
    split; [reflexivity |]. split; [constructor |]. split; [reflexivity |].
    conn.
  - cbn [for_remote_commands] in Hrun.
    apply bind_returned in Hrun as (response & w1 & Hsend & Hrun).
    unfold send_message in Hsend. injection Hsend as <- <-.
    apply bind_returned in Hrun as (out & w2 & Hcollect & Hrun).
    apply collect_response_returned in Hcollect
      as (body & -> & Htrace1 & Hdrain & Hframe1).
    apply bind_returned in Hrun as (r & w3 & Hjudge & Hrest).
    unfold judge in Hjudge. injection Hjudge as <- <-.
    apply IH in Hrest as (segs & reports & -> & Htrips & Htrace2 & Hframe2).
    exists ((EvSendMessage (Json.dumps_entry "command" cmd) (next_response w)
             :: body
             ++ [EvAnalyze (next_response w +s+ replied body)]) :: segs),
           (analyze_output (next_response w +s+ replied body) :: reports).
    split; [now rewrite <- app_assoc |]. split; [| split; [| conn]].
    + constructor; [| exact Htrips]. exists (next_response w), body. auto.
    + rewrite Htrace2. cbn [log trace]. rewrite Htrace1. simpl.
      now rewrite <- !app_assoc.
Qed.

Lemma container_execute_returned (fuel : nat) (commands : list string)
      (w w' : world) (reports : list CommandReport) :
  container_execute_commands_sync fuel commands w = (Returned reports, w') ->
  exists segs,
    Forall3 remote_round_trip commands segs reports /\
    trace w' = trace w ++ EvConnect :: concat segs ++ [EvDisconnect].
Proof.
  unfold container_execute_commands_sync, with_client, bind at 1, connect.
  destruct (for_remote_commands fuel commands [] _) as [[rs|e|] w2] eqn:Hrun;
    try discriminate.
  intros Hret. injection Hret as <- <-.
  apply for_remote_commands_returned in Hrun
    as (segs & reports' & -> & Htrips & Htrace & _).
  exists segs. split; [exact Htrips |].
  cbn [log trace]. rewrite Htrace. simpl. now rewrite <- !app_assoc.
Qed.

End Returning.

(** ** What the executors send *)

Section Dialogues.

Context {host : Host} {agent : Agent}.

Lemma collect_loop_dialogue (fuel : nat) :
  forall marker acc w out w',
    collect_loop fuel marker acc w = (Returned out, w') ->
    exists evs, trace w' = trace w ++ evs /\ local_dialogue evs.
Proof.
  induction fuel as [|fuel IH]; intros marker acc w out w' Hrun;
    [discriminate |].
  assert (Hround := Hrun). cbn [collect_loop] in Hrun.
  apply bind_returned in Hrun as (new & w1 & Hco & _).
  rewrite (collect_loop_round _ _ acc _ _ _ Hco) in Hround.
  destruct (collect_output_returned _ _ _ _ _ _ Hco) as (n & Hn & Hnew & Hw1).
  cbn [Py.cat append] in Hnew.
  destruct (Py.truthy new) eqn:Htruthy.
  - cbn zeta in Hround. rewrite Hnew in Htruthy.
    pose proof (local_dialogue_round (reads w n)) as Hstep.
    rewrite <- Hnew in Hstep.
    destruct (wants_input (provide_input new));
      apply IH in Hround as (evs & Htrace & Hevs);
      (eexists; split; [| apply (Hstep evs); [now rewrite Hnew | exact Hevs]]);
      rewrite Htrace, Hw1; simpl; rewrite <- !app_assoc; reflexivity.
  - injection Hround as _ <-. apply truthy_empty in Htruthy.
    exists (map EvRead (reads w n)). rewrite Hw1. split; [reflexivity |].
    apply local_dialogue_end; [| now rewrite <- Hnew].
    unfold reads. destruct n; [lia | discriminate].
Qed.

(** In a dialogue the agent is asked about output that is not empty, and a
    line goes to the shell only as the answer that asks for it. *)
Lemma local_dialogue_events (evs : list event) :
  local_dialogue evs ->
  Forall collecting evs /\
  (forall text answer,
      In (EvProvideInput text answer) evs ->
      Py.truthy text = true /\ answer = provide_input text) /\
  (forall line,
      In (EvSendline line) evs ->
      wants_input line = true /\
      exists text, In (EvProvideInput text line) evs).
Proof.
  induction 1 as [rs _ _|rs rest Htruthy _ (IHc & IHask & IHsend)].
  - split; [apply reads_collecting |].
    split; [intros text answer Hin | intros line Hin];
      apply in_map_iff in Hin as (r & Hr & _); discriminate.
  - set (new := Py.join (map chunk rs)) in *.
    split; [| split].
    + apply Forall_app. split; [apply reads_collecting |].
      constructor; [exact I |]. apply Forall_app. split; [| exact IHc].
      destruct (wants_input (provide_input new)); repeat constructor.
    + intros text answer Hin. apply in_app_or in Hin as [Hin|[Hin|Hin]].
      * apply in_map_iff in Hin as (r & Hr & _). discriminate.
      * injection Hin as <- <-. now split.
      * apply in_app_or in Hin as [Hin|Hin]; [| now apply IHask].
        destruct (wants_input (provide_input new));
          [destruct Hin as [Hin|[]]; discriminate | destruct Hin].
    + intros line Hin. apply in_app_or in Hin as [Hin|[Hin|Hin]].
      * apply in_map_iff in Hin as (r & Hr & _). discriminate.
      * discriminate.
      * apply in_app_or in Hin as [Hin|Hin].
        -- destruct (wants_input (provide_input new)) eqn:Hwant;
             [| destruct Hin].
           destruct Hin as [Hin|[]]. injection Hin as <-.
           split; [exact Hwant |]. exists new.
           apply in_or_app. right. now left.
        -- destruct (IHsend line Hin) as (Hwant & text & Htext).
           split; [exact Hwant |]. exists text.
           apply in_or_app. right. right. apply in_or_app. now right.
Qed.

Lemma run_command_dialogue (fuel : nat) (cmd : string) (w w' : world)
      (report : CommandReport) :
  run_command fuel cmd w = (Returned report, w') ->
  exists body,
    trace w'
    = trace w
      ++ EvSendline ("echo " +s+ Shlex.quote cmd +s+ Py.LF)
      :: EvSendline (cmd +s+ " && echo " +s+ "Completed "
                     +s+ uuid4 (uuids w))
      :: body ++ [EvAnalyze (captured body)] /\
    local_dialogue body /\
    report = analyze_output (captured body) /\
    same_session w w' /\ uuids w' = S (uuids w).
Proof.
  rewrite run_command_unfold. intros Hrun.
  apply bind_returned in Hrun as (out & w4 & Hloop & Hk).
  destruct (collect_loop_dialogue _ _ _ _ _ _ Hloop) as (body' & Htrace' & Hd).
  apply collect_loop_returned in Hloop
    as (body & Hout & Htrace & Hcoll & Hframe & Hu).
  rewrite Htrace in Htrace'. apply app_inv_head in Htrace'. subst body'.
  cbn [Py.cat append] in Hout. subst out.
  unfold bind, judge, ret in Hk. injection Hk as <- <-.
  exists body. split; [| split; [exact Hd | split; [reflexivity | frame]]].
  cbn [log trace]. rewrite Htrace. simpl. now rewrite <- !app_assoc.
Qed.

Lemma for_commands_typed (fuel : nat) (commands : list string) :
  forall report w all w',
    for_commands fuel commands report w = (Returned all, w') ->
    exists evs,
      trace w' = trace w ++ evs /\
      (forall line, In (EvSendline line) evs -> typed commands line) /\
      (forall text answer,
          In (EvProvideInput text answer) evs ->
          Py.truthy text = true /\ answer = provide_input text).
Proof.
  induction commands as [|cmd commands IH]; intros report w all w' Hrun.
  - injection Hrun as _ <-. exists []. rewrite app_nil_r.
    split; [reflexivity |]. split; [intros line [] | intros text answer []].
  - cbn [for_commands] in Hrun.
    apply bind_returned in Hrun as (r & w1 & Hone & Hrest).
    apply run_command_dialogue in Hone as (body & Htrace1 & Hd & _).
    apply local_dialogue_events in Hd as (_ & Hask & Hsend).
    apply IH in Hrest as (evs & Htrace2 & Htyped & Hasked).
    eexists. split; [rewrite Htrace2, Htrace1, <- app_assoc; reflexivity |].
    split.
    + intros line Hin. apply in_app_or in Hin as [Hin|Hin].
      * destruct Hin as [Hin|[Hin|Hin]].
        -- injection Hin as <-. left. exists cmd. split; [now left | easy].
        -- injection Hin as <-. right. left. exists cmd, (uuid4 (uuids w)).
           split; [now left | reflexivity].
        -- apply in_app_or in Hin as [Hin|[Hin|[]]]; [| discriminate].
           destruct (Hsend line Hin) as (Hwant & text & Htext).
           destruct (Hask _ _ Htext) as (Htruthy & Hanswer).
           right. right. now exists text.
      * destruct (Htyped line Hin)
          as [(c & Hc & ->)|[(c & t & Hc & ->)|Hanswer]].
        -- left. exists c. split; [now right | reflexivity].
        -- right. left. exists c, t. split; [now right | reflexivity].
        -- right. right. exact Hanswer.
    + intros text answer Hin. apply in_app_or in Hin as [Hin|Hin].
      * destruct Hin as [Hin|[Hin|Hin]]; try discriminate.
        apply in_app_or in Hin as [Hin|[Hin|[]]]; [| discriminate].
        now apply Hask.
      * now apply Hasked.
Qed.

Lemma collect_response_dialogue (fuel : nat) :
  forall response w out w',
    collect_response fuel response w = (Returned out, w') ->
    exists evs, trace w' = trace w ++ evs /\ remote_dialogue response evs.
Proof.
  induction fuel as [|fuel IH]; intros response w out w' Hrun.
  - cbn [collect_response] in Hrun.
    destruct (Py.truthy response) eqn:Ht; [discriminate |].
    injection Hrun as _ <-. apply truthy_empty in Ht. subst response.
    exists []. split; [now rewrite app_nil_r | constructor].
  - destruct (Py.truthy response) eqn:Ht.
    2:{ apply truthy_empty in Ht. subst response.
        rewrite collect_response_empty in Hrun. injection Hrun as _ <-.
        exists []. split; [now rewrite app_nil_r | constructor]. }
    rewrite collect_response_step in Hrun by exact Ht. cbn zeta in Hrun.
    pose proof (remote_dialogue_round response) as Hstep.
    set (answer := provide_input response) in *.
    set (w1 := log (EvProvideInput response answer) w) in *.
    destruct (wants_input answer).
    + set (w2 := received (EvSendMessage (Json.dumps_entry "input" answer)
                                         (next_response w1)) w1) in *.
      destruct (collect_response fuel (next_response w2)
                  (received (EvReadResponse (next_response w2)) w2))
        as [[a|e|] w4] eqn:Hrec; try discriminate.
      unfold glue in Hrun. injection Hrun as _ <-.
      apply IH in Hrec as (evs & Htrace & Hd).
      eexists. split.
      2:{ apply (Hstep (next_response w2)
                       [EvSendMessage (Json.dumps_entry "input" answer)
                                      (next_response w1)]
                       evs Ht); [now eexists | exact Hd]. }
      rewrite Htrace. subst w2 w1. simpl. now rewrite <- !app_assoc.
    + destruct (collect_response fuel (next_response w1)
                  (received (EvReadResponse (next_response w1)) w1))
        as [[a|e|] w4] eqn:Hrec; try discriminate.
      unfold glue in Hrun. injection Hrun as _ <-.
      apply IH in Hrec as (evs & Htrace & Hd).
      eexists. split.
      2:{ apply (Hstep (next_response w1) [] evs Ht);
            [reflexivity | exact Hd]. }
      rewrite Htrace. subst w1. simpl. now rewrite <- !app_assoc.
Qed.

Lemma remote_dialogue_events (response : string) (evs : list event) :
  remote_dialogue response evs ->
  (forall text answer,
      In (EvProvideInput text answer) evs ->
      Py.truthy text = true /\ answer = provide_input text) /\
  (forall msg input_response,
      In (EvSendMessage msg input_response) evs -> posted [] msg).
Proof.
  induction 1 as [|response trailing inputs rest Htruthy Hinputs _
                   (IHask & IHsend)].
  - split; [intros text answer [] | intros msg r []].
  - split.
    + intros text answer [Hin|Hin]; [injection Hin as <- <-; now split |].
      apply in_app_or in Hin as [Hin|[Hin|Hin]];
        [| discriminate | now apply IHask].
      destruct (wants_input (provide_input response));
        [destruct Hinputs as (r & ->); destruct Hin as [Hin|[]]; discriminate
        | subst inputs; destruct Hin].
    + intros msg r [Hin|Hin]; [discriminate |].
      apply in_app_or in Hin as [Hin|[Hin|Hin]];
        [| discriminate | now apply (IHsend msg r)].
      destruct (wants_input (provide_input response)) eqn:Hwant;
        [| subst inputs; destruct Hin].
      destruct Hinputs as (r' & ->). destruct Hin as [Hin|[]].
      injection Hin as <- _. right. now exists response.
Qed.

Lemma posted_further (commands : list string) (cmd msg : string) :
  posted [] msg \/ posted commands msg -> posted (cmd :: commands) msg.
Proof.
  intros [[(c & [] & _)|Hanswer]|[(c & Hc & ->)|Hanswer]].
  - now right.
  - left. exists c. split; [now right | reflexivity].
  - now right.
Qed.

Lemma for_remote_commands_posted (fuel : nat) (commands : list string) :
  forall report w all w',
    for_remote_commands fuel commands report w = (Returned all, w') ->
    exists evs,
      trace w' = trace w ++ evs /\
      (forall msg response,
          In (EvSendMessage msg response) evs -> posted commands msg) /\
      (forall text answer,
          In (EvProvideInput text answer) evs ->
          Py.truthy text = true /\ answer = provide_input text) /\
      ~ In EvConnect evs /\ ~ In EvDisconnect evs.
Proof.
  induction commands as [|cmd commands IH]; intros report w all w' Hrun.
  - injection Hrun as _ <-. exists []. rewrite app_nil_r.
    split; [reflexivity |]. split; [intros msg r [] |].
    split; [intros text answer [] | split; intros []].
  - cbn [for_remote_commands] in Hrun.
    apply bind_returned in Hrun as (response & w1 & Hsend & Hrun).
    unfold send_message in Hsend. injection Hsend as <- <-.
    apply bind_returned in Hrun as (out & w2 & Hcollect & Hrun).
    destruct (collect_response_dialogue _ _ _ _ _ Hcollect)
      as (body & Htrace1 & Hd).
    apply collect_response_returned in Hcollect
      as (body' & -> & Htrace1' & Hdrain & _).
    rewrite Htrace1 in Htrace1'. apply app_inv_head in Htrace1'. subst body'.
    apply remote_dialogue_events in Hd as (Hask & Hsent).
    apply bind_returned in Hrun as (r & w3 & Hjudge & Hrest).
    unfold judge in Hjudge. injection Hjudge as <- <-.
    apply IH in Hrest as (evs & Htrace2 & Hposted & Hasked & Hnc & Hnd).
    exists (EvSendMessage (Json.dumps_entry "command" cmd) (next_response w)
            :: body ++ EvAnalyze (next_response w +s+ replied body) :: evs).
    assert (Hbody : forall e, In e body -> draining e)
      by exact (proj1 (List.Forall_forall _ _) Hdrain).
    split; [| split; [| split; [| split]]].
    + rewrite Htrace2. cbn [log trace]. rewrite Htrace1. simpl.
      now rewrite <- !app_assoc.
    + intros msg r [Hin|Hin].
      * injection Hin as <- _. left. exists cmd. split; [now left | easy].
      * apply posted_further.
        apply in_app_or in Hin as [Hin|[Hin|Hin]]; [| discriminate |].
        -- left. exact (Hsent _ _ Hin).
        -- right. exact (Hposted _ _ Hin).
    + intros text answer [Hin|Hin]; [discriminate |].
      apply in_app_or in Hin as [Hin|[Hin|Hin]]; [| discriminate |].
      * now apply Hask.
      * now apply Hasked.
    + intros [Hin|Hin]; [discriminate |].
      apply in_app_or in Hin as [Hin|[Hin|Hin]]; [| discriminate | tauto].
      exact (Hbody _ Hin).
    + intros [Hin|Hin]; [discriminate |].
      apply in_app_or in Hin as [Hin|[Hin|Hin]]; [| discriminate | tauto].
      exact (Hbody _ Hin).
Qed.

(** Round trips in full, for the runs that return. *)
Lemma run_command_exchange (fuel : nat) (cmd : string) (w w' : world)
      (report : CommandReport) :
  run_command fuel cmd w = (Returned report, w') ->
  exists seg,
    trace w' = trace w ++ seg /\ local_exchange cmd seg report /\
    same_session w w'.
Proof.
  intros Hrun.
  apply run_command_dialogue in Hrun
    as (body & Htrace & Hd & Hreport & Hframe & _).
  eexists. split; [exact Htrace |]. split; [| exact Hframe].
  now exists (uuid4 (uuids w)), body.
Qed.

Lemma for_commands_exchanges (fuel : nat) (commands : list string) :
  forall report w all w',
    for_commands fuel commands report w = (Returned all, w') ->
    exists segs reports,
      all = report ++ reports /\
      Forall3 local_exchange commands segs reports /\
      trace w' = trace w ++ concat segs /\ same_session w w'.
Proof.
  induction commands as [|cmd commands IH]; intros report w all w' Hrun.
  - injection Hrun as <- <-. exists [], []. rewrite !app_nil_r.
    split; [reflexivity |]. split; [constructor |]. split; [reflexivity |].
    frame.
  - cbn [for_commands] in Hrun.
    apply bind_returned in Hrun as (r & w1 & Hone & Hrest).
    apply run_command_exchange in Hone as (seg & Htrace1 & Htrip & Hframe1).
    apply IH in Hrest as (segs & reports & -> & Htrips & Htrace2 & Hframe2).
    exists (seg :: segs), (r :: reports).
    split; [now rewrite <- app_assoc |]. split; [now constructor |].
    split; [| frame].
    rewrite Htrace2, Htrace1. simpl. now rewrite <- app_assoc.
Qed.

Lemma local_execute_exchanges (fuel : nat) (commands : list string)
      (w w' : world) (reports : list CommandReport) :
  local_execute_commands_sync fuel commands w = (Returned reports, w') ->
  exists banner segs,
    shell (spawned w) 0 = Data banner /\
    Forall3 local_exchange commands segs reports /\
    trace w' = trace w ++ EvSpawn :: EvRead (Data banner) :: concat segs /\
    spawned w' = S (spawned w) /\ connected w' = connected w /\
    store w' = store w.
Proof.
  unfold local_execute_commands_sync, bind at 1, spawn. intros Hrun.
  apply bind_returned in Hrun as (banner & w1 & Hread & Hrest).
  unfold read_nonblocking in Hread.
  cbn [live spawned pos pred connected peer_pos uuids store trace] in Hread.
  destruct (shell (spawned w) 0) as [s| |]; try discriminate.
  injection Hread as <- <-.
  apply for_commands_exchanges in Hrest
    as (segs & reports' & -> & Htrips & Htrace & Hframe).
  exists s, segs. split; [reflexivity |]. split; [exact Htrips |].
  split; [| frame].
  rewrite Htrace. simpl. now rewrite <- !app_assoc.
Qed.

Lemma for_remote_commands_exchanges (fuel : nat) (commands : list string) :
  forall report w all w',
    for_remote_commands fuel commands report w = (Returned all, w') ->
    exists segs reports,
      all = report ++ reports /\
      Forall3 remote_exchange commands segs reports /\
      trace w' = trace w ++ concat segs.
Proof.
  induction commands as [|cmd commands IH]; intros report w all w' Hrun.
  - injection Hrun as <- <-. exists [], []. rewrite !app_nil_r.
    split; [reflexivity |]. split; [constructor | reflexivity].
  - cbn [for_remote_commands] in Hrun.
    apply bind_returned in Hrun as (response & w1 & Hsend & Hrun).
    unfold send_message in Hsend. injection Hsend as <- <-.
    apply bind_returned in Hrun as (out & w2 & Hcollect & Hrun).
    destruct (collect_response_dialogue _ _ _ _ _ Hcollect)
      as (body & Htrace1 & Hd).
    apply collect_response_returned in Hcollect
      as (body' & -> & Htrace1' & _).
    rewrite Htrace1 in Htrace1'. apply app_inv_head in Htrace1'. subst body'.
    apply bind_returned in Hrun as (r & w3 & Hjudge & Hrest).
    unfold judge in Hjudge. injection Hjudge as <- <-.
    apply IH in Hrest as (segs & reports & -> & Htrips & Htrace2).
    exists ((EvSendMessage (Json.dumps_entry "command" cmd) (next_response w)
             :: body
             ++ [EvAnalyze (next_response w +s+ replied body)]) :: segs),
           (analyze_output (next_response w +s+ replied body) :: reports).
    split; [now rewrite <- app_assoc |]. split.
    + constructor; [| exact Htrips]. exists (next_response w), body. auto.
    + rewrite Htrace2. cbn [log trace]. rewrite Htrace1. simpl.
      now rewrite <- !app_assoc.
Qed.

Lemma container_execute_exchanges (fuel : nat) (commands : list string)
      (w w' : world) (reports : list CommandReport) :
  container_execute_commands_sync fuel commands w = (Returned reports, w') ->
  exists segs,
    Forall3 remote_exchange commands segs reports /\
    trace w' = trace w ++ EvConnect :: concat segs ++ [EvDisconnect].
Proof.
  unfold container_execute_commands_sync, with_client, bind at 1, connect.
  destruct (for_remote_commands fuel commands [] _) as [[rs|e|] w2] eqn:Hrun;
    try discriminate.
  intros Hret. injection Hret as <- <-.
  apply for_remote_commands_exchanges in Hrun
    as (segs & reports' & -> & Htrips & Htrace).
  exists segs. split; [exact Htrips |].
  cbn [log trace]. rewrite Htrace. simpl. now rewrite <- !app_assoc.
Qed.

End Dialogues.

Section RepairReturning.

Context {host : Host} {agent : Agent}.

Variable filepath : string.

(** A repair loop that returned has asked for every failed report from
    index [i] on, and appended one batch of reports for each. *)
Lemma repair_loop_returned (g : GoalReport) (fuel : nat) :
  forall (i : nat) (w w' : world) (g' : GoalReport),
    command_reports g <> modify_command_reports g ->
    modify_command_reports g < length (store w) ->
    repair_loop filepath fuel g i w = (Returned g', w') ->
    exists mods,
      g' = g /\
      requests (trace w')
      = requests (trace w)
        ++ List.filter not_success
             (drop i (elements_at w (command_reports g))) /\
      Forall2 (fun r reports =>
                 length reports
                 = length (fetch_modify_file_commands filepath r))
              (List.filter not_success
                 (drop i (elements_at w (command_reports g)))) mods /\
      elements_at w' (modify_command_reports g)
      = elements_at w (modify_command_reports g) ++ concat mods /\
      spawned w' = length mods + spawned w /\
      connected w' = connected w.
Proof.
  induction fuel as [|fuel IH]; intros i w w' g' Hne Hvalid Hrun;
    [discriminate |].
  cbn [repair_loop] in Hrun. unfold bind at 1, deref at 1 in Hrun.
  destruct (elements_at w (command_reports g) !! i) as [r|] eqn:Hi.
  - rewrite (drop_S _ _ _ Hi). cbn [List.filter].
    destruct (not_success r) eqn:Hfail.
    + apply bind_returned in Hrun as (cmds & w1 & Hfetch & Hrun).
      unfold fetch_modify in Hfetch. injection Hfetch as <- <-.
      apply bind_returned in Hrun as (reports & w2 & Hexec & Hrun).
      apply local_execute_returned in Hexec
        as (banner & segs & _ & Htrips & Htrace1 & Hsp & Hco & Hstore).
      destruct (round_trips_no_request _ _ _ Htrips) as [Hreq Hlen].
      apply bind_returned in Hrun as (u & w3 & Hextend & Hrun).
      unfold extend in Hextend. injection Hextend as _ <-.
      apply IH in Hrun as (mods & -> & Hreqs & Hlens & Hmods & Hsp' & Hco').
      2: exact Hne.
      2:{ simpl. rewrite length_insert, Hstore. exact Hvalid. }
      assert (Hsame :
                elements_at
                  (mkWorld (spawned w2) (pos w2) (connected w2) (peer_pos w2)
                     (uuids w2)
                     (<[modify_command_reports g :=
                          elements_at w2 (modify_command_reports g)
                          ++ reports]> (store w2)) (trace w2))
                  (command_reports g)
                = elements_at w (command_reports g)).
      { unfold elements_at. simpl.
        rewrite list_lookup_insert_ne by congruence. now rewrite Hstore. }
      rewrite Hsame in Hreqs, Hlens.
      exists (reports :: mods). split; [reflexivity |].
      split; [| split; [| split; [| split]]].
      * rewrite Hreqs. cbn [trace]. rewrite Htrace1. cbn [log trace].
        rewrite <- app_assoc, !requests_app.
        change (requests ([EvFetchModify r] ++ ?l)) with (r :: requests l).
        change (requests (EvSpawn :: EvRead (Data banner) :: ?l))
          with (requests l).
        rewrite Hreq. now rewrite <- app_assoc.
      * constructor; [exact Hlen | exact Hlens].
      * rewrite Hmods. unfold elements_at. simpl.
        rewrite list_lookup_insert_eq by (rewrite Hstore; exact Hvalid).
        simpl. rewrite Hstore. now rewrite <- app_assoc.
      * rewrite Hsp'. simpl. rewrite Hsp. simpl. lia.
      * rewrite Hco'. simpl. rewrite Hco. reflexivity.
    + apply IH in Hrun; [exact Hrun | exact Hne | exact Hvalid].
  - injection Hrun as <- <-.
    rewrite drop_ge by (apply lookup_ge_None; exact Hi).
    exists []. simpl. rewrite !app_nil_r. repeat split. constructor.
Qed.

(** The same loop, with what every repair sent and got: a batch in a
    shell of its own for every failed report from index [i] on. *)
Lemma repair_loop_batches (g : GoalReport) (fuel : nat) :
  forall (i : nat) (w w' : world) (g' : GoalReport),
    command_reports g <> modify_command_reports g ->
    modify_command_reports g < length (store w) ->
    repair_loop filepath fuel g i w = (Returned g', w') ->
    exists stretches mods,
      Forall3 (repair_batch filepath)
              (List.filter not_success
                 (drop i (elements_at w (command_reports g))))
              stretches mods /\
      trace w' = trace w ++ concat stretches /\
      elements_at w' (modify_command_reports g)
      = elements_at w (modify_command_reports g) ++ concat mods /\
      spawned w' = length mods + spawned w /\
      connected w' = connected w /\ g' = g.
Proof.
  induction fuel as [|fuel IH]; intros i w w' g' Hne Hvalid Hrun;
    [discriminate |].
  cbn [repair_loop] in Hrun. unfold bind at 1, deref at 1 in Hrun.
  destruct (elements_at w (command_reports g) !! i) as [r|] eqn:Hi.
  - rewrite (drop_S _ _ _ Hi). cbn [List.filter].
    destruct (not_success r) eqn:Hfail.
    + apply bind_returned in Hrun as (cmds & w1 & Hfetch & Hrun).
      unfold fetch_modify in Hfetch. injection Hfetch as <- <-.
      apply bind_returned in Hrun as (reports & w2 & Hexec & Hrun).
      apply local_execute_exchanges in Hexec
        as (banner & segs & _ & Htrips & Htrace1 & Hsp & Hco & Hstore).
      apply bind_returned in Hrun as (u & w3 & Hextend & Hrun).
      unfold extend in Hextend. injection Hextend as _ <-.
      apply IH in Hrun
        as (stretches & mods & Hbatches & Htrace & Hmods & Hsp' & Hco' & ->).
      2: exact Hne.
      2:{ simpl. rewrite length_insert, Hstore. exact Hvalid. }
      assert (Hsame :
                elements_at
                  (mkWorld (spawned w2) (pos w2) (connected w2) (peer_pos w2)
                     (uuids w2)
                     (<[modify_command_reports g :=
                          elements_at w2 (modify_command_reports g)
                          ++ reports]> (store w2)) (trace w2))
                  (command_reports g)
                = elements_at w (command_reports g)).
      { unfold elements_at. simpl.
        rewrite list_lookup_insert_ne by congruence. now rewrite Hstore. }
      rewrite Hsame in Hbatches.
      exists ((EvFetchModify r :: EvSpawn :: EvRead (Data banner)
               :: concat segs) :: stretches), (reports :: mods).
      split; [| split; [| split; [| split; [| split]]]].
      * constructor; [| exact Hbatches]. now exists banner, segs.
      * rewrite Htrace. cbn [trace]. rewrite Htrace1. cbn [log trace concat].
        rewrite <- !app_assoc. reflexivity.
      * rewrite Hmods. unfold elements_at. simpl.
        rewrite list_lookup_insert_eq by (rewrite Hstore; exact Hvalid).
        simpl. rewrite Hstore. now rewrite <- app_assoc.
      * rewrite Hsp'. simpl. rewrite Hsp. simpl. lia.
      * rewrite Hco'. simpl. rewrite Hco. reflexivity.
      * reflexivity.
    + apply IH in Hrun; [exact Hrun | exact Hne | exact Hvalid].
  - injection Hrun as <- <-.
    rewrite drop_ge by (apply lookup_ge_None; exact Hi).
    exists [], []. simpl. rewrite !app_nil_r. repeat split. constructor.
Qed.


End RepairReturning.

(** ** The test doubles behave *)

Section FixtureFacts.

Lemma script_silent (l : list read_result) (n : nat) :
  length l <= n -> Fixtures.script l n = TIMEOUT.
Proof. intros Hn. unfold Fixtures.script. now apply nth_overflow. Qed.

Lemma script_pauses (l : list read_result) (n : nat) :
  exists m, n <= m /\ silent (Fixtures.script l m) = true /\
            silent (Fixtures.script l (S m)) = true.
Proof.
  exists (Nat.max n (length l)).
  split; [lia |]. rewrite !script_silent by lia. split; reflexivity.
Qed.

Lemma replies_pauses (l : list string) (n : nat) :
  exists m, n <= m /\ Fixtures.replies l m = EmptyString /\
            Fixtures.replies l (S m) = EmptyString.
Proof.
  exists (Nat.max n (length l)).
  split; [lia |]. unfold Fixtures.replies.
  rewrite !nth_overflow by lia. split; reflexivity.
Qed.

End FixtureFacts.

(** ** One quiet round of the local loop *)

Lemma quiet_round_local {host : Host} {agent : Agent} (fuel : nat)
      (marker acc text : string) (w w1 : world) :
  collect_output fuel marker EmptyString w = (Returned text, w1) ->
  Py.truthy text = true ->
  wants_input (provide_input text) = false ->
  finished (fst (collect_loop (S fuel) marker acc w)) ->
  exists rest,
    trace (snd (collect_loop (S fuel) marker acc w))
    = trace w1 ++ EvProvideInput text (provide_input text)
                :: EvRead (shell (live w1) (pos w1)) :: rest.
Proof.
  intros Hco Htruthy Hwant.
  rewrite (collect_loop_round _ _ _ _ _ _ Hco), Htruthy. cbn zeta.
  rewrite Hwant. intros Hfinished.
  destruct (collect_loop_reads_first _ _ _ _ Hfinished) as [rest Hrest].
  exists rest. rewrite Hrest. simpl. now rewrite <- app_assoc.
Qed.

Lemma sentinel_wants_nothing (a : string) :
  a = EmptyString \/ a = "breba-noop" -> wants_input a = false.
Proof. intros [-> | ->]; reflexivity. Qed.

(** ** What the shell reads from a quoted command *)

Section Quoting.





End Quoting.

(** ** A peer that never lets an examined response be empty *)

Section NoEnd.

Context {host : Host} {agent : Agent}.

Lemma collect_response_no_empty (fuel : nat) :
  forall (response : string) (w : world),
    Py.truthy response = true ->
    (forall i,
        peer (pred (connected w))
             (trailing (pred (connected w)) i response (peer_pos w))
        <> EmptyString) ->
    fst (collect_response fuel response w) = OutOfFuel.
Proof.
  induction fuel as [|fuel IH]; intros response w Htruthy Hall.
  - cbn [collect_response]. now rewrite Htruthy.
  - pose proof (Hall 0) as Hfirst. cbn [trailing] in Hfirst.
    assert (Hall' : forall i,
              peer (pred (connected w))
                   (trailing (pred (connected w)) i
                      (peer (pred (connected w))
                            (trailing_at response (peer_pos w)))
                      (S (trailing_at response (peer_pos w))))
              <> EmptyString)
      by (intros i; exact (Hall (S i))).
    unfold trailing_at in *.
    rewrite collect_response_step by exact Htruthy. cbn zeta.
    set (answer := provide_input response) in *.
    set (w1 := log (EvProvideInput response answer) w).
    destruct (wants_input answer).
    + set (w2 := received (EvSendMessage (Json.dumps_entry "input" answer)
                                         (next_response w1)) w1).
      set (w3 := received (EvReadResponse (next_response w2)) w2).
      pose proof (IH (next_response w2) w3 (not_empty_truthy _ Hfirst) Hall')
        as Hrest.
      destruct (collect_response fuel (next_response w2) w3) as [[a|e|] w4];
        try discriminate. reflexivity.
    + set (w3 := received (EvReadResponse (next_response w1)) w1).
      pose proof (IH (next_response w1) w3 (not_empty_truthy _ Hfirst) Hall')
        as Hrest.
      destruct (collect_response fuel (next_response w1) w3) as [[a|e|] w4];
        try discriminate. reflexivity.
Qed.

End NoEnd.

(** With an agent that always gives input, the trailing responses are
    every second one. *)
Lemma eager_trailing (k i : nat) :
  forall response p,
    trailing (host := Fixtures.echoing_host) (agent := Fixtures.eager)
             k i response p
    = S p + 2 * i.
Proof.
  induction i as [|i IH]; intros response p; cbn [trailing].
  - unfold trailing_at. cbn. lia.
  - rewrite IH. unfold trailing_at. cbn [provide_input Fixtures.eager].
    change (wants_input "y") with true. cbv iota. lia.
Qed.

(** * The claims *)

(** C2 (as amended).  [collect_output] returns at the first read that
    times out, meets the end of the stream, or delivers a chunk that holds
    the whole marker: when that is read number [k + 1] from where the shell
    stands, it returns after exactly [k + 1] reads, for every fuel above [k],
    with the accumulator followed by all chunks read, and it raises
    nothing; a timeout or end of stream yields the output collected so
    far.  The marker is looked for in each chunk by itself, and as long as
    no read stops the loop it reads on: after [k] such reads it has not
    returned. *)
Theorem collect_output_returns_at_first_stop {host : Host}
        (marker acc : string) (k : nat) (w : world) :
  (forall i, i < k -> stops marker (shell (live w) (pos w + i)) = false) ->
  (stops marker (shell (live w) (pos w + k)) = true ->
   forall fuel, k < fuel ->
     collect_output fuel marker acc w
     = (Returned (acc +s+ Py.join (map chunk (reads w (S k)))),
        after_reads w (S k))) /\
  collect_output k marker acc w = (OutOfFuel, after_reads w k).
Proof.
  intros Hbefore. split.
  - intros Hstop fuel Hfuel. now apply collect_output_first_stop.
  - now apply collect_output_no_stop.
Qed.

Lemma collect_output_returns_at_first_stop_witness :
  collect_output (host := Fixtures.split_host) 3 "Completed id0" EmptyString
                 Fixtures.spawned_once
  = (Returned "Completed id0",
     mkWorld 1 3 0 0 0 []
             [EvRead (Data "Comple"); EvRead (Data "ted id0"); EvRead TIMEOUT])
  /\
  collect_output (host := Fixtures.split_host) 2 "Completed id0" EmptyString
                 Fixtures.spawned_once
  = (OutOfFuel,
     mkWorld 1 2 0 0 0 [] [EvRead (Data "Comple"); EvRead (Data "ted id0")]).
Proof.
  destruct (collect_output_returns_at_first_stop
              (host := Fixtures.split_host) "Completed id0" EmptyString 2
              Fixtures.spawned_once) as (Hreturns & Hreads_on).
  - intros [|[|i]] Hi; [reflexivity | reflexivity | lia].
  - split; [| exact Hreads_on].
    apply Hreturns; [reflexivity | lia].
Defined.

(** C2, the claim as stated fails: the marker is complete after the second
    read, yet the collector goes on to a third read and returns only when
    that one times out. *)
Lemma split_marker_waits_for_a_timeout :
  Py.contains "Completed id0" ("Comple" +s+ "ted id0") = true /\
  Py.contains "Completed id0" "ted id0" = false /\
  collect_output (host := Fixtures.split_host) 9 "Completed id0" EmptyString
                 Fixtures.spawned_once
  = (Returned "Completed id0",
     mkWorld 1 3 0 0 0 []
             [EvRead (Data "Comple"); EvRead (Data "ted id0"); EvRead TIMEOUT]).
Proof. repeat split. Qed.

(** C3 (as amended).  When the collector returned new output and the agent
    answers with the sentinel, the executor sends nothing for that round and
    goes on collecting: in every run of the loop that is not cut short, the
    consultation is followed at once by a further read of the shell.  The
    loop stops collecting for the command only after a collection attempt
    that brought no output: the trace of a loop that returned ends with the
    reads of such an attempt. *)
Theorem noop_answer_keeps_collecting {host : Host} {agent : Agent}
        (fuel : nat) (marker acc new : string) (w w1 : world) :
  collect_output fuel marker EmptyString w = (Returned new, w1) ->
  Py.truthy new = true ->
  provide_input new = "breba-noop" ->
  (finished (fst (collect_loop (S fuel) marker acc w)) ->
   exists rest,
     trace (snd (collect_loop (S fuel) marker acc w))
     = trace w1 ++ EvProvideInput new "breba-noop"
                 :: EvRead (shell (live w1) (pos w1)) :: rest) /\
  (forall out w',
      collect_loop (S fuel) marker acc w = (Returned out, w') ->
      exists before w0 n,
        trace w0 = trace w ++ before /\ live w0 = live w /\ 0 < n /\
        Py.join (map chunk (reads w0 n)) = EmptyString /\
        trace w' = trace w0 ++ map EvRead (reads w0 n)).
Proof.
  intros Hco Htruthy Hnoop. split.
  - intros Hfinished.
    destruct (quiet_round_local fuel marker acc new w w1 Hco Htruthy)
      as [rest Hrest]; [now rewrite Hnoop | exact Hfinished |].
    exists rest. now rewrite Hrest, Hnoop.
  - intros out w' Hrun. exact (collect_loop_ends_on_nothing _ _ _ _ _ _ Hrun).
Qed.

Lemma noop_answer_keeps_collecting_witness :
  exists rest,
    trace (snd (collect_loop (host := Fixtures.hello_host)
                             (agent := Fixtures.calm)
                             9 "Completed id0" EmptyString Fixtures.greeted))
    = [EvSpawn; EvRead (Data "banner"); EvRead (Data "hello"); EvRead TIMEOUT]
      ++ EvProvideInput "hello" "breba-noop" :: EvRead TIMEOUT :: rest.
Proof.
  apply (noop_answer_keeps_collecting
           (host := Fixtures.hello_host) (agent := Fixtures.calm)
           8 "Completed id0" EmptyString "hello" Fixtures.greeted
           (mkWorld 1 3 0 0 0 []
              [EvSpawn; EvRead (Data "banner"); EvRead (Data "hello");
               EvRead TIMEOUT])).
  - reflexivity.
  - reflexivity.
  - reflexivity.
  - exact I.
Defined.

(** C3, the claim as stated fails: after the answer that no input is
    needed, the executor does not stop but makes a further collection
    attempt, the read that times out at the end of this trace. *)
Lemma noop_answer_is_followed_by_a_read :
  collect_loop (host := Fixtures.hello_host) (agent := Fixtures.calm)
               9 "Completed id0" EmptyString Fixtures.greeted
  = (Returned "hello",
     mkWorld 1 4 0 0 0 []
             [EvSpawn; EvRead (Data "banner");
              EvRead (Data "hello"); EvRead TIMEOUT;
              EvProvideInput "hello" "breba-noop";
              EvRead TIMEOUT]).
Proof. reflexivity. Qed.


(** C9.  When the agent's instruction is the empty string, both gateways
    return [None], as they do for the sentinel: the consultation is all
    that happens, and in both executors the next thing done is the next
    read, so that nothing is sent into the session. *)
Theorem empty_answer_is_no_input {host : Host} {agent : Agent}
        (text : string) (w : world) :
  provide_input text = EmptyString \/ provide_input text = "breba-noop" ->
  get_input_text text w
  = (Returned None, log (EvProvideInput text (provide_input text)) w) /\
  get_input_message text w
  = (Returned None, log (EvProvideInput text (provide_input text)) w) /\
  (forall fuel marker acc w0,
      collect_output fuel marker EmptyString w0 = (Returned text, w) ->
      Py.truthy text = true ->
      finished (fst (collect_loop (S fuel) marker acc w0)) ->
      exists rest,
        trace (snd (collect_loop (S fuel) marker acc w0))
        = trace w ++ EvProvideInput text (provide_input text)
                  :: EvRead (shell (live w) (pos w)) :: rest) /\
  (forall fuel,
      Py.truthy text = true ->
      exists rest,
        trace (snd (collect_response (S fuel) text w))
        = trace w ++ EvProvideInput text (provide_input text)
                  :: EvReadResponse (next_response w) :: rest).
Proof.
  intros Hanswer. pose proof (sentinel_wants_nothing _ Hanswer) as Hwant.
  split; [now rewrite get_input_text_run, Hwant |].
  split; [now rewrite get_input_message_run, Hwant |].
  split.
  - intros fuel marker acc w0 Hco Htruthy Hfinished.
    now apply (quiet_round_local fuel marker acc text w0 w).
  - intros fuel Htruthy. now apply collect_response_reads_next.
Qed.

Lemma empty_answer_is_no_input_witness :
  get_input_text (agent := Fixtures.mute) "Continue? [y/n]" world0
  = (Returned None,
     log (EvProvideInput "Continue? [y/n]" EmptyString) world0) /\
  get_input_message (agent := Fixtures.mute) "Continue? [y/n]" world0
  = (Returned None,
     log (EvProvideInput "Continue? [y/n]" EmptyString) world0).
Proof.
  destruct (empty_answer_is_no_input
              (host := Fixtures.hello_host) (agent := Fixtures.mute)
              "Continue? [y/n]" world0 (or_introl eq_refl))
    as (Htext & Hmessage & _).
  split; [exact Htext | exact Hmessage].
Defined.

(** C10.  When the first read of the freshly spawned shell times out, the
    local executor raises that timeout with nothing done but the spawn and
    the read: no command was submitted and no report exists.  When the
    first read delivers data, no exception leaves the executor, whatever
    the later reads do: the start-up read is the only unguarded one. *)
Theorem startup_timeout_fails_the_batch {host : Host} {agent : Agent}
        (fuel : nat) (commands : list string) (w : world) :
  (shell (spawned w) 0 = TIMEOUT ->
   local_execute_commands_sync fuel commands w
   = (Raised ExcTIMEOUT,
      mkWorld (S (spawned w)) 1 (connected w) (peer_pos w) (uuids w)
              (store w) (trace w ++ [EvSpawn; EvRead TIMEOUT]))) /\
  (forall banner,
      shell (spawned w) 0 = Data banner ->
      forall e, fst (local_execute_commands_sync fuel commands w) <> Raised e).
Proof.
  split.
  - intros Hsilent.
    unfold local_execute_commands_sync, bind, spawn, read_nonblocking.
    cbn [live spawned pos pred connected peer_pos uuids store trace].
    rewrite Hsilent. now rewrite <- app_assoc.
  - intros banner Hbanner e.
    unfold local_execute_commands_sync, bind, spawn, read_nonblocking.
    cbn [live spawned pos pred connected peer_pos uuids store trace].
    rewrite Hbanner. apply for_commands_never_raises.
Qed.

Lemma startup_timeout_fails_the_batch_witness :
  local_execute_commands_sync (host := Fixtures.silent_host)
                              (agent := Fixtures.calm)
                              9 ["echo hello"; "false"] world0
  = (Raised ExcTIMEOUT, mkWorld 1 1 0 0 0 [] [EvSpawn; EvRead TIMEOUT]) /\
  (forall e,
      fst (local_execute_commands_sync (host := Fixtures.hello_host)
                                       (agent := Fixtures.calm)
                                       9 ["echo hello"; "false"] world0)
      <> Raised e).
Proof.
  split.
  - exact (proj1 (startup_timeout_fails_the_batch
                    (host := Fixtures.silent_host) (agent := Fixtures.calm)
                    9 ["echo hello"; "false"] world0) eq_refl).
  - exact (proj2 (startup_timeout_fails_the_batch
                    (host := Fixtures.hello_host) (agent := Fixtures.calm)
                    9 ["echo hello"; "false"] world0) "banner" eq_refl).
Defined.

(** C4 (as amended).  [collect_response] examines the response it is
    called on and then every trailing response; the reply to an injected
    input is concatenated unexamined.  When the first empty one among the
    trailing responses is trailing response number [n], the recursion ends
    there, for every fuel above [n]: it returns the initial response
    followed by every response the peer sent before that empty one (replies
    to input and non-empty trailing responses alike), and has read nothing
    beyond it.  On an empty initial response it returns the empty string at
    once.  When no trailing response is empty the recursion does not end,
    whatever else the peer sends.  In particular, when the peer answers a
    command with partial and then twice with nothing, the result is
    partial, whatever the agent says. *)
Theorem collect_response_stops_at_first_empty {host : Host} {agent : Agent}
        (n : nat) (response : string) (w : world) :
  (Py.truthy response = true ->
   (forall i, i < n ->
      peer (pred (connected w))
           (trailing (pred (connected w)) i response (peer_pos w))
      <> EmptyString) ->
   peer (pred (connected w))
        (trailing (pred (connected w)) n response (peer_pos w))
   = EmptyString ->
   exists w',
     (forall fuel, n < fuel ->
        collect_response fuel response w
        = (Returned
             (response
              +s+ Py.join
                    (responses_from
                       (pred (connected w)) (peer_pos w)
                       (trailing (pred (connected w)) n response (peer_pos w)
                        - peer_pos w))),
           w')) /\
     peer_pos w'
     = S (trailing (pred (connected w)) n response (peer_pos w)) /\
     same_connection w w') /\
  (forall fuel, collect_response fuel EmptyString w = (Returned EmptyString, w))
  /\
  (Py.truthy response = true ->
   (forall i,
      peer (pred (connected w))
           (trailing (pred (connected w)) i response (peer_pos w))
      <> EmptyString) ->
   forall fuel, fst (collect_response fuel response w) = OutOfFuel) /\
  (forall fuel,
     fst (collect_response (host := Fixtures.partial_host) (S fuel)
                           "partial" Fixtures.asked)
     = Returned "partial").
Proof.
  split; [| split; [| split]].
  - intros Htruthy Hbefore Hempty.
    exact (collect_response_first_empty n response w Htruthy Hbefore Hempty).
  - intros fuel. apply collect_response_empty.
  - intros Htruthy Hall fuel. now apply collect_response_no_empty.
  - intros fuel.
    rewrite (collect_response_step (host := Fixtures.partial_host))
      by reflexivity.
    cbn zeta. destruct (wants_input (provide_input "partial")).
    + change (next_response (host := Fixtures.partial_host)
                (received
                   (EvSendMessage
                      (Json.dumps_entry "input" (provide_input "partial"))
                      (next_response (host := Fixtures.partial_host)
                         (log (EvProvideInput "partial"
                                 (provide_input "partial")) Fixtures.asked)))
                   (log (EvProvideInput "partial" (provide_input "partial"))
                      Fixtures.asked)))
        with EmptyString.
      rewrite collect_response_empty. reflexivity.
    + change (next_response (host := Fixtures.partial_host)
                (log (EvProvideInput "partial" (provide_input "partial"))
                   Fixtures.asked))
        with EmptyString.
      rewrite collect_response_empty. reflexivity.
Qed.

Lemma collect_response_stops_at_first_empty_witness :
  exists w',
    (forall fuel, 1 < fuel ->
       collect_response (host := Fixtures.talking_host)
                        (agent := Fixtures.eager) fuel "partial"
                        (mkWorld 0 0 1 0 0 [] [])
       = (Returned ("partial" +s+ "ok" +s+ "more" +s+ "fine"), w')) /\
    peer_pos w' = 4 /\ same_connection (mkWorld 0 0 1 0 0 [] []) w'.
Proof.
  destruct (collect_response_stops_at_first_empty
              (host := Fixtures.talking_host) (agent := Fixtures.eager)
              1 "partial" (mkWorld 0 0 1 0 0 [] [])) as (Hgeneral & _).
  apply Hgeneral.
  - reflexivity.
  - intros [|i] Hi; [discriminate | lia].
  - reflexivity.
Defined.

(** C4, the claim as stated fails.  The reply to an injected input is not
    examined: when it is empty the recursion goes on, and the result holds
    what came after the first empty response; and with a peer that sends
    nothing and x in turn, so that an empty response occurs again and
    again, the recursion does not end when the agent gives input every
    time, since every empty response is the reply to an input. *)
Lemma empty_reply_to_an_input_does_not_stop :
  collect_response (host := Fixtures.injected_host) (agent := Fixtures.eager)
                   9 "partial" Fixtures.asked
  = (Returned ("partial" +s+ "more" +s+ "fine"),
     mkWorld 0 0 1 5 0 []
       [EvProvideInput "partial" "y";
        EvSendMessage (Json.dumps_entry "input" "y") EmptyString;
        EvReadResponse "more";
        EvProvideInput "more" "y";
        EvSendMessage (Json.dumps_entry "input" "y") "fine";
        EvReadResponse EmptyString]) /\
  peer (Host := Fixtures.echoing_host) 0 1 = EmptyString /\
  (forall fuel,
      fst (collect_response (host := Fixtures.echoing_host)
                            (agent := Fixtures.eager)
                            fuel "partial" Fixtures.asked)
      = OutOfFuel).
Proof.
  split; [vm_compute; reflexivity |]. split; [reflexivity |].
  intros fuel.
  apply (collect_response_no_empty (host := Fixtures.echoing_host)
                                   (agent := Fixtures.eager));
    [reflexivity |].
  intros i. rewrite eager_trailing.
  cbn [peer Fixtures.echoing_host connected peer_pos Fixtures.asked pred].
  replace (2 + 2 * i) with (2 * S i) by lia.
  now rewrite Nat.even_even.
Qed.

(** C1 (as amended).  For every batch, a run of either executor that
    returns, returns exactly one report per command: its trace is the
    session's opening followed by the commands' round trips in the order of
    the batch, each one complete before the next begins: the submission,
    the collection round by round (in the shell at least one read; on the
    connection the consultation and the trailing read for every response
    that is not empty), and the judgement of what the collection captured,
    which is the [i]-th report.  Not every batch gives a list: the local
    executor returns none when the first read of its shell brings no data.
    The run does return, for all fuel from some amount on: the local one
    when the freshly spawned shell greets (its first read delivers data)
    and pauses again and again, the container one when the peer pauses
    again and again. *)
Theorem executors_report_each_command_in_order {host : Host} {agent : Agent}
        (commands : list string) (w : world) :
  (forall fuel reports w',
      local_execute_commands_sync fuel commands w = (Returned reports, w') ->
      exists banner segs,
        length reports = length commands /\
        Forall3 local_exchange commands segs reports /\
        trace w'
        = trace w ++ [EvSpawn; EvRead (Data banner)] ++ concat segs) /\
  (forall fuel reports w',
      container_execute_commands_sync fuel commands w
      = (Returned reports, w') ->
      exists segs,
        length reports = length commands /\
        Forall3 remote_exchange commands segs reports /\
        trace w' = trace w ++ [EvConnect] ++ concat segs ++ [EvDisconnect]) /\
  (silent (shell (spawned w) 0) = true ->
   forall fuel reports w',
     local_execute_commands_sync fuel commands w <> (Returned reports, w')) /\
  (forall banner,
      shell (spawned w) 0 = Data banner ->
      shell_pauses (spawned w) ->
      runs_in_order (fun fuel => local_execute_commands_sync fuel commands)
                    local_exchange [EvSpawn; EvRead (Data banner)] []
                    commands w) /\
  (peer_pauses (connected w) ->
   runs_in_order (fun fuel => container_execute_commands_sync fuel commands)
                 remote_exchange [EvConnect] [EvDisconnect] commands w).
Proof.
  split; [| split; [| split; [| split]]].
  - intros fuel reports w' Hrun.
    apply local_execute_exchanges in Hrun
      as (banner & segs & _ & Htrips & Htrace & _).
    exists banner, segs. split; [| split; [exact Htrips | exact Htrace]].
    symmetry. exact (Forall3_length_lr _ _ _ _ Htrips).
  - intros fuel reports w' Hrun.
    apply container_execute_exchanges in Hrun as (segs & Htrips & Htrace).
    exists segs. split; [| split; [exact Htrips | exact Htrace]].
    symmetry. exact (Forall3_length_lr _ _ _ _ Htrips).
  - intros Hsilent fuel reports w' Hrun.
    apply local_execute_exchanges in Hrun as (banner & segs & Hbanner & _).
    rewrite Hbanner in Hsilent. discriminate.
  - intros banner Hbanner Hshell.
    destruct (local_execute_converges commands banner w Hbanner Hshell)
      as (f0 & segs0 & reports & w' & Hrun & _).
    destruct (local_execute_exchanges _ _ _ _ _ (Hrun f0 (le_n _)))
      as (banner' & segs & Hbanner' & Htrips & Htrace & _).
    rewrite Hbanner in Hbanner'. injection Hbanner' as <-.
    exists f0, segs, reports, w'.
    split; [exact Hrun |]. split; [| split; [exact Htrips |]].
    + symmetry. exact (Forall3_length_lr _ _ _ _ Htrips).
    + rewrite Htrace, app_nil_r. reflexivity.
  - intros Hpeer.
    destruct (container_execute_converges commands w Hpeer)
      as (f0 & segs0 & reports & w' & Hrun & _).
    destruct (container_execute_exchanges _ _ _ _ _ (Hrun f0 (le_n _)))
      as (segs & Htrips & Htrace).
    exists f0, segs, reports, w'.
    split; [exact Hrun |]. split; [| split; [exact Htrips |]].
    + symmetry. exact (Forall3_length_lr _ _ _ _ Htrips).
    + rewrite Htrace. reflexivity.
Qed.

Lemma executors_report_each_command_in_order_witness :
  runs_in_order (fun fuel =>
                   local_execute_commands_sync
                     (host := Fixtures.hello_host) (agent := Fixtures.calm)
                     fuel ["echo hello"; "false"])
                (local_exchange (agent := Fixtures.calm))
                [EvSpawn; EvRead (Data "banner")] []
                ["echo hello"; "false"] world0 /\
  runs_in_order (fun fuel =>
                   container_execute_commands_sync
                     (host := Fixtures.hello_host) (agent := Fixtures.calm)
                     fuel ["echo hello"; "false"])
                (remote_exchange (agent := Fixtures.calm))
                [EvConnect] [EvDisconnect] ["echo hello"; "false"] world0.
Proof.
  destruct (executors_report_each_command_in_order
              (host := Fixtures.hello_host) (agent := Fixtures.calm)
              ["echo hello"; "false"] world0)
    as (_ & _ & _ & Hlocal & Hcontainer).
  split.
  - apply (Hlocal "banner"); [reflexivity |]. intros n. apply script_pauses.
  - apply Hcontainer. intros n. apply replies_pauses.
Defined.

(** C1, the claim as stated fails: a batch of two commands for which the
    local executor returns no list at all.  The shell it spawns prints
    nothing, the read that is to clear the start-up messages times out
    outside of any handler, and the TIMEOUT ends the run before the first
    command is sent. *)
Lemma batch_in_a_mute_shell_yields_no_list :
  local_execute_commands_sync (host := Fixtures.silent_host)
                              (agent := Fixtures.calm)
                              9 ["echo hello"; "false"] world0
  = (Raised ExcTIMEOUT, mkWorld 1 1 0 0 0 [] [EvSpawn; EvRead TIMEOUT]).
Proof. reflexivity. Qed.




(** C5, the code at a batch of one command.  The container executor ends
    its run by leaving the connection ([EvDisconnect] closes its trace); the
    local executor spawns its shell and returns after the judgement of the
    last command, or raises at start-up, without another action on the
    shell: the code has no call that closes or terminates the process. *)
Theorem local_shell_is_left_open :
  local_execute_commands_sync (host := Fixtures.hello_host)
                              (agent := Fixtures.calm) 9 ["echo hello"] world0
  = (Returned [Fixtures.verdict "hello"],
     mkWorld 1 4 0 0 1 []
       [EvSpawn; EvRead (Data "banner");
        EvSendline ("echo " +s+ Shlex.quote "echo hello" +s+ Py.LF);
        EvSendline "echo hello && echo Completed id0";
        EvRead (Data "hello"); EvRead TIMEOUT;
        EvProvideInput "hello" "breba-noop"; EvRead TIMEOUT;
        EvAnalyze "hello"]) /\
  local_execute_commands_sync (host := Fixtures.silent_host)
                              (agent := Fixtures.calm) 9 ["echo hello"] world0
  = (Raised ExcTIMEOUT, mkWorld 1 1 0 0 0 [] [EvSpawn; EvRead TIMEOUT]) /\
  container_execute_commands_sync (host := Fixtures.hello_host)
                                  (agent := Fixtures.calm) 9 ["echo hello"]
                                  world0
  = (Returned [Fixtures.verdict "partial"],
     mkWorld 0 0 1 2 0 []
       [EvConnect;
        EvSendMessage (Json.dumps_entry "command" "echo hello") "partial";
        EvProvideInput "partial" "breba-noop"; EvReadResponse EmptyString;
        EvAnalyze "partial"; EvDisconnect]).
Proof. repeat split. Qed.

(** C6, the code at a goal with one command.  The executing stage builds a
    new record with new list objects and leaves the lists of the record it
    replaces as they were.  The repair stage copies the record it is given,
    but the copy refers to the same list objects, and the repair reports
    are appended in place: the list of modification reports of the record
    the executing stage had returned is empty before the repair stage and
    holds the repair report after it. *)
Theorem repair_extends_the_list_of_the_prior_record :
  exists (executed : AgentState) (prior : GoalReport) (w1 w2 : world),
    execute_commands (host := Fixtures.failing_host) (agent := Fixtures.calm)
                     9 Fixtures.new_state Fixtures.new_world
    = (Returned executed, w1) /\
    store w1 !! 0 = store Fixtures.new_world !! 0 /\
    store w1 !! 1 = store Fixtures.new_world !! 1 /\
    goal_reports executed = [prior] /\
    elements_at w1 (modify_command_reports prior) = [] /\
    execute_mutator_commands (host := Fixtures.failing_host)
                             (agent := Fixtures.calm)
                             "README.md" 9 executed w1
    = (Returned executed, w2) /\
    elements_at w2 (modify_command_reports prior) = [Fixtures.verdict "hello"].
Proof.
  eexists _, (mkGoalReport "install" "install x" 2 3), _, _.
  split; [vm_compute; reflexivity |].
  do 4 (split; [reflexivity |]).
  split; [vm_compute; reflexivity | reflexivity].
Qed.

(** * Further properties of the code *)

(** ** Splitting and stripping the model's reply *)

Section Parsing.

Lemma split_not_nil (s : string) :
  exists piece pieces, Str.split s = piece :: pieces.
Proof.
  induction s as [|c s (piece & pieces & IH)]; simpl; [now eexists _, _ |].
  destruct (Str.is_comma c); [now eexists _, _ |].
  rewrite IH. now eexists _, _.
Qed.

Lemma split_length (s : string) :
  length (Str.split s) = S (Str.commas s).
Proof.
  induction s as [|c s IH]; simpl; [reflexivity |].
  destruct (Str.is_comma c); simpl; [now rewrite IH |].
  destruct (split_not_nil s) as (piece & pieces & E). rewrite E in *.
  simpl in *. exact IH.
Qed.

Lemma split_pieces_without_comma (s : string) :
  Forall (fun piece => Str.commas piece = 0) (Str.split s).
Proof.
  induction s as [|c s IH]; simpl; [now repeat constructor |].
  destruct (Str.is_comma c) eqn:Hc; [now constructor |].
  destruct (split_not_nil s) as (piece & pieces & E). rewrite E in *.
  inversion IH as [|? ? Hpiece Hpieces]; subst.
  constructor; [| exact Hpieces]. simpl. now rewrite Hc.
Qed.

Lemma join_split (s : string) : Str.join "," (Str.split s) = s.
Proof.
  induction s as [|c s IH]; simpl; [reflexivity |].
  destruct (Str.is_comma c) eqn:Hc.
  - apply Ascii.eqb_eq in Hc. subst c.
    destruct (split_not_nil s) as (piece & pieces & E). rewrite E in *.
    change (Str.join "," (EmptyString :: piece :: pieces))
      with (String ","%char (Str.join "," (piece :: pieces))).
    now rewrite IH.
  - destruct (split_not_nil s) as (piece & pieces & E). rewrite E in *.
    destruct pieces as [|next pieces]; simpl in *; now rewrite IH.
Qed.

Lemma lstrip_without_comma (s : string) :
  Str.commas s = 0 -> Str.commas (Str.lstrip s) = 0.
Proof.
  induction s as [|c s IH]; simpl; [reflexivity |]. intros H.
  destruct (Str.is_space c); [apply IH; lia | exact H].
Qed.

Lemma rstrip_without_comma (s : string) :
  Str.commas s = 0 -> Str.commas (Str.rstrip s) = 0.
Proof.
  induction s as [|c s IH]; simpl; [reflexivity |]. intros H.
  assert (Hc : (if Str.is_comma c then 1 else 0) = 0) by lia.
  specialize (IH ltac:(lia)).
  destruct (Str.rstrip s) as [|c' rest].
  - destruct (Str.is_space c); simpl; [reflexivity | lia].
  - simpl in *. lia.
Qed.

Lemma lstrip_first (s : string) (c : ascii) :
  Str.first (Str.lstrip s) = Some c -> Str.is_space c = false.
Proof.
  induction s as [|a s IH]; simpl; [discriminate |].
  destruct (Str.is_space a) eqn:Ha; [exact IH |].
  simpl. intros E. injection E as <-. exact Ha.
Qed.

Lemma rstrip_first (s : string) (c : ascii) :
  Str.first (Str.rstrip s) = Some c -> Str.first s = Some c.
Proof.
  destruct s as [|a s]; simpl; [discriminate |].
  destruct (Str.rstrip s); [destruct (Str.is_space a) |]; simpl;
    congruence.
Qed.

Lemma rstrip_final (s : string) (c : ascii) :
  Str.final (Str.rstrip s) = Some c -> Str.is_space c = false.
Proof.
  induction s as [|a s IH]; simpl; [discriminate |].
  destruct (Str.rstrip s) as [|c' rest].
  - destruct (Str.is_space a) eqn:Ha; simpl; [discriminate |].
    intros E. injection E as <-. exact Ha.
  - exact IH.
Qed.

Lemma strip_trimmed (s : string) : Str.trimmed (Str.strip s) = true.
Proof.
  unfold Str.trimmed, Str.strip.
  destruct (Str.first (Str.rstrip (Str.lstrip s))) as [a|] eqn:Hfirst;
    [| reflexivity].
  destruct (Str.final (Str.rstrip (Str.lstrip s))) as [b|] eqn:Hfinal;
    [| reflexivity].
  apply rstrip_first, lstrip_first in Hfirst.
  apply rstrip_final in Hfinal. now rewrite Hfirst, Hfinal.
Qed.

Lemma final_of_cons (s : string) :
  forall c, Str.final (String c s) <> None.
Proof.
  induction s as [|a s IH]; intros c; [discriminate |].
  change (Str.final (String c (String a s))) with (Str.final (String a s)).
  apply IH.
Qed.

Lemma final_cons (c : ascii) (s : string) :
  Str.final (String c s)
  = match Str.final s with Some b => Some b | None => Some c end.
Proof.
  destruct s as [|a s]; [reflexivity |].
  change (Str.final (String c (String a s))) with (Str.final (String a s)).
  destruct (Str.final (String a s)) eqn:E; [reflexivity |].
  now apply final_of_cons in E.
Qed.

Lemma rstrip_same (s : string) :
  (forall c, Str.final s = Some c -> Str.is_space c = false) ->
  Str.rstrip s = s.
Proof.
  induction s as [|a s IH]; [reflexivity |]. intros Hfinal.
  rewrite final_cons in Hfinal. cbn [Str.rstrip].
  destruct s as [|b s].
  - simpl in *. now rewrite (Hfinal a eq_refl).
  - rewrite IH; [reflexivity |]. intros c Hc. apply Hfinal. now rewrite Hc.
Qed.

Lemma strip_same (s : string) : Str.trimmed s = true -> Str.strip s = s.
Proof.
  unfold Str.trimmed, Str.strip. intros Htrimmed.
  destruct s as [|a s]; [reflexivity |].
  cbn [Str.first] in Htrimmed. rewrite final_cons in Htrimmed.
  assert (Hboth : Str.is_space a = false /\
                  forall c, Str.final (String a s) = Some c ->
                            Str.is_space c = false).
  { rewrite final_cons.
    destruct (Str.final s) as [b|]; apply andb_true_iff in Htrimmed;
      destruct Htrimmed as [Ha Hb]; apply negb_true_iff in Ha, Hb;
      (split; [exact Ha |]); intros c E; injection E as <-; assumption. }
  destruct Hboth as [Ha Hfinal].
  cbn [Str.lstrip]. rewrite Ha. now apply rstrip_same.
Qed.

(** A piece that follows a comma and a space in the reply. *)
Lemma strip_after_space (s : string) :
  Str.trimmed s = true -> Str.strip (" " +s+ s) = s.
Proof.
  intros Htrimmed. unfold Str.strip.
  change (Str.lstrip (" " +s+ s)) with (Str.lstrip s).
  exact (strip_same s Htrimmed).
Qed.

Lemma split_without_comma (s : string) :
  Str.commas s = 0 -> Str.split s = [s].
Proof.
  induction s as [|c s IH]; simpl; [reflexivity |]. intros H.
  destruct (Str.is_comma c); [lia |]. now rewrite IH.
Qed.

Lemma split_at_comma (piece rest : string) :
  Str.commas piece = 0 ->
  Str.split (piece +s+ String ","%char rest) = piece :: Str.split rest.
Proof.
  induction piece as [|c piece IH]; simpl; [reflexivity |]. intros H.
  destruct (Str.is_comma c); [lia |]. now rewrite IH.
Qed.

Lemma parse_joined (pad : bool) (cmds : list string) :
  forall cmd,
    Forall (fun c => Str.commas c = 0 /\ Str.trimmed c = true) (cmd :: cmds) ->
    parse_commands ((if pad then " " else EmptyString)
                    +s+ Str.join ", " (cmd :: cmds))
    = cmd :: cmds.
Proof.
  revert pad. induction cmds as [|next cmds IH]; intros pad cmd Hall;
    inversion Hall as [|? ? [Hcommas Htrimmed] Hrest]; subst.
  - unfold parse_commands. cbn [Str.join].
    rewrite split_without_comma by (destruct pad; simpl; assumption).
    cbn [map]. f_equal.
    destruct pad; [now apply strip_after_space | now apply strip_same].
  - unfold parse_commands in *.
    replace ((if pad then " " else EmptyString)
             +s+ Str.join ", " (cmd :: next :: cmds))
      with (((if pad then " " else EmptyString) +s+ cmd)
            +s+ String ","%char (" " +s+ Str.join ", " (next :: cmds)))
      by (rewrite cat_assoc; reflexivity).
    rewrite split_at_comma by (destruct pad; simpl; assumption).
    cbn [map]. rewrite (IH true next Hrest). f_equal.
    destruct pad; [now apply strip_after_space | now apply strip_same].
Qed.

Lemma parse_joined_tight (cmds : list string) :
  forall cmd,
    Forall (fun c => Str.commas c = 0 /\ Str.trimmed c = true) (cmd :: cmds) ->
    parse_commands (Str.join "," (cmd :: cmds)) = cmd :: cmds.
Proof.
  induction cmds as [|next cmds IH]; intros cmd Hall;
    inversion Hall as [|? ? [Hcommas Htrimmed] Hrest]; subst.
  - unfold parse_commands. cbn [Str.join].
    rewrite split_without_comma by assumption.
    cbn [map]. f_equal. now apply strip_same.
  - unfold parse_commands in *.
    replace (Str.join "," (cmd :: next :: cmds))
      with (cmd +s+ String ","%char (Str.join "," (next :: cmds)))
      by reflexivity.
    rewrite split_at_comma by assumption.
    cbn [map]. rewrite (IH next Hrest). f_equal. now apply strip_same.
Qed.

Lemma parsed_pieces (content : string) :
  Forall (fun cmd => Str.commas cmd = 0 /\ Str.trimmed cmd = true)
         (parse_commands content).
Proof.
  unfold parse_commands.
  pose proof (split_pieces_without_comma content) as Hpieces.
  induction Hpieces as [|piece pieces Hpiece _ IH]; constructor;
    [| exact IH].
  split; [| apply strip_trimmed].
  unfold Str.strip. now apply rstrip_without_comma, lstrip_without_comma.
Qed.

End Parsing.

(** ** The stages of the graph *)

Section Stages.

Context {host : Host} {agent : Agent} {chat : Chat}.

Variable filepath : string.

Lemma keeps_lists_refl (w : world) : keeps_lists w w.
Proof. intros ref _. reflexivity. Qed.

Lemma keeps_lists_trans (w1 w2 w3 : world) :
  length (store w1) <= length (store w2) ->
  keeps_lists w1 w2 -> keeps_lists w2 w3 -> keeps_lists w1 w3.
Proof.
  intros Hlen H12 H23 ref Href. rewrite H23 by lia. now apply H12.
Qed.

Lemma keeps_lists_app (w w' : world) (l : list (list CommandReport)) :
  store w' = store w ++ l -> keeps_lists w w'.
Proof. intros E ref Href. rewrite E. now apply lookup_app_l. Qed.

Lemma container_execute_frame (fuel : nat) (commands : list string)
      (w w' : world) (reports : list CommandReport) :
  container_execute_commands_sync fuel commands w = (Returned reports, w') ->
  store w' = store w /\ spawned w' = spawned w /\ pos w' = pos w /\
  connected w' = S (connected w) /\ uuids w' = uuids w.
Proof.
  unfold container_execute_commands_sync, with_client, bind at 1, connect.
  destruct (for_remote_commands fuel commands [] _) as [[rs|e|] w2] eqn:Hrun;
    try discriminate.
  intros Hret. injection Hret as <- <-.
  apply for_remote_commands_returned in Hrun
    as (segs & reports' & _ & _ & _ & Hframe).
  conn.
Qed.

(** A run of the executing stage that returns. *)
Lemma execute_commands_returned (fuel : nat) (state state' : AgentState)
      (w w' : world) :
  execute_commands fuel state w = (Returned state', w') ->
  exists g segs reports,
    last (goal_reports state) = Some g /\
    Forall3 remote_round_trip
            (map command (elements_at w (command_reports g))) segs reports /\
    trace w' = trace w ++ EvConnect :: concat segs ++ [EvDisconnect] /\
    store w' = store w ++ [reports; []] /\
    state' = mkAgentState (messages state) (goals state)
               (removelast (goal_reports state)
                ++ [mkGoalReport (goal_name g) (goal_description g)
                                 (length (store w)) (S (length (store w)))]) /\
    spawned w' = spawned w /\ connected w' = S (connected w).
Proof.
  unfold execute_commands. intros Hrun.
  apply bind_returned in Hrun as (g & w0 & Hlast & Hrun).
  unfold last_goal_report in Hlast.
  destruct (last (goal_reports state)) as [g0|] eqn:Hg; [| discriminate].
  injection Hlast as <- <-.
  apply bind_returned in Hrun as (old & w0 & Hderef & Hrun).
  unfold deref in Hderef. injection Hderef as <- <-.
  apply bind_returned in Hrun as (reports & w1 & Hexec & Hrun).
  destruct (container_execute_frame _ _ _ _ _ Hexec)
    as (Hstore & Hsp & _ & Hco & _).
  apply container_execute_returned in Hexec as (segs & Htrips & Htrace).
  apply bind_returned in Hrun as (ref1 & w2 & Halloc1 & Hrun).
  unfold alloc in Halloc1. injection Halloc1 as <- <-.
  apply bind_returned in Hrun as (ref2 & w3 & Halloc2 & Hrun).
  unfold alloc in Halloc2. injection Halloc2 as <- <-.
  injection Hrun as <- <-.
  exists g0, segs, reports. simpl.
  rewrite Hstore, length_app, <- app_assoc. simpl.
  rewrite Nat.add_1_r. repeat split; assumption.
Qed.

(** The repair loop hands back the record it was given. *)
Lemma repair_loop_same_record (g : GoalReport) (fuel : nat) :
  forall i w g' w',
    repair_loop filepath fuel g i w = (Returned g', w') -> g' = g.
Proof.
  induction fuel as [|fuel IH]; intros i w g' w' Hrun; [discriminate |].
  cbn [repair_loop] in Hrun. unfold bind at 1, deref at 1 in Hrun.
  destruct (elements_at w (command_reports g) !! i) as [r|].
  - destruct (not_success r).
    + apply bind_returned in Hrun as (cmds & w1 & _ & Hrun).
      apply bind_returned in Hrun as (reports & w2 & _ & Hrun).
      apply bind_returned in Hrun as (u & w3 & _ & Hrun).
      now apply IH in Hrun.
    + now apply IH in Hrun.
  - now injection Hrun as <- _.
Qed.

(** The repair loop changes no list object but the repair list of its
    record, spawns shells only and opens no connection. *)
Lemma repair_loop_frame (g : GoalReport) (fuel : nat) :
  forall i w g' w',
    repair_loop filepath fuel g i w = (Returned g', w') ->
    length (store w') = length (store w) /\
    (forall ref, ref <> modify_command_reports g ->
                 store w' !! ref = store w !! ref) /\
    spawned w <= spawned w' /\ connected w' = connected w.
Proof.
  induction fuel as [|fuel IH]; intros i w g' w' Hrun; [discriminate |].
  cbn [repair_loop] in Hrun. unfold bind at 1, deref at 1 in Hrun.
  destruct (elements_at w (command_reports g) !! i) as [r|].
  - destruct (not_success r).
    + apply bind_returned in Hrun as (cmds & w1 & Hfetch & Hrun).
      unfold fetch_modify in Hfetch. injection Hfetch as <- <-.
      apply bind_returned in Hrun as (reports & w2 & Hexec & Hrun).
      apply local_execute_returned in Hexec
        as (banner & segs & _ & _ & _ & Hsp & Hco & Hstore).
      apply bind_returned in Hrun as (u & w3 & Hextend & Hrun).
      unfold extend in Hextend. injection Hextend as _ <-.
      apply IH in Hrun as (Hlen & Hother & Hsp' & Hco').
      simpl in *. rewrite length_insert in Hlen.
      split; [congruence |]. split; [| split; [lia | congruence]].
      intros ref Href. rewrite Hother by exact Href.
      rewrite list_lookup_insert_ne by congruence. now rewrite Hstore.
    + now apply IH in Hrun.
  - injection Hrun as _ <-. repeat split; auto.
Qed.

(** A run of the repair stage that returns leaves the goal reports, the
    goals and the messages as they were. *)
Lemma execute_mutator_commands_returned (fuel : nat)
      (state state' : AgentState) (w w' : world) :
  execute_mutator_commands filepath fuel state w = (Returned state', w') ->
  exists g,
    last (goal_reports state) = Some g /\ state' = state /\
    length (store w') = length (store w) /\
    (forall ref, ref <> modify_command_reports g ->
                 store w' !! ref = store w !! ref) /\
    spawned w <= spawned w' /\ connected w' = connected w.
Proof.
  unfold execute_mutator_commands. intros Hrun.
  apply bind_returned in Hrun as (g & w0 & Hlast & Hrun).
  unfold last_goal_report in Hlast.
  destruct (last (goal_reports state)) as [g0|] eqn:Hg; [| discriminate].
  injection Hlast as <- <-.
  apply bind_returned in Hrun as (g' & w1 & Hloop & Hret).
  rewrite replace_same in Hloop.
  pose proof (repair_loop_same_record _ _ _ _ _ _ Hloop) as ->.
  apply repair_loop_frame in Hloop as (Hlen & Hother & Hsp & Hco).
  injection Hret as <- <-. rewrite map_replace_same.
  exists g0. split; [reflexivity |]. split; [| auto].
  destruct state as [msgs gs reports]. simpl in *. f_equal.
  clear - Hg. induction reports as [|a [|b reports] IH]; try discriminate.
  - simpl in *. congruence.
  - change (removelast (a :: b :: reports)) with (a :: removelast (b :: reports)).
    simpl. f_equal. now apply IH.
Qed.

(** The repair loop only adds to the trace. *)
Lemma repair_loop_extends (g : GoalReport) (fuel : nat) :
  forall i w g' w',
    repair_loop filepath fuel g i w = (Returned g', w') ->
    exists evs, trace w' = trace w ++ evs.
Proof.
  induction fuel as [|fuel IH]; intros i w g' w' Hrun; [discriminate |].
  cbn [repair_loop] in Hrun. unfold bind at 1, deref at 1 in Hrun.
  destruct (elements_at w (command_reports g) !! i) as [r|].
  - destruct (not_success r).
    + apply bind_returned in Hrun as (cmds & w1 & Hfetch & Hrun).
      unfold fetch_modify in Hfetch. injection Hfetch as <- <-.
      apply bind_returned in Hrun as (reports & w2 & Hexec & Hrun).
      apply local_execute_returned in Hexec
        as (banner & segs & _ & _ & Htrace & _).
      apply bind_returned in Hrun as (u & w3 & Hextend & Hrun).
      unfold extend in Hextend. injection Hextend as _ <-.
      apply IH in Hrun as (evs & Hevs). simpl in *.
      eexists. rewrite Hevs, Htrace, <- !app_assoc. reflexivity.
    + now apply IH in Hrun.
  - injection Hrun as _ <-. exists []. now rewrite app_nil_r.
Qed.

(** What the repair stage sends and files, for a record whose two lists
    are two list objects. *)
Lemma execute_mutator_commands_batches (fuel : nat)
      (state state' : AgentState) (g : GoalReport) (w w' : world) :
  last (goal_reports state) = Some g ->
  command_reports g <> modify_command_reports g ->
  modify_command_reports g < length (store w) ->
  execute_mutator_commands filepath fuel state w = (Returned state', w') ->
  exists stretches mods,
    Forall3 (repair_batch filepath)
            (List.filter not_success (elements_at w (command_reports g)))
            stretches mods /\
    trace w' = trace w ++ concat stretches /\
    elements_at w' (modify_command_reports g)
    = elements_at w (modify_command_reports g) ++ concat mods.
Proof.
  intros Hlast Hne Hvalid Hrun.
  unfold execute_mutator_commands, bind at 1, last_goal_report in Hrun.
  rewrite Hlast in Hrun. cbn [ret] in Hrun.
  apply bind_returned in Hrun as (g' & w1 & Hloop & Hret).
  rewrite replace_same in Hloop. injection Hret as _ <-.
  apply (repair_loop_batches filepath g fuel 0 w w1 g' Hne Hvalid) in Hloop
    as (stretches & mods & Hbatches & Htrace & Hmods & _).
  rewrite drop_0 in Hbatches.
  exists stretches, mods. split; [exact Hbatches |]. split; assumption.
Qed.

(** The executing stage, with the round trips in full. *)
Lemma execute_commands_exchanges (fuel : nat) (state state' : AgentState)
      (w w' : world) :
  execute_commands fuel state w = (Returned state', w') ->
  exists g segs reports,
    last (goal_reports state) = Some g /\
    Forall3 remote_exchange
            (map command (elements_at w (command_reports g))) segs reports /\
    trace w' = trace w ++ EvConnect :: concat segs ++ [EvDisconnect] /\
    store w' = store w ++ [reports; []] /\
    state' = mkAgentState (messages state) (goals state)
               (removelast (goal_reports state)
                ++ [mkGoalReport (goal_name g) (goal_description g)
                                 (length (store w)) (S (length (store w)))]) /\
    spawned w' = spawned w /\ connected w' = S (connected w).
Proof.
  unfold execute_commands. intros Hrun.
  apply bind_returned in Hrun as (g & w0 & Hlast & Hrun).
  unfold last_goal_report in Hlast.
  destruct (last (goal_reports state)) as [g0|] eqn:Hg; [| discriminate].
  injection Hlast as <- <-.
  apply bind_returned in Hrun as (old & w0 & Hderef & Hrun).
  unfold deref in Hderef. injection Hderef as <- <-.
  apply bind_returned in Hrun as (reports & w1 & Hexec & Hrun).
  destruct (container_execute_frame _ _ _ _ _ Hexec)
    as (Hstore & Hsp & _ & Hco & _).
  apply container_execute_exchanges in Hexec as (segs & Htrips & Htrace).
  apply bind_returned in Hrun as (ref1 & w2 & Halloc1 & Hrun).
  unfold alloc in Halloc1. injection Halloc1 as <- <-.
  apply bind_returned in Hrun as (ref2 & w3 & Halloc2 & Hrun).
  unfold alloc in Halloc2. injection Halloc2 as <- <-.
  injection Hrun as <- <-.
  exists g0, segs, reports. simpl.
  rewrite Hstore, length_app, <- app_assoc. simpl.
  rewrite Nat.add_1_r. repeat split; assumption.
Qed.

(** Two list objects made one after the other. *)
Lemma fresh_lists (w w' : world) (a b : list CommandReport) :
  store w' = store w ++ [a; b] ->
  elements_at w' (length (store w)) = a /\
  elements_at w' (S (length (store w))) = b /\
  length (store w') = S (S (length (store w))).
Proof.
  intros E. unfold elements_at. rewrite E. split; [| split].
  - now rewrite list_lookup_middle.
  - rewrite lookup_app_r by lia.
    now replace (S (length (store w)) - length (store w)) with 1 by lia.
  - rewrite length_app. simpl. lia.
Qed.

(** The round trips of a batch ask for no corrective command. *)
Lemma remote_round_trips_no_request (commands : list string)
      (segs : list (list event)) (reports : list CommandReport) :
  Forall3 remote_round_trip commands segs reports ->
  requests (concat segs) = [].
Proof.
  induction 1 as [|cmd seg r commands segs reports Htrip _ IH];
    [reflexivity |].
  destruct Htrip as (response & body & -> & Hdrain & _).
  cbn [concat]. rewrite requests_app, IH, app_nil_r.
  change (requests (?a :: ?l)) with (requests l).
  rewrite requests_app. cbn. rewrite app_nil_r.
  clear - Hdrain. induction Hdrain as [|e evs He _ IH]; [reflexivity |].
  destruct e; try contradiction; exact IH.
Qed.

(** A round that later stages left alone. *)
Lemma goal_round_kept (w3 w' : world) (goal : list (string * string))
      (evs : list event) (g : GoalReport) :
  keeps_lists w3 w' ->
  command_reports g < length (store w3) ->
  modify_command_reports g < length (store w3) ->
  goal_round filepath w3 goal evs g -> goal_round filepath w' goal evs g.
Proof.
  intros Hkeeps Hc Hm (segs & reports & stretches & mods & Htrips & Hbatches
                       & Hevs & Hgoal & Hreports & Hmods).
  exists segs, reports, stretches, mods.
  unfold elements_at in *. rewrite (Hkeeps _ Hc), (Hkeeps _ Hm).
  repeat split; try assumption; apply Hgoal.
Qed.

(** A node that returns is a step below the limit. *)
Lemma node_returned {A} (taken : nat) (m : M A) (w w' : world) (a : A) :
  node taken m w = (Returned a, w') ->
  m w = (Returned a, w') /\ S taken < recursion_limit.
Proof.
  unfold node. intros Hrun.
  apply bind_returned in Hrun as (a' & w1 & Hm & Hrun).
  destruct (recursion_limit <=? S taken)%nat eqn:E; [discriminate |].
  injection Hrun as <- <-. split; [exact Hm |]. now apply Nat.leb_gt.
Qed.

Lemma node_run {A} (taken : nat) (m : M A) (w w' : world) (a : A) :
  m w = (Returned a, w') -> S taken < recursion_limit ->
  node taken m w = (Returned a, w').
Proof.
  intros Hm Hlimit. unfold node, bind. rewrite Hm.
  apply Nat.leb_gt in Hlimit. now rewrite Hlimit.
Qed.

Lemma node_out_of_steps {A} (taken : nat) (m : M A) (w w' : world) (a : A) :
  m w = (Returned a, w') -> recursion_limit <= S taken ->
  node taken m w = (Raised ExcGraphRecursionError, w').
Proof.
  intros Hm Hlimit. unfold node, bind. rewrite Hm.
  apply Nat.leb_le in Hlimit. now rewrite Hlimit.
Qed.

End Stages.

(** ** The cycle of the graph *)

Section CycleFacts.

Context {host : Host} {agent : Agent} {chat : Chat}.

Variable filepath : string.

Lemma identify_commands_run (state : AgentState) (w : world)
      (goal : list (string * string))
      (remaining : list (list (string * string)))
      (name description : string) :
  goals state = goal :: remaining ->
  item "name" goal = Some name ->
  item "description" goal = Some description ->
  identify_commands state w
  = (Returned
       (mkAgentState
          [fetch_commands_instructions;
           "Give me commands for this goal: " +s+ dumps_goal goal;
           commands_reply goal]
          remaining
          (goal_reports state
           ++ [mkGoalReport name description
                            (length (store w)) (S (length (store w)))])),
     mkWorld (spawned w) (pos w) (connected w) (peer_pos w) (uuids w)
             (store w
              ++ [map (fun c => mkCommandReport c None None)
                      (parse_commands (commands_reply goal)); []])
             (trace w)).
Proof.
  intros Hgoals Hname Hdescription. unfold identify_commands. rewrite Hgoals.
  unfold bind, alloc, subscript, ret, commands_reply. cbv zeta.
  rewrite Hname, Hdescription.
  cbn [store spawned pos connected peer_pos uuids trace app].
  rewrite length_app, <- app_assoc. cbn [length app].
  rewrite Nat.add_1_r. reflexivity.
Qed.

(** [identify_commands] returns for a first goal that has a name and a
    description, and for no other state. *)
Lemma identify_commands_returned (state s1 : AgentState) (w w1 : world) :
  identify_commands state w = (Returned s1, w1) ->
  exists goal remaining name description,
    goals state = goal :: remaining /\
    item "name" goal = Some name /\
    item "description" goal = Some description.
Proof.
  unfold identify_commands. destruct (goals state) as [|goal remaining];
    [discriminate |].
  unfold bind, alloc, subscript, ret, raise. cbv zeta.
  destruct (item "name" goal) as [name|] eqn:Hname; [| discriminate].
  destruct (item "description" goal) as [description|] eqn:Hdescription;
    [| discriminate].
  intros _. now exists goal, remaining, name, description.
Qed.

Lemma removelast_snoc {A} (l : list A) (x : A) : removelast (l ++ [x]) = l.
Proof. apply removelast_last. Qed.

(** One turn of the cycle, for a run that returns: the first goal is taken,
    the commands of the model's reply are run on a connection of their own,
    what failed is repaired, the record of the turn is the last goal
    report, no list object from before the turn is touched, and the three
    steps were below the limit. *)
Lemma turn_returned (fuel taken : nat) (state s3 : AgentState)
      (w w3 : world) :
  turn filepath fuel taken state w = (Returned s3, w3) ->
  exists goal remaining g evs,
    goals state = goal :: remaining /\ goals s3 = remaining /\
    messages s3
    = [fetch_commands_instructions;
       "Give me commands for this goal: " +s+ dumps_goal goal;
       commands_reply goal] /\
    goal_reports s3 = goal_reports state ++ [g] /\
    trace w3 = trace w ++ evs /\
    goal_round filepath w3 goal evs g /\
    command_reports g < length (store w3) /\
    modify_command_reports g < length (store w3) /\
    connected w3 = S (connected w) /\ keeps_lists w w3 /\
    length (store w) <= length (store w3) /\ spawned w <= spawned w3 /\
    3 + taken < recursion_limit.
Proof.
  unfold turn. intros Hrun.
  apply bind_returned in Hrun as (s1 & w1' & Hidentify & Hrun).
  apply node_returned in Hidentify as (Hidentify & _).
  destruct (identify_commands_returned _ _ _ _ Hidentify)
    as (goal & remaining & name & description & Hgoals & Hname
        & Hdescription).
  rewrite (identify_commands_run state w goal remaining name description
             Hgoals Hname Hdescription) in Hidentify.
  injection Hidentify as <- <-.
  set (unjudged := map (fun c => mkCommandReport c None None)
                       (parse_commands (commands_reply goal))) in *.
  set (w1 := mkWorld _ _ _ _ _ (store w ++ [unjudged; []]) _) in *.
  destruct (fresh_lists w w1 unjudged [] eq_refl) as (Hold & _ & Hlen1).
  apply bind_returned in Hrun as (s2 & w2 & Hexecute & Hmutate).
  apply node_returned in Hexecute as (Hexecute & _).
  apply node_returned in Hmutate as (Hmutate & Hlimit).
  apply execute_commands_exchanges in Hexecute
    as (g0 & segs & reports & Hlast & Htrips & Htrace2 & Hstore2 & Hs2
        & Hsp2 & Hco2).
  cbn [goal_reports] in Hlast. rewrite last_snoc in Hlast.
  injection Hlast as <-.
  cbn [command_reports goal_name goal_description goal_reports messages
       goals] in *.
  rewrite removelast_snoc in Hs2.
  rewrite Hold in Htrips. unfold unjudged in Htrips.
  rewrite map_map, map_id in Htrips.
  destruct (fresh_lists w1 w2 reports [] Hstore2) as (Hnew & Hmod & Hlen2).
  set (g := mkGoalReport name description (length (store w1))
                         (S (length (store w1)))) in *.
  assert (Hlast : last (goal_reports s2) = Some g)
    by (rewrite Hs2; apply last_snoc).
  assert (Hne : command_reports g <> modify_command_reports g)
    by (subst g; cbn [command_reports modify_command_reports]; lia).
  assert (Hvalid : modify_command_reports g < length (store w2))
    by (subst g; cbn [modify_command_reports]; lia).
  destruct (execute_mutator_commands_batches filepath fuel s2 s3 g w2 w3
              Hlast Hne Hvalid Hmutate)
    as (stretches & mods & Hbatches & Htrace3 & Hmods).
  apply execute_mutator_commands_returned in Hmutate
    as (g' & Hlast' & -> & Hlen3 & Hother3 & Hsp3 & Hco3).
  rewrite Hlast in Hlast'. injection Hlast' as <-.
  rewrite Hs2. cbn [goal_reports messages goals].
  assert (Hcr : command_reports g = length (store w1)) by reflexivity.
  assert (Hmr : modify_command_reports g = S (length (store w1)))
    by reflexivity.
  rewrite Hcr in Hbatches. rewrite Hmr in Hmods, Hother3.
  rewrite Hnew in Hbatches. rewrite Hmod in Hmods.
  exists goal, remaining, g,
         (EvConnect :: concat segs ++ EvDisconnect :: concat stretches).
  split; [exact Hgoals |]. split; [reflexivity |]. split; [reflexivity |].
  split; [reflexivity |].
  split.
  { rewrite Htrace3, Htrace2. cbn [trace w1 app].
    rewrite <- !app_assoc. cbn [app]. rewrite <- !app_assoc. reflexivity. }
  split.
  { exists segs, reports, stretches, mods.
    split; [exact Htrips |]. split; [exact Hbatches |].
    split; [reflexivity |]. split; [split; assumption |].
    rewrite Hcr, Hmr. split; [| exact Hmods].
    unfold elements_at in *. rewrite Hother3 by lia. exact Hnew. }
  rewrite Hcr, Hmr, Hlen3, Hlen2, Hlen1.
  split; [lia |]. split; [lia |].
  split; [rewrite Hco3, Hco2; reflexivity |].
  split; [| split; [lia | split; [| exact Hlimit]]].
  - intros ref Href. rewrite Hother3 by (rewrite Hlen1; lia).
    rewrite Hstore2.
    rewrite lookup_app_l by (rewrite Hlen1; lia).
    subst w1. cbn [store]. now rewrite lookup_app_l.
  - rewrite Hsp2 in Hsp3. exact Hsp3.
Qed.

Lemma goal_rounds_unfold (fuel taken : nat) (state : AgentState)
      (w : world) :
  goal_rounds filepath (S fuel) taken state w
  = match turn filepath fuel taken state w with
    | (Returned s3, w3) =>
        if process_more_goals s3
        then goal_rounds filepath fuel (3 + taken) s3 w3
        else (Returned s3, w3)
    | (Raised e, w3) => (Raised e, w3)
    | (OutOfFuel, w3) => (OutOfFuel, w3)
    end.
Proof.
  cbn [goal_rounds]. unfold bind at 1, ret.
  destruct (turn filepath fuel taken state w) as [[s3|e|] w3];
    try reflexivity.
  destruct (process_more_goals s3); reflexivity.
Qed.

(** The cycle, for a run that returns: one round for every goal, in the
    order of the goals. *)
Lemma goal_rounds_returned (fuel : nat) :
  forall taken state w state' w',
    goal_rounds filepath fuel taken state w = (Returned state', w') ->
    exists rounds new_reports final,
      goals state' = [] /\
      last (goals state) = Some final /\
      messages state'
      = [fetch_commands_instructions;
         "Give me commands for this goal: " +s+ dumps_goal final;
         commands_reply final] /\
      goal_reports state' = goal_reports state ++ new_reports /\
      trace w' = trace w ++ concat rounds /\
      Forall3 (goal_round filepath w') (goals state) rounds new_reports /\
      connected w' = length (goals state) + connected w /\
      keeps_lists w w' /\
      length (store w) <= length (store w') /\ spawned w <= spawned w' /\
      taken + 3 * length (goals state) < recursion_limit.
Proof.
  induction fuel as [|fuel IH]; intros taken state w state' w' Hrun;
    [discriminate |].
  rewrite goal_rounds_unfold in Hrun.
  destruct (turn filepath fuel taken state w) as [[s3|e|] w3] eqn:Hturn;
    try discriminate.
  apply turn_returned in Hturn
    as (goal & remaining & g & evs & Hgoals & Hleft & Hmsgs & Hreports
        & Htrace & Hgoal & Hc & Hm & Hco & Hkeeps & Hlen & Hsp & Hlimit).
  rewrite Hgoals. unfold process_more_goals in Hrun. rewrite Hleft in Hrun.
  destruct remaining as [|next remaining]; cbn [length Nat.ltb Nat.leb] in Hrun.
  - injection Hrun as <- <-. exists [evs], [g], goal.
    split; [exact Hleft |]. split; [reflexivity |]. split; [exact Hmsgs |].
    split; [exact Hreports |].
    split; [cbn [concat]; rewrite app_nil_r; exact Htrace |].
    split; [repeat constructor; exact Hgoal |].
    split; [rewrite Hco; reflexivity |].
    split; [exact Hkeeps |]. split; [exact Hlen |].
    split; [exact Hsp |]. cbn [length]. lia.
  - apply IH in Hrun
      as (rounds & new_reports & final & Hdone & Hfinal & Hmsgs' & Hreports'
          & Htrace' & Hrounds & Hco' & Hkeeps' & Hlen' & Hsp' & Hlimit').
    rewrite Hleft in *.
    exists (evs :: rounds), (g :: new_reports), final.
    split; [exact Hdone |]. split; [exact Hfinal |]. split; [exact Hmsgs' |].
    split; [rewrite Hreports', Hreports, <- app_assoc; reflexivity |].
    split; [rewrite Htrace', Htrace; cbn [concat];
            rewrite <- app_assoc; reflexivity |].
    split.
    { constructor; [| exact Hrounds].
      exact (goal_round_kept filepath _ _ _ _ _ Hkeeps' Hc Hm Hgoal). }
    split; [rewrite Hco', Hco; simpl; lia |].
    split; [exact (keeps_lists_trans _ _ _ Hlen Hkeeps Hkeeps') |].
    split; [lia |]. split; [lia |]. cbn [length] in *. lia.
Qed.

(** The executing stage returns when the peer pauses. *)
Lemma execute_commands_converges (state : AgentState) (g : GoalReport)
      (w : world) :
  last (goal_reports state) = Some g ->
  peer_pauses (connected w) ->
  exists f0 state' w',
    forall fuel, f0 <= fuel ->
      execute_commands fuel state w = (Returned state', w').
Proof.
  intros Hlast Hpeer.
  destruct (container_execute_converges
              (map command (elements_at w (command_reports g))) w Hpeer)
    as (f0 & segs & reports & w1 & Hrun & _).
  eexists f0, _, _. intros fuel Hfuel.
  unfold execute_commands, bind at 1, last_goal_report. rewrite Hlast.
  cbn [ret]. unfold bind at 1, deref at 1.
  unfold bind at 1. rewrite (Hrun fuel Hfuel). reflexivity.
Qed.

(** The repair stage returns when the shells behave and the record's lists
    are two list objects. *)
Lemma execute_mutator_commands_converges (state : AgentState)
      (g : GoalReport) (w : world) :
  last (goal_reports state) = Some g ->
  command_reports g <> modify_command_reports g ->
  modify_command_reports g < length (store w) ->
  shells_behave (spawned w) ->
  exists f0 state' w',
    forall fuel, f0 <= fuel ->
      execute_mutator_commands filepath fuel state w = (Returned state', w').
Proof.
  intros Hlast Hne Hvalid Hshells.
  destruct (repair_loop_converges filepath g
              (elements_at w (command_reports g)) 0 w Hne Hvalid eq_refl
              Hshells)
    as (f0 & mods & w' & Hrun & _).
  eexists f0, _, w'. intros fuel Hfuel.
  unfold execute_mutator_commands, bind at 1, last_goal_report.
  rewrite Hlast. cbn [ret]. unfold bind at 1.
  rewrite replace_same, (Hrun fuel Hfuel). reflexivity.
Qed.

(** The three stages of a turn return one after the other when the first
    goal has a name and a description, the next peer pauses and the shells
    behave. *)
Lemma stages_converge (state : AgentState) (w : world) :
  (exists goal remaining, goals state = goal :: remaining /\ named goal) ->
  peer_pauses (connected w) ->
  shells_behave (spawned w) ->
  exists f0 s1 w1 s2 w2 s3 w3,
    identify_commands state w = (Returned s1, w1) /\
    forall fuel, f0 <= fuel ->
      execute_commands fuel s1 w1 = (Returned s2, w2) /\
      execute_mutator_commands filepath fuel s2 w2 = (Returned s3, w3).
Proof.
  intros (goal & remaining & E & (name & Hname) & (description & Hdescription))
         Hpeer Hshells.
  pose proof (identify_commands_run state w goal remaining name description
                E Hname Hdescription) as Hidentify.
  set (s1 := mkAgentState _ _ _) in Hidentify.
  set (w1 := mkWorld _ _ _ _ _ _ _) in Hidentify.
  destruct (execute_commands_converges s1
              (mkGoalReport name description
                            (length (store w)) (S (length (store w)))) w1)
    as (f1 & s2 & w2 & Hexecute); [apply last_snoc | exact Hpeer |].
  pose proof (Hexecute f1 (le_n _)) as Hshape.
  apply execute_commands_returned in Hshape
    as (g & segs & reports & Hlast & _ & _ & Hstore2 & Hs2 & Hsp2 & Hco2).
  subst s1. cbn [goal_reports] in Hlast. rewrite last_snoc in Hlast.
  injection Hlast as <-. cbn [goal_name goal_description] in Hs2.
  destruct (execute_mutator_commands_converges s2
              (mkGoalReport name description
                            (length (store w1)) (S (length (store w1)))) w2)
    as (f2 & s3 & w3 & Hmutate).
  - rewrite Hs2. cbn [goal_reports]. apply last_snoc.
  - simpl. lia.
  - rewrite Hstore2, length_app. simpl. lia.
  - intros k Hk. apply Hshells. rewrite Hsp2 in Hk. subst w1. simpl in Hk.
    exact Hk.
  - eexists (Nat.max f1 f2), _, w1, s2, w2, s3, w3.
    split; [exact Hidentify |]. intros fuel Hfuel.
    split; [apply Hexecute | apply Hmutate]; lia.
Qed.

(** One turn returns when its three steps are below the limit. *)
Lemma turn_converges (taken : nat) (state : AgentState) (w : world) :
  (exists goal remaining, goals state = goal :: remaining /\ named goal) ->
  peer_pauses (connected w) ->
  shells_behave (spawned w) ->
  3 + taken < recursion_limit ->
  exists f0 s3 w3,
    forall fuel, f0 <= fuel ->
      turn filepath fuel taken state w = (Returned s3, w3).
Proof.
  intros Hgoal Hpeer Hshells Hlimit.
  destruct (stages_converge state w Hgoal Hpeer Hshells)
    as (f0 & s1 & w1 & s2 & w2 & s3 & w3 & Hidentify & Hrest).
  exists f0, s3, w3. intros fuel Hfuel.
  destruct (Hrest fuel Hfuel) as [Hexecute Hmutate].
  unfold turn, bind at 1.
  rewrite (node_run taken _ _ _ _ Hidentify) by lia.
  unfold bind at 1.
  rewrite (node_run (1 + taken) _ _ _ _ Hexecute) by lia.
  apply node_run; [exact Hmutate | lia].
Qed.

(** The turn whose last step is the step of the limit ends in the error
    of the limit, after the step. *)
Lemma turn_out_of_steps (taken : nat) (state : AgentState) (w : world) :
  (exists goal remaining, goals state = goal :: remaining /\ named goal) ->
  peer_pauses (connected w) ->
  shells_behave (spawned w) ->
  3 + taken = recursion_limit ->
  exists f0 w3,
    forall fuel, f0 <= fuel ->
      turn filepath fuel taken state w = (Raised ExcGraphRecursionError, w3).
Proof.
  intros Hgoal Hpeer Hshells Hlimit.
  destruct (stages_converge state w Hgoal Hpeer Hshells)
    as (f0 & s1 & w1 & s2 & w2 & s3 & w3 & Hidentify & Hrest).
  exists f0, w3. intros fuel Hfuel.
  destruct (Hrest fuel Hfuel) as [Hexecute Hmutate].
  unfold turn, bind at 1.
  rewrite (node_run taken _ _ _ _ Hidentify) by lia.
  unfold bind at 1.
  rewrite (node_run (1 + taken) _ _ _ _ Hexecute) by lia.
  apply (node_out_of_steps _ _ _ _ _ Hmutate). lia.
Qed.

(** The cycle returns when peers pause, shells behave, every goal has a
    name and a description, and the steps of all goals are below the
    limit. *)
Lemma goal_rounds_converges (n : nat) :
  forall taken state w,
    length (goals state) = S n ->
    Forall named (goals state) ->
    taken + 3 * S n < recursion_limit ->
    peers_pause (connected w) ->
    shells_behave (spawned w) ->
    exists f0 state' w',
      forall fuel, f0 <= fuel ->
        goal_rounds filepath fuel taken state w = (Returned state', w').
Proof.
  induction n as [|n IH];
    intros taken state w Hlen Hnamed Hlimit Hpeers Hshells;
    destruct (goals state) as [|goal remaining] eqn:E; try discriminate;
    inversion Hnamed as [|? ? Hgoal Hrest]; subst;
    (destruct (turn_converges taken state w) as (f0 & s3 & w3 & Hturn);
     [now exists goal, remaining | apply Hpeers; lia | exact Hshells | lia |]);
    pose proof (turn_returned _ _ _ _ _ _ (Hturn f0 (le_n _)))
      as (goal' & remaining' & g & evs & Hgoals & Hleft & _ & _ & _ & _ & _
          & _ & Hco & _ & _ & Hsp & _);
    rewrite E in Hgoals; injection Hgoals as <- <-;
    injection Hlen as Hlen.
  - destruct remaining; [| discriminate].
    exists (S f0), s3, w3. intros [|fuel] Hfuel; [lia |].
    rewrite goal_rounds_unfold, (Hturn fuel) by lia.
    unfold process_more_goals. now rewrite Hleft.
  - destruct (IH (3 + taken) s3 w3) as (f1 & state' & w' & Hrest').
    + now rewrite Hleft.
    + now rewrite Hleft.
    + lia.
    + intros k Hk. apply Hpeers. lia.
    + intros k Hk. apply Hshells. lia.
    + exists (S (Nat.max f0 f1)), state', w'.
      intros [|fuel] Hfuel; [lia |].
      rewrite goal_rounds_unfold, (Hturn fuel) by lia.
      unfold process_more_goals. rewrite Hleft.
      destruct remaining; [discriminate |]. cbn [length Nat.ltb Nat.leb].
      apply Hrest'. lia.
Qed.

(** With goals for all the turns up to the limit, the cycle ends in the
    error of the limit. *)
Lemma goal_rounds_out_of_steps (m : nat) :
  forall taken state w,
    taken + 3 * S m = recursion_limit ->
    S m <= length (goals state) ->
    Forall named (goals state) ->
    peers_pause (connected w) ->
    shells_behave (spawned w) ->
    exists f0 w',
      forall fuel, f0 <= fuel ->
        goal_rounds filepath fuel taken state w
        = (Raised ExcGraphRecursionError, w').
Proof.
  induction m as [|m IH];
    intros taken state w Hlimit Hlen Hnamed Hpeers Hshells;
    destruct (goals state) as [|goal remaining] eqn:E;
    try (cbn [length] in Hlen; lia);
    inversion Hnamed as [|? ? Hgoal Hrest]; subst.
  - destruct (turn_out_of_steps taken state w) as (f0 & w3 & Hturn);
      [now exists goal, remaining | apply Hpeers; lia | exact Hshells | lia |].
    exists (S f0), w3. intros [|fuel] Hfuel; [lia |].
    rewrite goal_rounds_unfold, (Hturn fuel) by lia. reflexivity.
  - destruct (turn_converges taken state w) as (f0 & s3 & w3 & Hturn);
      [now exists goal, remaining | apply Hpeers; lia | exact Hshells | lia |].
    pose proof (turn_returned _ _ _ _ _ _ (Hturn f0 (le_n _)))
      as (goal' & remaining' & g & evs & Hgoals & Hleft & _ & _ & _ & _ & _
          & _ & Hco & _ & _ & Hsp & _).
    rewrite E in Hgoals. injection Hgoals as <- <-.
    cbn [length] in Hlen.
    destruct (IH (3 + taken) s3 w3) as (f1 & w' & Hrest').
    + lia.
    + rewrite Hleft. lia.
    + now rewrite Hleft.
    + intros k Hk. apply Hpeers. lia.
    + intros k Hk. apply Hshells. lia.
    + exists (S (Nat.max f0 f1)), w'.
      intros [|fuel] Hfuel; [lia |].
      rewrite goal_rounds_unfold, (Hturn fuel) by lia.
      unfold process_more_goals. rewrite Hleft.
      destruct remaining; [cbn [length] in Hlen; lia |].
      cbn [length Nat.ltb Nat.leb]. apply Hrest'. lia.
Qed.

End CycleFacts.


(** ** [OpenAIAgent] *)

Section Assistant.

Context {api : OpenAI.Assistants}.

Lemma is_yes_true (reply : option string) :
  OpenAI.is_yes reply = true -> reply = Some "Yes".
Proof.
  destruct reply as [r|]; [| discriminate]. simpl. intros E.
  apply String.eqb_eq in E. now subst r.
Qed.

Lemma is_yes_false (reply : option string) :
  OpenAI.is_yes reply = false -> reply <> Some "Yes".
Proof. intros E ->. discriminate. Qed.

(** A run on a new thread: the thread is appended and becomes the agent's
    thread, whatever the agent's thread was. *)
Lemma do_run_new_thread (message instructions : string)
      (st : OpenAI.assistant) :
  OpenAI.do_run message instructions true st
  = OpenAI.Ok
      (OpenAI.create_and_poll (length (OpenAI.threads st)) [message]
                              instructions)
      (OpenAI.mkAssistant
         (OpenAI.threads st
          ++ [message
              :: OpenAI.said
                   (OpenAI.create_and_poll (length (OpenAI.threads st))
                                           [message] instructions)])
         (Some (length (OpenAI.threads st)))).
Proof.
  unfold OpenAI.do_run. cbn [OpenAI.thread OpenAI.threads].
  rewrite list_lookup_middle by reflexivity. cbn [default app].
  destruct (OpenAI.create_and_poll _ _ _) as [reply|];
    rewrite insert_app_r_alt by lia; rewrite Nat.sub_diag; reflexivity.
Qed.

(** A run on the agent's thread, the last one made. *)
Lemma do_run_same_thread (message instructions : string)
      (ts : list (list string)) (conversation : list string) :
  OpenAI.do_run message instructions false
                (OpenAI.mkAssistant (ts ++ [conversation]) (Some (length ts)))
  = OpenAI.Ok
      (OpenAI.create_and_poll (length ts) (conversation ++ [message])
                              instructions)
      (OpenAI.mkAssistant
         (ts ++ [conversation ++ message
                 :: OpenAI.said
                      (OpenAI.create_and_poll (length ts)
                                              (conversation ++ [message])
                                              instructions)])
         (Some (length ts))).
Proof.
  unfold OpenAI.do_run. cbn [OpenAI.thread OpenAI.threads].
  rewrite list_lookup_middle by reflexivity. cbn [default].
  destruct (OpenAI.create_and_poll _ _ _) as [reply|];
    rewrite insert_app_r_alt by lia; rewrite Nat.sub_diag; cbn [OpenAI.said];
    [rewrite <- app_assoc |]; reflexivity.
Qed.

(** Without a thread, a run that is to use the agent's thread fails. *)
Lemma do_run_without_thread (message instructions : string)
      (ts : list (list string)) :
  OpenAI.do_run message instructions false (OpenAI.mkAssistant ts None)
  = OpenAI.AttributeError.
Proof. reflexivity. Qed.

(** [provide_input], run by run. *)
Lemma provide_input_run (FIRST VERIFY SYSTEM FOLLOW_UP ANSWER_SYSTEM : string)
      (text : string) (st : OpenAI.assistant) :
  let n := length (OpenAI.threads st) in
  let first := FIRST +s+ Py.LF +s+ text in
  let r1 := OpenAI.create_and_poll n [first] SYSTEM in
  let r2 := OpenAI.create_and_poll n [first; "Yes"; VERIFY] SYSTEM in
  let r3 := OpenAI.create_and_poll n [first; "Yes"; VERIFY; "Yes"; FOLLOW_UP]
                                   ANSWER_SYSTEM in
  OpenAI.provide_input FIRST VERIFY SYSTEM FOLLOW_UP ANSWER_SYSTEM text st
  = if OpenAI.is_yes r1 then
      if OpenAI.is_yes r2 then
        OpenAI.Ok r3
          (OpenAI.mkAssistant
             (OpenAI.threads st
              ++ [[first; "Yes"; VERIFY; "Yes"; FOLLOW_UP] ++ OpenAI.said r3])
             (Some n))
      else
        OpenAI.Ok (Some "breba-noop")
          (OpenAI.mkAssistant
             (OpenAI.threads st ++ [[first; "Yes"; VERIFY] ++ OpenAI.said r2])
             (Some n))
    else
      OpenAI.Ok (Some "breba-noop")
        (OpenAI.mkAssistant (OpenAI.threads st ++ [first :: OpenAI.said r1])
                            (Some n)).
Proof.
  intros n first r1 r2 r3. unfold OpenAI.provide_input.
  fold first. rewrite do_run_new_thread. fold n. fold r1.
  destruct (OpenAI.is_yes r1) eqn:H1; [| reflexivity].
  apply is_yes_true in H1. rewrite H1. cbn [OpenAI.said].
  rewrite do_run_same_thread.
  change ([first; "Yes"] ++ [VERIFY]) with [first; "Yes"; VERIFY].
  fold n. fold r2.
  destruct (OpenAI.is_yes r2) eqn:H2; [| reflexivity].
  apply is_yes_true in H2. rewrite H2. cbn [OpenAI.said].
  change ([first; "Yes"] ++ [VERIFY; "Yes"]) with [first; "Yes"; VERIFY; "Yes"].
  rewrite do_run_same_thread. reflexivity.
Qed.

End Assistant.

(** ** The batches as a whole *)

Section Batches.

Context {host : Host} {agent : Agent}.

Lemma local_execute_typed (fuel : nat) (commands : list string)
      (w w' : world) (reports : list CommandReport) :
  local_execute_commands_sync fuel commands w = (Returned reports, w') ->
  exists banner evs,
    trace w' = trace w ++ EvSpawn :: EvRead (Data banner) :: evs /\
    (forall line, In (EvSendline line) evs -> typed commands line) /\
    (forall text answer,
        In (EvProvideInput text answer) evs ->
        Py.truthy text = true /\ answer = provide_input text).
Proof.
  unfold local_execute_commands_sync, bind at 1, spawn. intros Hrun.
  apply bind_returned in Hrun as (banner & w1 & Hread & Hrest).
  unfold read_nonblocking in Hread.
  cbn [live spawned pos pred connected peer_pos uuids store trace] in Hread.
  destruct (shell (spawned w) 0) as [s| |]; try discriminate.
  injection Hread as <- <-.
  apply for_commands_typed in Hrest as (evs & Htrace & Htyped & Hasked).
  exists s, evs. split; [| split; assumption].
  rewrite Htrace. simpl. now rewrite <- !app_assoc.
Qed.

Lemma container_execute_posted (fuel : nat) (commands : list string)
      (w w' : world) (reports : list CommandReport) :
  container_execute_commands_sync fuel commands w = (Returned reports, w') ->
  exists evs,
    trace w' = trace w ++ EvConnect :: evs ++ [EvDisconnect] /\
    (forall msg response,
        In (EvSendMessage msg response) evs -> posted commands msg) /\
    (forall text answer,
        In (EvProvideInput text answer) evs ->
        Py.truthy text = true /\ answer = provide_input text) /\
    ~ In EvConnect evs /\ ~ In EvDisconnect evs.
Proof.
  unfold container_execute_commands_sync, with_client, bind at 1, connect.
  destruct (for_remote_commands fuel commands [] _) as [[rs|e|] w2] eqn:Hrun;
    try discriminate.
  intros Hret. injection Hret as _ <-.
  apply for_remote_commands_posted in Hrun
    as (evs & Htrace & Hposted & Hasked & Hnc & Hnd).
  exists evs. split; [| split; [| split; [| split]]; assumption].
  cbn [log trace]. rewrite Htrace. simpl. now rewrite <- !app_assoc.
Qed.

Lemma execute_commands_without_report (fuel : nat) (state : AgentState)
      (w : world) :
  goal_reports state = [] ->
  execute_commands fuel state w = (Raised ExcIndexError, w).
Proof.
  intros Hnone. unfold execute_commands, bind at 1, last_goal_report.
  now rewrite Hnone.
Qed.

Lemma execute_mutator_commands_without_report (filepath : string)
      (fuel : nat) (state : AgentState) (w : world) :
  goal_reports state = [] ->
  execute_mutator_commands filepath fuel state w = (Raised ExcIndexError, w).
Proof.
  intros Hnone. unfold execute_mutator_commands, bind at 1, last_goal_report.
  now rewrite Hnone.
Qed.

End Batches.

(** ** A repair shell that does not start *)

Section RepairFailure.

Context {host : Host} {agent : Agent}.

Variable filepath : string.

(** The world after the request for [r] and a shell that was spawned and
    did not greet. *)
Lemma repair_loop_startup_timeout (g : GoalReport) :
  forall k i fuel w r,
    elements_at w (command_reports g) !! (i + k) = Some r ->
    not_success r = true ->
    (forall j r',
        j < k -> elements_at w (command_reports g) !! (i + j) = Some r' ->
        not_success r' = false) ->
    shell (spawned w) 0 = TIMEOUT ->
    k < fuel ->
    repair_loop filepath fuel g i w
    = (Raised ExcTIMEOUT,
       mkWorld (S (spawned w)) 1 (connected w) (peer_pos w) (uuids w)
               (store w)
               (trace w ++ [EvFetchModify r; EvSpawn; EvRead TIMEOUT])).
Proof.
  induction k as [|k IH]; intros i fuel w r Hr Hfailed Hbefore Hshell Hfuel;
    (destruct fuel as [|fuel]; [lia |]);
    cbn [repair_loop]; unfold bind at 1, deref at 1.
  - rewrite Nat.add_0_r in Hr. rewrite Hr, Hfailed.
    unfold bind, fetch_modify, local_execute_commands_sync, spawn,
      read_nonblocking, bind, log.
    cbn [live spawned pos pred connected peer_pos uuids store trace].
    rewrite Hshell. now rewrite <- !app_assoc.
  - destruct (lookup_lt_is_Some_2 (elements_at w (command_reports g)) i)
      as (r0 & Hr0).
    { apply lookup_lt_Some in Hr. lia. }
    rewrite Hr0, (Hbefore 0 r0) by (lia || now rewrite Nat.add_0_r).
    apply IH; try assumption; try lia.
    + now rewrite Nat.add_succ_comm.
    + intros j r' Hj Hr'. apply (Hbefore (S j)); [lia |].
      now rewrite <- Nat.add_succ_comm.
Qed.

End RepairFailure.

(** ** How many reports a goal gets *)

Section ReportCounts.

Context {agent : Agent} {chat : Chat}.

Variable filepath : string.

Lemma goal_rounds_report_counts (w' : world)
      (gs : list (list (string * string)))
      (rounds : list (list event)) (new_reports : list GoalReport) :
  Forall3 (goal_round filepath w') gs rounds new_reports ->
  Forall2 (fun g goal =>
             names g goal /\
             length (elements_at w' (command_reports g))
             = S (Str.commas (commands_reply goal)))
          new_reports gs.
Proof.
  induction 1 as [|goal evs g gs rounds new_reports Hround _ IH];
    constructor; [| exact IH].
  destruct Hround as (segs & reports & stretches & mods & Htrips & _ & _
                      & Hgoal & Hreports & _).
  split; [exact Hgoal |]. rewrite Hreports.
  rewrite <- (Forall3_length_lr _ _ _ _ Htrips).
  unfold parse_commands. rewrite List.length_map. apply split_length.
Qed.

End ReportCounts.

(** * Further properties: the statements *)

(** X1.  The model's reply is cut at every comma and every piece is
    stripped: a reply with [n] commas gives [n + 1] commands, so never an
    empty list; no command holds a comma, and none begins or ends with
    white space; the pieces joined by commas are the reply again, so the
    cut loses nothing but the commas; and the empty reply gives one
    command, the empty one. *)
Theorem reply_is_cut_at_every_comma (content : string) :
  length (parse_commands content) = S (Str.commas content) /\
  Forall (fun cmd => Str.commas cmd = 0 /\ Str.trimmed cmd = true)
         (parse_commands content) /\
  Str.join "," (Str.split content) = content /\
  parse_commands EmptyString = [EmptyString].
Proof.
  split; [| split; [| split]].
  - unfold parse_commands. rewrite List.length_map. apply split_length.
  - apply parsed_pieces.
  - apply join_split.
  - reflexivity.
Qed.

(** X2.  A list of commands none of which holds a comma or has white space
    at either end is read back as it is from the reply that lists them
    with a comma and a space between them, and also from the one with the
    commas alone. *)
Theorem comma_separated_commands_are_read_back (cmd : string)
        (cmds : list string) :
  Forall (fun c => Str.commas c = 0 /\ Str.trimmed c = true) (cmd :: cmds) ->
  parse_commands (Str.join ", " (cmd :: cmds)) = cmd :: cmds /\
  parse_commands (Str.join "," (cmd :: cmds)) = cmd :: cmds.
Proof.
  intros Hall. split.
  - exact (parse_joined false cmds cmd Hall).
  - exact (parse_joined_tight cmds cmd Hall).
Qed.

Lemma comma_separated_commands_are_read_back_witness :
  parse_commands "pip install x, x --version"
  = ["pip install x"; "x --version"] /\
  parse_commands "pip install x,x --version"
  = ["pip install x"; "x --version"].
Proof.
  apply (comma_separated_commands_are_read_back
           "pip install x" ["x --version"]).
  repeat constructor.
Defined.

(** X3.  [identify_commands] takes the first goal, and from it the name and
    the description, without a look at what is there.  On a state without
    goals it raises an IndexError and has done nothing, and so does the
    cycle of the graph entered with such a state.  When the first goal, the
    dict as the model gave it, has no name, or has a name and no
    description, it raises the KeyError of that key: the model was asked
    and the list of unjudged reports was made, and no state comes back.
    Otherwise it returns: the goal is taken from the goals, the messages
    are the three of this goal alone, the request showing the dict with all
    its items in their order, and the record appended to the goal reports
    has the name and the description of the dict and two new list objects,
    apart from each other and from every list there was: one unjudged
    report for each command of the model's reply, in order, and the empty
    list of repair reports.  It runs nothing: the trace, the shells, the
    connections and the lists there were are as before. *)
Theorem identify_commands_needs_a_goal {host : Host} {agent : Agent}
        {chat : Chat} (filepath : string) (msgs : list string)
        (reports : list GoalReport) (w : world) :
  identify_commands (mkAgentState msgs [] reports) w
  = (Raised ExcIndexError, w) /\
  (forall fuel taken,
      goal_rounds filepath (S fuel) taken (mkAgentState msgs [] reports) w
      = (Raised ExcIndexError, w)) /\
  (forall goal remaining,
      let run :=
        identify_commands (mkAgentState msgs (goal :: remaining) reports) w in
      let fails key :=
        exists w',
          run = (Raised (ExcKeyError key), w') /\
          store w'
          = store w
            ++ [map (fun c => mkCommandReport c None None)
                    (parse_commands (commands_reply goal))] /\
          trace w' = trace w in
      match item "name" goal with
      | None => fails "name"
      | Some name =>
          match item "description" goal with
          | None => fails "description"
          | Some description =>
              exists g w',
                run
                = (Returned
                     (mkAgentState
                        [fetch_commands_instructions;
                         "Give me commands for this goal: "
                         +s+ dumps_goal goal;
                         commands_reply goal]
                        remaining (reports ++ [g])), w') /\
                goal_name g = name /\ goal_description g = description /\
                elements_at w' (command_reports g)
                = map (fun c => mkCommandReport c None None)
                      (parse_commands (commands_reply goal)) /\
                elements_at w' (modify_command_reports g) = [] /\
                command_reports g <> modify_command_reports g /\
                length (store w) <= command_reports g /\
                length (store w) <= modify_command_reports g /\
                keeps_lists w w' /\ trace w' = trace w /\
                spawned w' = spawned w /\ connected w' = connected w
          end
      end).
Proof.
  split; [reflexivity |]. split; [reflexivity |].
  intros goal remaining run fails. subst run fails.
  destruct (item "name" goal) as [name|] eqn:Hname;
    [destruct (item "description" goal) as [description|] eqn:Hdescription |].
  - eexists (mkGoalReport name description
                          (length (store w)) (S (length (store w)))), _.
    split; [exact (identify_commands_run
                     (mkAgentState msgs (goal :: remaining) reports) w
                     goal remaining name description eq_refl Hname
                     Hdescription) |].
    destruct (fresh_lists w
                (mkWorld (spawned w) (pos w) (connected w) (peer_pos w)
                         (uuids w)
                         (store w
                          ++ [map (fun c => mkCommandReport c None None)
                                  (parse_commands (commands_reply goal)); []])
                         (trace w))
                _ _ eq_refl) as (Hnew & Hmod & _).
    cbn [command_reports modify_command_reports goal_name goal_description].
    split; [reflexivity |]. split; [reflexivity |].
    split; [exact Hnew |]. split; [exact Hmod |].
    split; [lia |]. split; [lia |]. split; [lia |].
    split; [eapply keeps_lists_app; cbn [store]; reflexivity |].
    repeat split.
  - eexists. unfold identify_commands. cbn [goals].
    unfold bind, alloc, subscript, ret, raise, commands_reply. cbv zeta.
    rewrite Hname, Hdescription. repeat split.
  - eexists. unfold identify_commands. cbn [goals].
    unfold bind, alloc, subscript, ret, raise, commands_reply. cbv zeta.
    rewrite Hname. repeat split.
Qed.

Lemma identify_commands_needs_a_goal_witness :
  exists w',
    identify_commands (chat := Fixtures.scribe)
                      (mkAgentState [] [Fixtures.nameless_goal] []) world0
    = (Raised (ExcKeyError "name"), w') /\
    store w'
    = store world0
      ++ [map (fun c => mkCommandReport c None None)
              (parse_commands
                 (commands_reply (chat := Fixtures.scribe)
                                 Fixtures.nameless_goal))] /\
    trace w' = trace world0.
Proof.
  destruct (identify_commands_needs_a_goal
              (host := Fixtures.hello_host) (agent := Fixtures.calm)
              (chat := Fixtures.scribe) "README.md" [] [] world0)
    as (_ & _ & Hgoal).
  exact (Hgoal Fixtures.nameless_goal []).
Defined.

(** X4.  [execute_commands] runs the commands of the last goal report again,
    whatever their reports say.  Without a goal report it raises an
    IndexError and has done nothing.  A run that returns has made one
    connection, on which the commands of the last record made their round
    trips in order, and it ends with the disconnect; the record that
    replaces the last one has the same name and description and two new
    list objects, the reports of the round trips and an empty list of
    repair reports; the messages, the goals, the other records and every
    list there was are as before, and no shell was spawned.  And the stage
    returns, for all fuel from some amount on, when the peer pauses again
    and again. *)
Theorem executing_stage_reruns_the_last_record {host : Host} {agent : Agent}
        (fuel : nat) (state : AgentState) (w : world) :
  (goal_reports state = [] ->
   execute_commands fuel state w = (Raised ExcIndexError, w)) /\
  (forall state' w',
      execute_commands fuel state w = (Returned state', w') ->
      exists g segs reports,
        last (goal_reports state) = Some g /\
        Forall3 remote_round_trip
                (map command (elements_at w (command_reports g)))
                segs reports /\
        trace w' = trace w ++ EvConnect :: concat segs ++ [EvDisconnect] /\
        store w' = store w ++ [reports; []] /\
        state' = mkAgentState (messages state) (goals state)
                   (removelast (goal_reports state)
                    ++ [mkGoalReport (goal_name g) (goal_description g)
                                     (length (store w))
                                     (S (length (store w)))]) /\
        spawned w' = spawned w /\ connected w' = S (connected w)) /\
  (forall g,
      last (goal_reports state) = Some g ->
      peer_pauses (connected w) ->
      exists f0 state' w',
        forall fuel', f0 <= fuel' ->
          execute_commands fuel' state w = (Returned state', w')).
Proof.
  split; [apply execute_commands_without_report |].
  split; [intros state' w'; apply execute_commands_returned |].
  intros g. apply execute_commands_converges.
Qed.

Lemma executing_stage_reruns_the_last_record_witness :
  (exists segs reports w',
      execute_commands (host := Fixtures.failing_host)
                       (agent := Fixtures.calm)
                       9 Fixtures.new_state Fixtures.new_world
      = (Returned (mkAgentState [] []
                     [mkGoalReport "install" "install x" 2 3]), w') /\
      Forall3 (remote_round_trip (host := Fixtures.failing_host)
                                 (agent := Fixtures.calm))
              ["x --version"] segs reports /\
      store w' = store Fixtures.new_world ++ [reports; []]) /\
  (exists f0 state' w',
      forall fuel, f0 <= fuel ->
        execute_commands (host := Fixtures.failing_host)
                         (agent := Fixtures.calm)
                         fuel Fixtures.new_state Fixtures.new_world
        = (Returned state', w')).
Proof.
  destruct (executing_stage_reruns_the_last_record
              (host := Fixtures.failing_host) (agent := Fixtures.calm)
              9 Fixtures.new_state Fixtures.new_world)
    as (_ & Hreturned & _).
  destruct (executing_stage_reruns_the_last_record
              (host := Fixtures.failing_host) (agent := Fixtures.calm)
              0 Fixtures.new_state Fixtures.new_world)
    as (_ & _ & Hreturns).
  split.
  - assert (Hrun :
              execute_commands (host := Fixtures.failing_host)
                               (agent := Fixtures.calm)
                               9 Fixtures.new_state Fixtures.new_world
              = (Returned (mkAgentState [] []
                             [mkGoalReport "install" "install x" 2 3]),
                 snd (execute_commands (host := Fixtures.failing_host)
                                       (agent := Fixtures.calm)
                                       9 Fixtures.new_state
                                       Fixtures.new_world)))
      by (vm_compute; reflexivity).
    destruct (Hreturned _ _ Hrun)
      as (g & segs & reports & Hlast & Htrips & _ & Hstore & _).
    simpl in Hlast. injection Hlast as <-.
    exists segs, reports. eexists.
    split; [exact Hrun |]. split; [exact Htrips | exact Hstore].
  - apply (Hreturns (mkGoalReport "install" "install x" 0 1) eq_refl).
    intros n. apply replies_pauses.
Defined.

(** X5.  The repair stage hands the state on as it found it: the messages,
    the goals and the goal reports, each record with its name, its
    description and its two list objects, are those it was given.  Without
    a goal report it raises an IndexError and has done nothing.  A run that
    returns has made no list object and has changed none but the list of
    repair reports of the last record: the reports of the commands, of
    this goal and of every earlier one, are as they were; it has opened no
    connection, and has only added to the trace. *)
Theorem repair_stage_touches_one_list_only {host : Host} {agent : Agent}
        (filepath : string) (fuel : nat) (state : AgentState) (w : world) :
  (goal_reports state = [] ->
   execute_mutator_commands filepath fuel state w
   = (Raised ExcIndexError, w)) /\
  (forall state' w',
      execute_mutator_commands filepath fuel state w = (Returned state', w') ->
      exists g,
        last (goal_reports state) = Some g /\ state' = state /\
        length (store w') = length (store w) /\
        (forall ref, ref <> modify_command_reports g ->
                     store w' !! ref = store w !! ref) /\
        spawned w <= spawned w' /\ connected w' = connected w).
Proof.
  split; [apply execute_mutator_commands_without_report |].
  intros state' w'. apply execute_mutator_commands_returned.
Qed.

Lemma repair_stage_touches_one_list_only_witness :
  exists w',
    execute_mutator_commands
      (host := Fixtures.hello_host) (agent := Fixtures.calm)
      "README.md" 9 Fixtures.judged_state Fixtures.judged_world
    = (Returned Fixtures.judged_state, w') /\
    length (store w') = 2 /\
    store w' !! 0 = Some Fixtures.three_reports /\
    connected w' = 0.
Proof.
  destruct (repair_stage_touches_one_list_only
              (host := Fixtures.hello_host) (agent := Fixtures.calm)
              "README.md" 9 Fixtures.judged_state Fixtures.judged_world)
    as (_ & Hreturned).
  assert (Hrun :
            execute_mutator_commands
              (host := Fixtures.hello_host) (agent := Fixtures.calm)
              "README.md" 9 Fixtures.judged_state Fixtures.judged_world
            = (Returned Fixtures.judged_state,
               snd (execute_mutator_commands
                      (host := Fixtures.hello_host) (agent := Fixtures.calm)
                      "README.md" 9 Fixtures.judged_state
                      Fixtures.judged_world)))
    by (vm_compute; reflexivity).
  destruct (Hreturned _ _ Hrun) as (g & Hlast & _ & Hlen & Hother & _ & Hco).
  simpl in Hlast. injection Hlast as <-.
  eexists. split; [exact Hrun |]. split; [exact Hlen |].
  split; [apply (Hother 0); discriminate | exact Hco].
Defined.

(** X6.  The cycle of the graph, from [identify_commands] on and entered
    after any number of steps, deals with every goal once and in the order
    of the goals.  A run that returns has no goal left; it has appended one
    record for each goal, in order, to the goal reports it found and has
    left those as they were; its trace is one round after the other, and
    the round of a goal is: one connection on which the commands of the
    model's reply for this goal make their round trips in full, the
    disconnect, and then, for every report of this round that is not a
    success and for no other, in order, the request for corrective
    commands, a shell that greets, and the round trips of the corrective
    commands in this shell.  In the final world the record of a goal has
    the name and the description of the goal's dict and holds the reports
    of its round trips and, batch after batch, the reports of the round
    trips of its repairs, so no later round has touched them; there is one
    more connection for each goal; the lists there were at the start are
    unchanged; the messages are those of the last goal; and the steps of
    all the goals stayed below the limit of steps. *)
Theorem cycle_deals_with_every_goal_in_order {host : Host} {agent : Agent}
        {chat : Chat} (filepath : string) (fuel taken : nat)
        (state : AgentState) (w : world) (state' : AgentState) (w' : world) :
  goal_rounds filepath fuel taken state w = (Returned state', w') ->
  exists rounds new_reports final,
    goals state' = [] /\
    last (goals state) = Some final /\
    messages state'
    = [fetch_commands_instructions;
       "Give me commands for this goal: " +s+ dumps_goal final;
       commands_reply final] /\
    goal_reports state' = goal_reports state ++ new_reports /\
    trace w' = trace w ++ concat rounds /\
    Forall3 (goal_round filepath w') (goals state) rounds new_reports /\
    connected w' = length (goals state) + connected w /\
    keeps_lists w w' /\
    length (store w) <= length (store w') /\ spawned w <= spawned w' /\
    taken + 3 * length (goals state) < recursion_limit.
Proof. apply goal_rounds_returned. Qed.

Lemma cycle_deals_with_every_goal_in_order_witness :
  exists state' w' rounds,
    goal_rounds (host := Fixtures.failing_host) (agent := Fixtures.calm)
                (chat := Fixtures.scribe)
                "README.md" 12 1 Fixtures.two_goals world0
    = (Returned state', w') /\
    goals state' = [] /\
    goal_reports state' = Fixtures.two_records /\
    trace w' = concat rounds /\
    Forall3 (goal_round (agent := Fixtures.calm) (chat := Fixtures.scribe)
                        "README.md" w')
            [Fixtures.install_goal; Fixtures.check_goal]
            rounds Fixtures.two_records /\
    connected w' = 2.
Proof.
  assert (Hrun :
            goal_rounds (host := Fixtures.failing_host)
                        (agent := Fixtures.calm) (chat := Fixtures.scribe)
                        "README.md" 12 1 Fixtures.two_goals world0
            = (Returned
                 (mkAgentState
                    [fetch_commands_instructions (Chat := Fixtures.scribe);
                     "Give me commands for this goal: "
                     +s+ dumps_goal Fixtures.check_goal;
                     commands_reply (chat := Fixtures.scribe)
                                    Fixtures.check_goal]
                    [] Fixtures.two_records),
               snd (goal_rounds (host := Fixtures.failing_host)
                                (agent := Fixtures.calm)
                                (chat := Fixtures.scribe)
                                "README.md" 12 1 Fixtures.two_goals world0)))
    by (vm_compute; reflexivity).
  destruct (cycle_deals_with_every_goal_in_order
              (host := Fixtures.failing_host) (agent := Fixtures.calm)
              (chat := Fixtures.scribe) _ _ _ _ _ _ _ Hrun)
    as (rounds & new_reports & final & Hdone & _ & _ & Hreports & Htrace
        & Hrounds & Hco & _).
  cbn [goal_reports Fixtures.two_goals app] in Hreports. subst new_reports.
  eexists _, _, rounds. split; [exact Hrun |].
  split; [reflexivity |]. split; [reflexivity |].
  split; [exact Htrace |]. split; [exact Hrounds | exact Hco].
Defined.

(** X7.  The cycle comes to its end or to the limit of steps.  Let every
    goal have a name and a description, every peer that is connected to
    pause again and again, and every shell that is spawned greet and pause;
    the model may reply anything.  Entered with at least one goal after
    [taken] steps, the cycle returns, for all fuel from some amount on,
    when the three steps of every goal stay below the limit of 25 steps;
    and a run that returns has stayed below it.  Entered as the graph
    enters it, after the one step of [identify_goals], it returns with up
    to seven goals, and with eight goals or more it ends in the
    GraphRecursionError and returns no state. *)
Theorem cycle_returns_when_peers_and_shells_pause {host : Host}
        {agent : Agent} {chat : Chat} (filepath : string) (taken : nat)
        (state : AgentState) (w : world) :
  goals state <> [] ->
  Forall named (goals state) ->
  peers_pause (connected w) ->
  shells_behave (spawned w) ->
  (taken + 3 * length (goals state) < recursion_limit ->
   exists f0 state' w',
     forall fuel, f0 <= fuel ->
       goal_rounds filepath fuel taken state w = (Returned state', w')) /\
  (forall fuel state' w',
      goal_rounds filepath fuel taken state w = (Returned state', w') ->
      taken + 3 * length (goals state) < recursion_limit) /\
  (taken = 1 -> length (goals state) <= 7 ->
   exists f0 state' w',
     forall fuel, f0 <= fuel ->
       goal_rounds filepath fuel 1 state w = (Returned state', w')) /\
  (taken = 1 -> 8 <= length (goals state) ->
   exists f0 w',
     forall fuel, f0 <= fuel ->
       goal_rounds filepath fuel 1 state w
       = (Raised ExcGraphRecursionError, w')).
Proof.
  intros Hgoals Hnamed Hpeers Hshells.
  destruct (goals state) as [|goal remaining] eqn:E; [congruence |].
  split; [| split; [| split]].
  - intros Hlimit.
    apply (goal_rounds_converges filepath (length remaining));
      try assumption; now rewrite E.
  - intros fuel state' w' Hrun.
    apply goal_rounds_returned in Hrun
      as (_ & _ & _ & _ & _ & _ & _ & _ & _ & _ & _ & _ & _ & Hlimit).
    now rewrite E in Hlimit.
  - intros -> Hlen.
    apply (goal_rounds_converges filepath (length remaining));
      try assumption; [now rewrite E | now rewrite E |].
    cbn [length] in Hlen. unfold recursion_limit. lia.
  - intros -> Hlen.
    apply (goal_rounds_out_of_steps filepath 7); try assumption;
      [reflexivity | now rewrite E | now rewrite E].
Qed.

Lemma cycle_returns_when_peers_and_shells_pause_witness :
  (exists f0 state' w',
      forall fuel, f0 <= fuel ->
        goal_rounds (host := Fixtures.failing_host) (agent := Fixtures.calm)
                    (chat := Fixtures.scribe)
                    "README.md" fuel 1 Fixtures.two_goals world0
        = (Returned state', w')) /\
  (exists f0 w',
      forall fuel, f0 <= fuel ->
        goal_rounds (host := Fixtures.failing_host) (agent := Fixtures.calm)
                    (chat := Fixtures.scribe)
                    "README.md" fuel 1 Fixtures.eight_goals world0
        = (Raised ExcGraphRecursionError, w')).
Proof.
  assert (Hinstall : named Fixtures.install_goal)
    by (split; eexists; reflexivity).
  assert (Hcheck : named Fixtures.check_goal)
    by (split; eexists; reflexivity).
  assert (Hpeers : peers_pause (host := Fixtures.failing_host) 0)
    by (intros k _ n; apply replies_pauses).
  assert (Hshells : shells_behave (host := Fixtures.failing_host) 0).
  { intros k _. split; [now exists "banner" |]. intros n. apply script_pauses. }
  split.
  - destruct (cycle_returns_when_peers_and_shells_pause
                (host := Fixtures.failing_host) (agent := Fixtures.calm)
                (chat := Fixtures.scribe) "README.md" 1 Fixtures.two_goals
                world0) as (_ & _ & Hreturns & _);
      [discriminate | repeat (constructor; [assumption |]); constructor
      | exact Hpeers | exact Hshells |].
    apply Hreturns; [reflexivity | simpl; lia].
  - destruct (cycle_returns_when_peers_and_shells_pause
                (host := Fixtures.failing_host) (agent := Fixtures.calm)
                (chat := Fixtures.scribe) "README.md" 1 Fixtures.eight_goals
                world0) as (_ & _ & _ & Hraises);
      [discriminate | repeat (constructor; [assumption |]); constructor
      | exact Hpeers | exact Hshells |].
    apply Hraises; [reflexivity | simpl; lia].
Defined.

(** X8.  What the local executor puts into the shell.  The collection of
    one command goes round by round: reads, then, when they brought output,
    the consultation of the agent on exactly that output, then the answer
    as an input line when the answer asks for one, and it ends with reads
    that brought nothing.  So in a batch that returns, every line sent to
    the shell is the echo of a command of the batch, a command of the batch
    with its end marker, or the answer the agent gave to output that was
    not empty, the answer being neither empty nor the sentinel; and the
    agent is never asked about empty output. *)
Theorem shell_gets_commands_and_answers_only {host : Host} {agent : Agent}
        (fuel : nat) (commands : list string) (w : world) :
  (forall cmd report w',
      run_command fuel cmd w = (Returned report, w') ->
      exists body,
        trace w'
        = trace w
          ++ EvSendline ("echo " +s+ Shlex.quote cmd +s+ Py.LF)
          :: EvSendline (cmd +s+ " && echo " +s+ "Completed "
                         +s+ uuid4 (uuids w))
          :: body ++ [EvAnalyze (captured body)] /\
        local_dialogue body /\
        report = analyze_output (captured body)) /\
  (forall reports w',
      local_execute_commands_sync fuel commands w = (Returned reports, w') ->
      exists banner evs,
        trace w' = trace w ++ EvSpawn :: EvRead (Data banner) :: evs /\
        (forall line, In (EvSendline line) evs -> typed commands line) /\
        (forall text answer,
            In (EvProvideInput text answer) evs ->
            Py.truthy text = true /\ answer = provide_input text)).
Proof.
  split.
  - intros cmd report w' Hrun.
    apply run_command_dialogue in Hrun as (body & Htrace & Hd & Hreport & _).
    now exists body.
  - intros reports w'. apply local_execute_typed.
Qed.

Lemma shell_gets_commands_and_answers_only_witness :
  exists evs w',
    local_execute_commands_sync (host := Fixtures.hello_host)
                                (agent := Fixtures.eager)
                                9 ["echo hello"] world0
    = (Returned [Fixtures.verdict ("hello" +s+ "y" +s+ Py.linesep)], w') /\
    trace w' = EvSpawn :: EvRead (Data "banner") :: evs /\
    In (EvSendline "y") evs /\
    (forall line,
        In (EvSendline line) evs ->
        typed (agent := Fixtures.eager) ["echo hello"] line).
Proof.
  destruct (shell_gets_commands_and_answers_only
              (host := Fixtures.hello_host) (agent := Fixtures.eager)
              9 ["echo hello"] world0) as (_ & Hbatch).
  assert (Hrun :
            local_execute_commands_sync (host := Fixtures.hello_host)
                                        (agent := Fixtures.eager)
                                        9 ["echo hello"] world0
            = (Returned [Fixtures.verdict ("hello" +s+ "y" +s+ Py.linesep)],
               snd (local_execute_commands_sync
                      (host := Fixtures.hello_host)
                      (agent := Fixtures.eager) 9 ["echo hello"] world0)))
    by (vm_compute; reflexivity).
  destruct (Hbatch _ _ Hrun) as (banner & evs & Htrace & Htyped & _).
  assert (Hevs :
            trace (snd (local_execute_commands_sync
                          (host := Fixtures.hello_host)
                          (agent := Fixtures.eager) 9 ["echo hello"] world0))
            = [EvSpawn; EvRead (Data "banner");
               EvSendline ("echo " +s+ Shlex.quote "echo hello" +s+ Py.LF);
               EvSendline "echo hello && echo Completed id0";
               EvRead (Data "hello"); EvRead TIMEOUT;
               EvProvideInput "hello" "y"; EvSendline "y"; EvRead TIMEOUT;
               EvAnalyze ("hello" +s+ "y" +s+ Py.linesep)])
    by (vm_compute; reflexivity).
  rewrite Hevs in Htrace. cbn [trace world0 app] in Htrace.
  injection Htrace as _ Htrace. subst evs.
  eexists _, _. split; [exact Hrun |]. split; [exact Hevs |].
  split; [do 5 right; now left | exact Htyped].
Defined.

(** X9.  What the container executor sends.  [collect_response] shows the
    agent every response it examines that is not empty, sends the answer
    as an input message when the answer asks for one, and reads the
    trailing response, which it examines next.  So a batch that returns
    has connected once and disconnected once, at its two ends; every
    message it sent is the JSON object of a command of the batch or the
    JSON object of an answer that the agent gave to a response that was
    not empty, the answer being neither empty nor the sentinel; and the
    agent is never asked about an empty response. *)
Theorem container_gets_commands_and_answers_only {host : Host}
        {agent : Agent} (fuel : nat) (commands : list string) (w : world) :
  (forall response out w',
      collect_response fuel response w = (Returned out, w') ->
      exists evs,
        trace w' = trace w ++ evs /\ remote_dialogue response evs /\
        out = response +s+ replied evs) /\
  (forall reports w',
      container_execute_commands_sync fuel commands w
      = (Returned reports, w') ->
      exists evs,
        trace w' = trace w ++ EvConnect :: evs ++ [EvDisconnect] /\
        (forall msg response,
            In (EvSendMessage msg response) evs -> posted commands msg) /\
        (forall text answer,
            In (EvProvideInput text answer) evs ->
            Py.truthy text = true /\ answer = provide_input text) /\
        ~ In EvConnect evs /\ ~ In EvDisconnect evs).
Proof.
  split.
  - intros response out w' Hrun.
    destruct (collect_response_dialogue _ _ _ _ _ Hrun)
      as (evs & Htrace & Hd).
    apply collect_response_returned in Hrun as (evs' & Hout & Htrace' & _).
    rewrite Htrace in Htrace'. apply app_inv_head in Htrace'. subst evs'.
    now exists evs.
  - intros reports w'. apply container_execute_posted.
Qed.

Lemma container_gets_commands_and_answers_only_witness :
  exists evs w',
    container_execute_commands_sync (host := Fixtures.talking_host)
                                    (agent := Fixtures.eager)
                                    9 ["apt install x"] world0
    = (Returned [Fixtures.verdict ("ok" +s+ "more" +s+ "fine")], w') /\
    trace w' = EvConnect :: evs ++ [EvDisconnect] /\
    (forall msg response,
        In (EvSendMessage msg response) evs ->
        posted (agent := Fixtures.eager) ["apt install x"] msg).
Proof.
  destruct (container_gets_commands_and_answers_only
              (host := Fixtures.talking_host) (agent := Fixtures.eager)
              9 ["apt install x"] world0) as (_ & Hbatch).
  assert (Hrun :
            container_execute_commands_sync (host := Fixtures.talking_host)
                                            (agent := Fixtures.eager)
                                            9 ["apt install x"] world0
            = (Returned [Fixtures.verdict ("ok" +s+ "more" +s+ "fine")],
               snd (container_execute_commands_sync
                      (host := Fixtures.talking_host)
                      (agent := Fixtures.eager) 9 ["apt install x"] world0)))
    by (vm_compute; reflexivity).
  destruct (Hbatch _ _ Hrun) as (evs & Htrace & Hposted & _).
  exists evs. eexists. split; [exact Hrun |].
  split; [exact Htrace | exact Hposted].
Defined.

(** X10.  [OpenAIAgent.provide_input] holds its whole conversation on one
    new thread.  It never fails for want of a thread, although its second
    and third run are told to use the thread there is: the first run has
    made it.  The threads there were keep their messages, the new thread
    becomes the thread of the agent, it begins with the first question
    followed by the output, and holds at most six messages.  The answer is
    one the executors act on (not empty, not the sentinel) only when the
    assistant replied Yes to the first question and Yes to the request to
    verify, word for word; it is then the reply of the third run. *)
Theorem provide_input_keeps_to_a_thread_of_its_own {api : OpenAI.Assistants}
        (FIRST VERIFY SYSTEM FOLLOW_UP ANSWER_SYSTEM text : string)
        (st : OpenAI.assistant) :
  exists answer rest,
    OpenAI.provide_input FIRST VERIFY SYSTEM FOLLOW_UP ANSWER_SYSTEM text st
    = OpenAI.Ok answer
        (OpenAI.mkAssistant
           (OpenAI.threads st ++ [(FIRST +s+ Py.LF +s+ text) :: rest])
           (Some (length (OpenAI.threads st)))) /\
    length rest <= 5 /\
    (wants_input (text_of answer) = true ->
     rest = ["Yes"; VERIFY; "Yes"; FOLLOW_UP; text_of answer] /\
     answer
     = OpenAI.create_and_poll
         (length (OpenAI.threads st))
         [FIRST +s+ Py.LF +s+ text; "Yes"; VERIFY; "Yes"; FOLLOW_UP]
         ANSWER_SYSTEM).
Proof.
  rewrite provide_input_run. cbv zeta.
  destruct (OpenAI.is_yes _);
    [destruct (OpenAI.is_yes _) |].
  - eexists _, _. split; [reflexivity |]. split.
    + destruct (OpenAI.create_and_poll _ _ ANSWER_SYSTEM); simpl; lia.
    + intros Hwants. split; [| reflexivity].
      destruct (OpenAI.create_and_poll _ _ ANSWER_SYSTEM);
        [reflexivity | discriminate].
  - eexists _, _. split; [reflexivity |]. split; [| discriminate].
    destruct (OpenAI.create_and_poll _ _ SYSTEM); simpl; lia.
  - eexists _, _. split; [reflexivity |]. split; [| discriminate].
    destruct (OpenAI.create_and_poll _ _ SYSTEM); simpl; lia.
Qed.

Lemma provide_input_keeps_to_a_thread_of_its_own_witness :
  OpenAI.provide_input (api := Fixtures.prompted)
                       "Is there a prompt?" "Is it the last sentence?"
                       "Answer briefly." "What is the answer?"
                       "Reply with the answer." "Proceed? [y/n]"
                       Fixtures.fresh_assistant
  = OpenAI.Ok (Some "y")
      (OpenAI.mkAssistant
         [["Is there a prompt?" +s+ Py.LF +s+ "Proceed? [y/n]"; "Yes";
           "Is it the last sentence?"; "Yes"; "What is the answer?"; "y"]]
         (Some 0)).
Proof.
  destruct (provide_input_keeps_to_a_thread_of_its_own
              (api := Fixtures.prompted)
              "Is there a prompt?" "Is it the last sentence?"
              "Answer briefly." "What is the answer?"
              "Reply with the answer." "Proceed? [y/n]"
              Fixtures.fresh_assistant)
    as (answer & rest & Hrun & _ & Hwanted).
  assert (Hanswer : answer = Some "y").
  { assert (Hcomputed :
              OpenAI.provide_input (api := Fixtures.prompted)
                "Is there a prompt?" "Is it the last sentence?"
                "Answer briefly." "What is the answer?"
                "Reply with the answer." "Proceed? [y/n]"
                Fixtures.fresh_assistant
              = OpenAI.Ok (Some "y")
                  (OpenAI.mkAssistant
                     [["Is there a prompt?" +s+ Py.LF +s+ "Proceed? [y/n]";
                       "Yes"; "Is it the last sentence?"; "Yes";
                       "What is the answer?"; "y"]]
                     (Some 0)))
      by (vm_compute; reflexivity).
    rewrite Hcomputed in Hrun. now injection Hrun as <- _. }
  subst answer. destruct (Hwanted eq_refl) as (-> & _). exact Hrun.
Defined.

(** X11.  [OpenAIAgent.fetch_commands] asks on a new thread, with the goal,
    a newline and the request as the one message.  When the run does not
    complete, [do_run] returns nothing and [fetch_commands] fails with an
    AttributeError, the message left on the new thread; when it completes,
    the commands are the pieces of the reply between the commas, stripped,
    and never the empty list, also when the reply is empty. *)
Theorem fetch_commands_needs_a_completed_run {api : OpenAI.Assistants}
        (instructions : string -> string) (request doc goal : string)
        (st : OpenAI.assistant) :
  match OpenAI.create_and_poll (length (OpenAI.threads st))
                               [(goal +s+ Py.LF) +s+ request]
                               (instructions doc) with
  | None =>
      OpenAI.fetch_commands instructions request doc goal st
      = OpenAI.AttributeError
  | Some reply =>
      OpenAI.fetch_commands instructions request doc goal st
      = OpenAI.Ok (parse_commands reply)
          (OpenAI.mkAssistant
             (OpenAI.threads st ++ [[(goal +s+ Py.LF) +s+ request; reply]])
             (Some (length (OpenAI.threads st)))) /\
      length (parse_commands reply) = S (Str.commas reply)
  end.
Proof.
  unfold OpenAI.fetch_commands. rewrite do_run_new_thread.
  destruct (OpenAI.create_and_poll _ _ _) as [reply|]; [| reflexivity].
  split; [reflexivity |].
  unfold parse_commands. rewrite List.length_map. apply split_length.
Qed.

(** X12.  Nothing in the repair stage catches the failure of a shell to
    start.  When the first report that is not a success is met and the
    shell spawned for its corrective commands times out at its first read,
    the stage ends with that TIMEOUT and returns no state: the reports
    before it were passed over without a request, the agent was asked for
    the corrective commands of this one, the shell was spawned and read
    once, and nothing was sent to it; no list was changed. *)
Theorem repair_stage_fails_with_its_shell {host : Host} {agent : Agent}
        (filepath : string) (state : AgentState) (g : GoalReport)
        (w : world) (k : nat) (r : CommandReport) (fuel : nat) :
  last (goal_reports state) = Some g ->
  elements_at w (command_reports g) !! k = Some r ->
  not_success r = true ->
  (forall j r',
      j < k -> elements_at w (command_reports g) !! j = Some r' ->
      not_success r' = false) ->
  shell (spawned w) 0 = TIMEOUT ->
  k < fuel ->
  execute_mutator_commands filepath fuel state w
  = (Raised ExcTIMEOUT,
     mkWorld (S (spawned w)) 1 (connected w) (peer_pos w) (uuids w)
             (store w)
             (trace w ++ [EvFetchModify r; EvSpawn; EvRead TIMEOUT])).
Proof.
  intros Hlast Hr Hfailed Hbefore Hshell Hfuel.
  unfold execute_mutator_commands, bind at 1, last_goal_report.
  rewrite Hlast. cbn [ret]. unfold bind at 1. rewrite replace_same.
  now rewrite (repair_loop_startup_timeout filepath g k 0 fuel w r).
Qed.

Lemma repair_stage_fails_with_its_shell_witness :
  execute_mutator_commands (host := Fixtures.silent_host)
                           (agent := Fixtures.calm)
                           "README.md" 9 Fixtures.judged_state
                           Fixtures.judged_world
  = (Raised ExcTIMEOUT,
     mkWorld 1 1 0 0 0 [Fixtures.three_reports; []]
             [EvFetchModify
                (mkCommandReport "x --version" (Some false)
                                 (Some "x: not found"));
              EvSpawn; EvRead TIMEOUT]).
Proof.
  apply (repair_stage_fails_with_its_shell
           (host := Fixtures.silent_host) (agent := Fixtures.calm)
           "README.md" Fixtures.judged_state Fixtures.judged_goal
           Fixtures.judged_world 1
           (mkCommandReport "x --version" (Some false)
                            (Some "x: not found")) 9).
  - reflexivity.
  - reflexivity.
  - reflexivity.
  - intros [|j] r' Hj Hr'; [| lia]. injection Hr' as <-. reflexivity.
  - reflexivity.
  - lia.
Defined.

(** X13.  Every goal gets a report for each piece of the model's reply.  In
    a run of the cycle that returns, the records appended to the goal
    reports name the goals in order, and the record of a goal holds one
    report more than the reply of the model for this goal has commas: at
    least one, so a command is run in the container for every goal, also
    when the reply is empty and the command is the empty one. *)
Theorem every_goal_gets_a_report_for_each_piece {host : Host} {agent : Agent}
        {chat : Chat} (filepath : string) (fuel taken : nat)
        (state : AgentState) (w : world) (state' : AgentState) (w' : world) :
  goal_rounds filepath fuel taken state w = (Returned state', w') ->
  exists new_reports,
    goal_reports state' = goal_reports state ++ new_reports /\
    Forall2 (fun g goal =>
               names g goal /\
               length (elements_at w' (command_reports g))
               = S (Str.commas (commands_reply goal)))
            new_reports (goals state).
Proof.
  intros Hrun.
  apply goal_rounds_returned in Hrun
    as (rounds & new_reports & final & _ & _ & _ & Hreports & _ & Hrounds & _).
  exists new_reports. split; [exact Hreports |].
  exact (goal_rounds_report_counts filepath _ _ _ _ Hrounds).
Qed.

Lemma every_goal_gets_a_report_for_each_piece_witness :
  exists state' w',
    goal_rounds (host := Fixtures.failing_host) (agent := Fixtures.calm)
                (chat := Fixtures.scribe)
                "README.md" 12 1 Fixtures.two_goals world0
    = (Returned state', w') /\
    goal_reports state' = Fixtures.two_records /\
    Forall2 (fun g goal =>
               names g goal /\
               length (elements_at w' (command_reports g)) = 2)
            Fixtures.two_records
            [Fixtures.install_goal; Fixtures.check_goal].
Proof.
  assert (Hrun :
            goal_rounds (host := Fixtures.failing_host)
                        (agent := Fixtures.calm) (chat := Fixtures.scribe)
                        "README.md" 12 1 Fixtures.two_goals world0
            = (Returned
                 (mkAgentState
                    [fetch_commands_instructions (Chat := Fixtures.scribe);
                     "Give me commands for this goal: "
                     +s+ dumps_goal Fixtures.check_goal;
                     commands_reply (chat := Fixtures.scribe)
                                    Fixtures.check_goal]
                    [] Fixtures.two_records),
               snd (goal_rounds (host := Fixtures.failing_host)
                                (agent := Fixtures.calm)
                                (chat := Fixtures.scribe)
                                "README.md" 12 1 Fixtures.two_goals world0)))
    by (vm_compute; reflexivity).
  destruct (every_goal_gets_a_report_for_each_piece
              (host := Fixtures.failing_host) (agent := Fixtures.calm)
              (chat := Fixtures.scribe) _ _ _ _ _ _ _ Hrun)
    as (new_reports & Hreports & Hcounts).
  cbn [goal_reports Fixtures.two_goals app] in Hreports. subst new_reports.
  eexists _, _. split; [exact Hrun |]. split; [reflexivity | exact Hcounts].
Defined.
